(** * Urban Investors: the property filter of the listing pages

    A shallow embedding of the filtering code of the site's script
    ([filterProperties] and its helpers, the active-filter summary, and the
    redirect that carries the filter values through the query string), with
    the properties of the filter proved over it.

    Strings are Rocq strings, read as the UTF-8 bytes of the JavaScript
    string. The values the code reads from the page are either a string or
    [undefined]/[null]; they are modelled as [option string]. *)

From Stdlib Require Import ZArith Ascii String List Lia Bool.
From Stdlib Require Import DecimalString DecimalNat.
From Stdlib Require Import QArith Qabs.
From stdpp Require Import base option list strings gmap.

Local Open Scope string_scope.
Local Open Scope Z_scope.

(** ** JavaScript values and built-ins used by the script *)

Module JS.

(** ToBoolean on a value that is a string or undefined: only a non-empty
    string is truthy. *)
Definition nonEmpty (s : string) : bool :=
  match s with
  | EmptyString => false
  | String _ _ => true
  end.

Definition truthy (v : option string) : bool :=
  match v with
  | Some s => nonEmpty s
  | None => false
  end.

(** [String.prototype.includes]: [t] occurs in [s] at some position. *)
Fixpoint includes (s t : string) : bool :=
  String.prefix t s ||
  match s with
  | EmptyString => false
  | String _ s' => includes s' t
  end.

(** [String.prototype.split] for a separator of one character. *)
Fixpoint split (sep : ascii) (s : string) : list string :=
  match s with
  | EmptyString => [EmptyString]
  | String c s' =>
      if Ascii.eqb c sep then EmptyString :: split sep s'
      else match split sep s' with
           | [] => [String c EmptyString]
           | piece :: pieces => String c piece :: pieces
           end
  end.

(** [Array.prototype.join]. *)
Definition join (sep : string) (l : list string) : string :=
  String.concat sep l.

(** [Array.prototype.includes] on an array of strings. *)
Definition arrayIncludes (l : list string) (x : string) : bool :=
  existsb (String.eqb x) l.

(** *** parseInt

    [parseInt(s)] without a radix: leading white space is skipped, then an
    optional sign, then an optional [0x]/[0X] (which selects radix 16), then
    the longest run of digits; [NaN] when that run is empty. The result is
    [None] for [NaN]. The integer is kept exact: the script only compares it
    with 5, and rounding to a double does not move a value across 5. *)

Definition isAsciiWhiteSpace (n : N) : bool :=
  (* TAB, LF, VT, FF, CR, SP *)
  ((9 <=? n) && (n <=? 13))%N || (n =? 32)%N.

(** White space of two bytes: U+00A0. *)
Definition isWhiteSpace2 (a b : N) : bool :=
  ((a =? 194) && (b =? 160))%N.

(** White space of three bytes: U+1680, U+2000..U+200A, U+2028, U+2029,
    U+202F, U+205F, U+3000, U+FEFF. *)
Definition isWhiteSpace3 (a b c : N) : bool :=
  (((a =? 225) && (b =? 154) && (c =? 128)) ||
   ((a =? 226) && (b =? 128) &&
      (((128 <=? c) && (c <=? 138)) || (c =? 168) || (c =? 169) || (c =? 175))) ||
   ((a =? 226) && (b =? 129) && (c =? 159)) ||
   ((a =? 227) && (b =? 128) && (c =? 128)) ||
   ((a =? 239) && (b =? 187) && (c =? 191)))%N.

Fixpoint trimStart (s : string) : string :=
  match s with
  | EmptyString => EmptyString
  | String a r1 =>
      if isAsciiWhiteSpace (N_of_ascii a) then trimStart r1
      else
        match r1 with
        | EmptyString => s
        | String b r2 =>
            if isWhiteSpace2 (N_of_ascii a) (N_of_ascii b) then trimStart r2
            else
              match r2 with
              | EmptyString => s
              | String c r3 =>
                  if isWhiteSpace3 (N_of_ascii a) (N_of_ascii b) (N_of_ascii c)
                  then trimStart r3
                  else s
              end
        end
  end.

(** The value of a character as a digit: 0-9, a-z and A-Z count 0..35. *)
Definition digitValue (c : ascii) : option Z :=
  let n := Z.of_N (N_of_ascii c) in
  if (48 <=? n) && (n <=? 57) then Some (n - 48)
  else if (97 <=? n) && (n <=? 122) then Some (n - 87)
  else if (65 <=? n) && (n <=? 90) then Some (n - 55)
  else None.

(** The longest prefix of digits of the radix, read left to right; [acc] is
    [None] until a digit has been read. *)
Fixpoint readDigits (radix : Z) (s : string) (acc : option Z) : option Z :=
  match s with
  | EmptyString => acc
  | String c rest =>
      match digitValue c with
      | Some d =>
          if d <? radix
          then readDigits radix rest (Some (default 0 acc * radix + d))
          else acc
      | None => acc
      end
  end.

(** The sign and the text after it. *)
Definition stripSign (t : string) : Z * string :=
  match t with
  | String "-" r => (-1, r)
  | String "+" r => (1, r)
  | _ => (1, t)
  end.

(** The radix and the text after a [0x] or [0X]. *)
Definition stripRadixPrefix (t : string) : Z * string :=
  match t with
  | String "0" (String "x" r) => (16, r)
  | String "0" (String "X" r) => (16, r)
  | _ => (10, t)
  end.

Definition parseInt (s : string) : option Z :=
  let t := trimStart s in
  let '(sign, t) := stripSign t in
  let '(radix, t) := stripRadixPrefix t in
  match readDigits radix t None with
  | Some n => Some (sign * n)
  | None => None
  end.

(** [Number.prototype.toString] for an integer: its decimal digits, with a
    minus sign when negative. *)
Definition decimal (n : Z) : string :=
  if n <? 0
  then "-" ++ NilEmpty.string_of_uint (Nat.to_uint (Z.to_nat (- n)))
  else NilEmpty.string_of_uint (Nat.to_uint (Z.to_nat n)).

(** The characters a number written in decimal is made of. *)
Definition isDecimalDigit (c : ascii) : Prop :=
  In c ["0"; "1"; "2"; "3"; "4"; "5"; "6"; "7"; "8"; "9"]%char.

(** *** Object literals

    A property read [obj[key]] on an object literal finds the literal's own
    entries and, failing that, the members every object inherits from
    [Object.prototype]. The inherited members are functions, except
    [__proto__], which is the prototype object itself. *)

Inductive propertyValue : Type :=
| VString (s : string)
| VInherited (key : string).

Definition objectPrototypeMembers : list string :=
  [ "constructor"; "hasOwnProperty"; "isPrototypeOf"; "propertyIsEnumerable";
    "toLocaleString"; "toString"; "valueOf"; "__proto__";
    "__defineGetter__"; "__defineSetter__"; "__lookupGetter__";
    "__lookupSetter__" ].

(** [obj[key]], [None] for [undefined]. *)
Definition getProperty (own : gmap string string) (key : string) : option propertyValue :=
  match own !! key with
  | Some s => Some (VString s)
  | None =>
      if arrayIncludes objectPrototypeMembers key
      then Some (VInherited key)
      else None
  end.

(** [obj[key] || fallback]: the property when it is truthy (an object is
    always truthy), else the fallback string. *)
Definition getPropertyOr (own : gmap string string) (key fallback : string) : propertyValue :=
  match getProperty own key with
  | Some (VString s) => if nonEmpty s then VString s else VString fallback
  | Some (VInherited k) => VInherited k
  | None => VString fallback
  end.

(** [Array.prototype.includes] with a value that may be an object: an array
    of strings never contains an object. *)
Definition arrayIncludesValue (l : list string) (v : propertyValue) : bool :=
  match v with
  | VString s => arrayIncludes l s
  | VInherited _ => false
  end.

End JS.

(** The parts of the JavaScript engine the script relies on and that are left
    open here: the Unicode lower-casing of [String.prototype.toLowerCase] and
    the text an engine prints for a built-in function (it differs between
    engines). *)
Class Engine := {
  toLowerCase : string -> string;
  toLowerCase_empty : toLowerCase "" = "";
  functionText : string -> string;
}.

(** ** The query string

    [URLSearchParams] is an ordered list of name/value pairs. [toString] is
    the application/x-www-form-urlencoded serializer and the constructor is the
    matching parser, both on the UTF-8 bytes. *)

Module URLSearchParams.

Definition t : Type := list (string * string).

Definition empty : t := [].

Definition append (name value : string) (params : t) : t :=
  (params ++ [(name, value)])%list.

(** [get]: the value of the first pair with that name, [None] for [null]. *)
Definition get (name : string) (params : t) : option string :=
  snd <$> List.find (fun entry => String.eqb (fst entry) name) params.

(** Bytes the serializer leaves as they are: ASCII letters and digits and
    [*], [-], [.], [_]. *)
Definition isUnreserved (c : ascii) : bool :=
  let n := N_of_ascii c in
  (((48 <=? n) && (n <=? 57)) || ((65 <=? n) && (n <=? 90)) ||
   ((97 <=? n) && (n <=? 122)) ||
   (n =? 42) || (n =? 45) || (n =? 46) || (n =? 95))%N.

Definition hexDigit (n : N) : ascii :=
  if (n <? 10)%N then ascii_of_N (48 + n) else ascii_of_N (55 + n).

Definition percentEncodeByte (c : ascii) : string :=
  if Ascii.eqb c " " then "+"
  else if isUnreserved c then String c EmptyString
  else
    let n := N_of_ascii c in
    String "%" (String (hexDigit (n / 16)) (String (hexDigit (n mod 16)) EmptyString)).

Fixpoint percentEncode (s : string) : string :=
  match s with
  | EmptyString => EmptyString
  | String c rest => percentEncodeByte c ++ percentEncode rest
  end.

(** The characters that structure an address and its query. *)
Definition isDelimiter (c : ascii) : bool :=
  Ascii.eqb c "&" || Ascii.eqb c "=" || Ascii.eqb c "#" || Ascii.eqb c "?".

Definition serializePair (entry : string * string) : string :=
  percentEncode (fst entry) ++ "=" ++ percentEncode (snd entry).

Definition toString (params : t) : string :=
  JS.join "&" (map serializePair params).

Definition hexValue (c : ascii) : option N :=
  let n := N_of_ascii c in
  if ((48 <=? n) && (n <=? 57))%N then Some (n - 48)%N
  else if ((65 <=? n) && (n <=? 70))%N then Some (n - 55)%N
  else if ((97 <=? n) && (n <=? 102))%N then Some (n - 87)%N
  else None.

(** Percent-decoding: a [%] followed by two hexadecimal digits is one byte,
    any other byte stands for itself. *)
Fixpoint percentDecode (s : string) : string :=
  match s with
  | EmptyString => EmptyString
  | String c rest =>
      let plain := String c (percentDecode rest) in
      if Ascii.eqb c "%" then
        match rest with
        | String a (String b rest') =>
            match hexValue a, hexValue b with
            | Some h, Some l => String (ascii_of_N (16 * h + l)) (percentDecode rest')
            | _, _ => plain
            end
        | _ => plain
        end
      else plain
  end.

Fixpoint plusToSpace (s : string) : string :=
  match s with
  | EmptyString => EmptyString
  | String c rest => String (if Ascii.eqb c "+" then " "%char else c) (plusToSpace rest)
  end.

(** The part before the first [=] and the part after it; the whole string
    and the empty string when there is no [=]. *)
Fixpoint splitAtEquals (s : string) : string * string :=
  match s with
  | EmptyString => (EmptyString, EmptyString)
  | String c rest =>
      if Ascii.eqb c "=" then (EmptyString, rest)
      else let '(name, value) := splitAtEquals rest in (String c name, value)
  end.

Definition parsePair (piece : string) : string * string :=
  let '(name, value) := splitAtEquals piece in
  (percentDecode (plusToSpace name), percentDecode (plusToSpace value)).

Definition parse (query : string) : t :=
  map parsePair (List.filter JS.nonEmpty (JS.split "&" query)).

(** [new URLSearchParams(init)] for a string: one leading [?] is dropped. *)
Definition ofString (init : string) : t :=
  match init with
  | String "?" query => parse query
  | _ => parse init
  end.

End URLSearchParams.

(** [window.location.search] of the page an href leads to: the query without
    the fragment, with its [?], and the empty string when the query is
    empty. The serializer's output has no character the URL parser would
    rewrite. *)
Module Location.

Fixpoint upTo (c : ascii) (s : string) : string :=
  match s with
  | EmptyString => EmptyString
  | String a rest => if Ascii.eqb a c then EmptyString else String a (upTo c rest)
  end.

Fixpoint after (c : ascii) (s : string) : option string :=
  match s with
  | EmptyString => None
  | String a rest => if Ascii.eqb a c then Some rest else after c rest
  end.

Definition search (href : string) : string :=
  match after "?" (upTo "#" href) with
  | Some query => if JS.nonEmpty query then String "?" query else EmptyString
  | None => EmptyString
  end.

End Location.

(** ** The page: filter controls and listing cards *)

(** The values of the six filter controls, as the functions read them with
    [document.getElementById(id)?.value]: [None] when the page has no such
    control. *)
Record Filters := {
  propertyType : option string;
  budget : option string;
  bhk : option string;
  location : option string;
  possession : option string;
  amenities : option string;
}.

(** A form control: its current value and what an assignment to [value]
    stores. A [select] keeps a value only when it is the value of one of its
    options and otherwise ends up with no option selected (value [""]); a text
    input drops line breaks. *)
Record Control := {
  stores : string -> string;
  value : string;
}.

Definition setValue (v : string) (c : Control) : Control :=
  {| stores := stores c; value := stores c v |}.

Definition selectControl (options : list string) (v : string) : Control :=
  {| stores := fun x => if JS.arrayIncludes options x then x else "";
     value := v |}.

Fixpoint stripNewlines (s : string) : string :=
  match s with
  | EmptyString => EmptyString
  | String c rest =>
      if Ascii.eqb c "010" || Ascii.eqb c "013" then stripNewlines rest
      else String c (stripNewlines rest)
  end.

Definition textControl (v : string) : Control :=
  {| stores := stripNewlines; value := v |}.

(** The search form: the element each id resolves to, [None] when
    [getElementById] returns [null]. *)
Record Form := {
  propertyTypeControl : option Control;
  budgetControl : option Control;
  bhkControl : option Control;
  locationControl : option Control;
  possessionControl : option Control;
  amenitiesControl : option Control;
}.

Definition readFilters (form : Form) : Filters :=
  {| propertyType := value <$> propertyTypeControl form;
     budget := value <$> budgetControl form;
     bhk := value <$> bhkControl form;
     location := value <$> locationControl form;
     possession := value <$> possessionControl form;
     amenities := value <$> amenitiesControl form |}.

(** A listing card of the grid: its [data-] attributes ([card.dataset.x] is
    [undefined] when the attribute is missing) and the text of its first
    [.text-muted] element, which holds the location. *)
Record Card := {
  dataPropertyType : option string;
  dataPriceRange : option string;
  dataBhk : option string;
  textMuted : option string;
  dataStatus : option string;
  dataAmenities : option string;
}.

(** [if (v) ... ] on a value that is a string or undefined: the branch gets
    the string. *)
Definition ifTruthy {A : Type} (v : option string) (thenBranch : string -> A) (elseBranch : A) : A :=
  match v with
  | Some s => if JS.nonEmpty s then thenBranch s else elseBranch
  | None => elseBranch
  end.

(** ** The script's functions *)

(** [checkBudgetMatch(budget, priceRange)]: the [switch] over the selected
    budget code. *)
Definition checkBudgetMatch (budget priceRange : string) : bool :=
  if String.eqb budget "50-100" then
    String.eqb priceRange "50l" || String.eqb priceRange "1cr"
  else if String.eqb budget "100-250" then
    String.eqb priceRange "1cr" || String.eqb priceRange "2.5cr"
  else if String.eqb budget "250-500" then
    String.eqb priceRange "2.5cr" || String.eqb priceRange "5cr"
  else if String.eqb budget "500-1000" then
    String.eqb priceRange "5cr" || String.eqb priceRange "10cr"
  else if String.eqb budget "1000+" then
    String.eqb priceRange "10cr" || String.eqb priceRange "on-request"
  else true.

(** [checkBhkMatch(bhk, cardBhk)]. *)
Definition checkBhkMatch (bhk : string) (cardBhk : option string) : bool :=
  ifTruthy cardBhk (fun cardBhk =>
    let bhkOptions := JS.split "," cardBhk in
    if String.eqb bhk "5+" then
      existsb (fun option =>
                 match JS.parseInt option with
                 | Some num => 5 <=? num
                 | None => false
                 end) bhkOptions
    else JS.arrayIncludes bhkOptions bhk)
  true.

Definition amenityMap : gmap string string :=
  list_to_map
    [ ("pool", "pool"); ("gym", "gym"); ("club", "club");
      ("security", "security"); ("solar", "solar") ].

(** [checkAmenitiesMatch(amenity, cardAmenities)]. *)
Definition checkAmenitiesMatch (amenity : string) (cardAmenities : option string) : bool :=
  ifTruthy cardAmenities (fun cardAmenities =>
    let amenityOptions := JS.split "," cardAmenities in
    let mappedAmenity := JS.getPropertyOr amenityMap amenity amenity in
    JS.arrayIncludesValue amenityOptions mappedAmenity)
  true.

(** The six blocks of the loop body of [filterProperties]. Each one reads the
    flag [showProperty] and gives its new value. *)

Definition filterByPropertyType (propertyType : option string) (card : Card)
    (showProperty : bool) : bool :=
  ifTruthy propertyType (fun propertyType =>
    if showProperty then
      ifTruthy (dataPropertyType card) (fun cardPropertyType =>
        if negb (JS.includes cardPropertyType propertyType) then false
        else showProperty)
      showProperty
    else showProperty)
  showProperty.

Definition filterByBudget (budget : option string) (card : Card)
    (showProperty : bool) : bool :=
  ifTruthy budget (fun budget =>
    if showProperty then
      ifTruthy (dataPriceRange card) (fun cardPriceRange =>
        let budgetMatch := checkBudgetMatch budget cardPriceRange in
        if negb budgetMatch then false else showProperty)
      showProperty
    else showProperty)
  showProperty.

Definition filterByBhk (bhk : option string) (card : Card)
    (showProperty : bool) : bool :=
  ifTruthy bhk (fun bhk =>
    if showProperty then
      ifTruthy (dataBhk card) (fun cardBhk =>
        let bhkMatch := checkBhkMatch bhk (Some cardBhk) in
        if negb bhkMatch then false else showProperty)
      showProperty
    else showProperty)
  showProperty.

Definition filterByLocation `{Engine} (location : option string) (card : Card)
    (showProperty : bool) : bool :=
  ifTruthy location (fun location =>
    if showProperty then
      let cardLocation := toLowerCase <$> textMuted card in
      ifTruthy cardLocation (fun cardLocation =>
        if negb (JS.includes cardLocation location) then false
        else showProperty)
      showProperty
    else showProperty)
  showProperty.

Definition filterByPossession (possession : option string) (card : Card)
    (showProperty : bool) : bool :=
  ifTruthy possession (fun possession =>
    if showProperty then
      ifTruthy (dataStatus card) (fun cardStatus =>
        if negb (String.eqb cardStatus possession) then false
        else showProperty)
      showProperty
    else showProperty)
  showProperty.

Definition filterByAmenities (amenities : option string) (card : Card)
    (showProperty : bool) : bool :=
  ifTruthy amenities (fun amenities =>
    if showProperty then
      ifTruthy (dataAmenities card) (fun cardAmenities =>
        let amenitiesMatch := checkAmenitiesMatch amenities (Some cardAmenities) in
        if negb amenitiesMatch then false else showProperty)
      showProperty
    else showProperty)
  showProperty.

(** The loop body of [filterProperties] for one card, up to the value of
    [showProperty] it ends with. [location] is the lower-cased value, as
    [filterProperties] reads it. *)
Definition showProperty `{Engine} (filters : Filters) (card : Card) : bool :=
  let location := toLowerCase <$> location filters in
  let showProperty := true in
  let showProperty := filterByPropertyType (propertyType filters) card showProperty in
  let showProperty := filterByBudget (budget filters) card showProperty in
  let showProperty := filterByBhk (bhk filters) card showProperty in
  let showProperty := filterByLocation location card showProperty in
  let showProperty := filterByPossession (possession filters) card showProperty in
  let showProperty := filterByAmenities (amenities filters) card showProperty in
  showProperty.

(** [filterProperties()]: every card of the grid, in document order, gets
    [style.display] set to ["block"] or ["none"], and the shown cards are
    counted; the count goes to [updateFilterResultsInfo]. The result pairs
    each card with its new [display] and gives [visibleCount]. *)
Definition filterProperties `{Engine} (filters : Filters) (propertyCards : list Card)
    : list (Card * string) * nat :=
  fold_left
    (fun '(displayed, visibleCount) card =>
       let show := showProperty filters card in
       ((displayed ++ [(card, if show then "block" else "none")])%list,
        if show then S visibleCount else visibleCount))
    propertyCards ([], 0%nat).

(** The cards left visible by [filterProperties], in the order of the grid. *)
Definition visibleCards (displayed : list (Card * string)) : list Card :=
  fst <$> List.filter (fun entry => String.eqb (snd entry) "block") displayed.

(** [hasFiltersApplied()]. *)
Definition hasFiltersApplied (filters : Filters) : bool :=
  JS.truthy (propertyType filters) || JS.truthy (budget filters) ||
  JS.truthy (bhk filters) || JS.truthy (location filters) ||
  JS.truthy (possession filters) || JS.truthy (amenities filters).

Definition budgetLabels : gmap string string :=
  list_to_map
    [ ("50-100", "₹50L - ₹1Cr"); ("100-250", "₹1Cr - ₹2.5Cr");
      ("250-500", "₹2.5Cr - ₹5Cr"); ("500-1000", "₹5Cr - ₹10Cr");
      ("1000+", "₹10Cr+") ].

Definition amenityLabels : gmap string string :=
  list_to_map
    [ ("pool", "Swimming Pool"); ("gym", "Gymnasium"); ("club", "Clubhouse");
      ("security", "24/7 Security"); ("solar", "Solar Power") ].

(** [getBudgetLabel(budgetValue)]. *)
Definition getBudgetLabel (budgetValue : string) : JS.propertyValue :=
  JS.getPropertyOr budgetLabels budgetValue budgetValue.

(** [getAmenityLabel(amenityValue)]. *)
Definition getAmenityLabel (amenityValue : string) : JS.propertyValue :=
  JS.getPropertyOr amenityLabels amenityValue amenityValue.

(** The text a template literal puts in place of a value. *)
Definition toText `{Engine} (v : JS.propertyValue) : string :=
  match v with
  | JS.VString s => s
  | JS.VInherited key =>
      if String.eqb key "__proto__" then "[object Object]" else functionText key
  end.

(** [Array.prototype.push]. *)
Definition push (array : list string) (item : string) : list string :=
  (array ++ [item])%list.

(** [getActiveFilters()]. *)
Definition getActiveFilters `{Engine} (controls : Filters) : list string :=
  let filters : list string := [] in
  let filters :=
    ifTruthy (propertyType controls)
      (fun propertyType => push filters ("Type: " ++ propertyType)) filters in
  let filters :=
    ifTruthy (budget controls)
      (fun budget => push filters ("Budget: " ++ toText (getBudgetLabel budget))) filters in
  let filters :=
    ifTruthy (bhk controls)
      (fun bhk => push filters ("BHK: " ++ bhk)) filters in
  let filters :=
    ifTruthy (location controls)
      (fun location => push filters ("Location: " ++ location)) filters in
  let filters :=
    ifTruthy (possession controls)
      (fun possession => push filters ("Status: " ++ possession)) filters in
  let filters :=
    ifTruthy (amenities controls)
      (fun amenities => push filters ("Amenities: " ++ toText (getAmenityLabel amenities))) filters in
  filters.

(** [redirectToFilteredProperties()]: the href the page is sent to. *)
Definition redirectToFilteredProperties (filters : Filters) : string :=
  let params := URLSearchParams.empty in
  let params :=
    ifTruthy (propertyType filters) (fun v => URLSearchParams.append "type" v params) params in
  let params :=
    ifTruthy (budget filters) (fun v => URLSearchParams.append "budget" v params) params in
  let params :=
    ifTruthy (bhk filters) (fun v => URLSearchParams.append "bhk" v params) params in
  let params :=
    ifTruthy (location filters) (fun v => URLSearchParams.append "location" v params) params in
  let params :=
    ifTruthy (possession filters) (fun v => URLSearchParams.append "status" v params) params in
  let params :=
    ifTruthy (amenities filters) (fun v => URLSearchParams.append "amenities" v params) params in
  "properties.html?" ++ URLSearchParams.toString params.

(** [document.getElementById(id).value = v]: a [TypeError] ([None]) when the
    page has no such element. *)
Definition assignValue (control : option Control) (v : string) : option (option Control) :=
  match control with
  | Some c => Some (Some (setValue v c))
  | None => None
  end.

(** [applyUrlFilters()] on a page whose address has query [search] and whose
    form is [form]: the form after the assignments, [None] when one of them
    throws. The function ends by scheduling [filterProperties], which reads
    the form again. *)
Definition applyUrlFilters (search : string) (form : Form) : option Form :=
  let urlParams := URLSearchParams.ofString search in
  let propertyType := URLSearchParams.get "type" urlParams in
  let budget := URLSearchParams.get "budget" urlParams in
  let bhk := URLSearchParams.get "bhk" urlParams in
  let location := URLSearchParams.get "location" urlParams in
  let possession := URLSearchParams.get "status" urlParams in
  let amenities := URLSearchParams.get "amenities" urlParams in
  c1 ← ifTruthy propertyType (assignValue (propertyTypeControl form))
         (Some (propertyTypeControl form));
  c2 ← ifTruthy budget (assignValue (budgetControl form))
         (Some (budgetControl form));
  c3 ← ifTruthy bhk (assignValue (bhkControl form))
         (Some (bhkControl form));
  c4 ← ifTruthy location (assignValue (locationControl form))
         (Some (locationControl form));
  c5 ← ifTruthy possession (assignValue (possessionControl form))
         (Some (possessionControl form));
  c6 ← ifTruthy amenities (assignValue (amenitiesControl form))
         (Some (amenitiesControl form));
  Some {| propertyTypeControl := c1; budgetControl := c2; bhkControl := c3;
          locationControl := c4; possessionControl := c5; amenitiesControl := c6 |}.

(** ** The filter as the specification words it *)

(** The query a filter selection is encoded to, and the selection a query is
    decoded to on a page with form [form]. *)
Definition encodeToQuery (filters : Filters) : string :=
  Location.search (redirectToFilteredProperties filters).

Definition decodeFromQuery (form : Form) (search : string) : option Filters :=
  readFilters <$> applyUrlFilters search form.

(** ** A concrete engine and page for the examples *)

Fixpoint asciiLower (s : string) : string :=
  match s with
  | EmptyString => EmptyString
  | String c rest =>
      let n := N_of_ascii c in
      String (if ((65 <=? n) && (n <=? 90))%N then ascii_of_N (n + 32) else c)
             (asciiLower rest)
  end.

(** Lower-casing of ASCII letters, and the function text of V8. *)
#[export] Instance asciiEngine : Engine := {|
  toLowerCase := asciiLower;
  toLowerCase_empty := eq_refl;
  functionText := fun key =>
    "function " ++ (if String.eqb key "constructor" then "Object" else key)
      ++ "() { [native code] }";
|}.

(** ** The six facets *)

Inductive Facet : Type :=
| PropertyType | Budget | Bhk | Location | Possession | Amenities.

(** The facets in the order [filterProperties] and [getActiveFilters] go
    through them. *)
Definition facets : list Facet :=
  [PropertyType; Budget; Bhk; Location; Possession; Amenities].

(** The selected value of a facet and the listing's value for it. *)
Definition selected (facet : Facet) (filters : Filters) : option string :=
  match facet with
  | PropertyType => propertyType filters
  | Budget => budget filters
  | Bhk => bhk filters
  | Location => location filters
  | Possession => possession filters
  | Amenities => amenities filters
  end.

Definition listed (facet : Facet) (card : Card) : option string :=
  match facet with
  | PropertyType => dataPropertyType card
  | Budget => dataPriceRange card
  | Bhk => dataBhk card
  | Location => textMuted card
  | Possession => dataStatus card
  | Amenities => dataAmenities card
  end.

(** The block of the loop body that belongs to a facet, with the filter
    value as [filterProperties] passes it. *)
Definition filterBy `{Engine} (facet : Facet) (filters : Filters) (card : Card)
    : bool -> bool :=
  match facet with
  | PropertyType => filterByPropertyType (propertyType filters) card
  | Budget => filterByBudget (budget filters) card
  | Bhk => filterByBhk (bhk filters) card
  | Location => filterByLocation (toLowerCase <$> location filters) card
  | Possession => filterByPossession (possession filters) card
  | Amenities => filterByAmenities (amenities filters) card
  end.

(** The predicate of a facet: its block on its own, started from a card that
    is shown. *)
Definition matchesFacet `{Engine} (filters : Filters) (card : Card) (facet : Facet) : bool :=
  filterBy facet filters card true.

(** The control of a facet, and the name of its query parameter. *)
Definition control (facet : Facet) (form : Form) : option Control :=
  match facet with
  | PropertyType => propertyTypeControl form
  | Budget => budgetControl form
  | Bhk => bhkControl form
  | Location => locationControl form
  | Possession => possessionControl form
  | Amenities => amenitiesControl form
  end.

Definition paramName (facet : Facet) : string :=
  match facet with
  | PropertyType => "type"
  | Budget => "budget"
  | Bhk => "bhk"
  | Location => "location"
  | Possession => "status"
  | Amenities => "amenities"
  end.

(** The query entry of a facet: none when the facet is empty. *)
Definition queryEntry (filters : Filters) (facet : Facet) : option (string * string) :=
  match selected facet filters with
  | Some v => if JS.nonEmpty v then Some (paramName facet, v) else None
  | None => None
  end.

(** A form as a freshly loaded page has it: every control is there and
    empty. *)
Definition freshForm (form : Form) : Prop :=
  forall facet, exists c, control facet form = Some c /\ value c = "".

(** The selected values are values the form's controls know: a control
    stores the non-empty value selected for its facet as it is. *)
Definition recognizes (form : Form) (filters : Filters) : Prop :=
  forall facet v c,
    selected facet filters = Some v -> v <> "" ->
    control facet form = Some c -> stores c v = v.

(** The test a facet's block makes, on the filter value and the listing's
    value it compares. *)
Definition facetTest (facet : Facet) (v cv : string) : bool :=
  match facet with
  | PropertyType => JS.includes cv v
  | Budget => checkBudgetMatch v cv
  | Bhk => checkBhkMatch v (Some cv)
  | Location => JS.includes cv v
  | Possession => String.eqb cv v
  | Amenities => checkAmenitiesMatch v (Some cv)
  end.

(** The two values a block looks at: for the location, both lower-cased. *)
Definition blockValues `{Engine} (facet : Facet) (filters : Filters) (card : Card)
    : option string * option string :=
  match facet with
  | Location => (toLowerCase <$> location filters, toLowerCase <$> textMuted card)
  | _ => (selected facet filters, listed facet card)
  end.

(** The blocks run in a given order. *)
Definition runBlocks `{Engine} (order : list Facet) (filters : Filters) (card : Card) : bool :=
  fold_left (fun showProperty facet => filterBy facet filters card showProperty) order true.

(** The budget codes of the [switch] in [checkBudgetMatch]. *)
Definition budgetCodes : list string :=
  ["50-100"; "100-250"; "250-500"; "500-1000"; "1000+"].

(** The [data-bhk] attribute of a listing that offers the bedroom counts
    [options]: the numbers joined by commas. *)
Definition bhkAttribute (options : list Z) : string :=
  JS.join "," (JS.decimal <$> options).

(** *** The active-filter summary as the specification words it

    For each non-empty facet, in the fixed order, one ["Label: value"]
    string; budget and amenity values go through their label table, and a
    value the table has nothing for is shown as it is. The table is the
    label table itself, the entries the script writes down: these
    definitions follow the words of the specification, and know nothing of
    what a property read finds besides. *)

Definition facetLabel (facet : Facet) : string :=
  match facet with
  | PropertyType => "Type"
  | Budget => "Budget"
  | Bhk => "BHK"
  | Location => "Location"
  | Possession => "Status"
  | Amenities => "Amenities"
  end.

Definition labelTable (facet : Facet) : option (gmap string string) :=
  match facet with
  | Budget => Some budgetLabels
  | Amenities => Some amenityLabels
  | _ => None
  end.

Definition rendered (facet : Facet) (v : string) : string :=
  match labelTable facet with
  | Some table =>
      match table !! v with
      | Some label => label
      | None => v
      end
  | None => v
  end.

Definition describeFacet (filters : Filters) (facet : Facet) : option string :=
  match selected facet filters with
  | Some v =>
      if JS.nonEmpty v then Some (facetLabel facet ++ ": " ++ rendered facet v)
      else None
  | None => None
  end.

Definition describeActiveFilters (filters : Filters) : list string :=
  omap (describeFacet filters) facets.

(** *** Listings and selections of the scenarios *)

Definition noFilters : Filters :=
  {| propertyType := Some ""; budget := Some ""; bhk := Some "";
     location := Some ""; possession := Some ""; amenities := Some "" |}.

(** The selection of scenario D: type villa, amenity pool, nothing else. *)
Definition villaWithPool : Filters :=
  {| propertyType := Some "villa"; budget := Some ""; bhk := Some "";
     location := Some ""; possession := Some ""; amenities := Some "pool" |}.

(** A selection with a budget and nothing else. *)
Definition budgetOnly (budget : string) : Filters :=
  {| propertyType := Some ""; budget := Some budget; bhk := Some "";
     location := Some ""; possession := Some ""; amenities := Some "" |}.

Definition listing1 : Card :=
  {| dataPropertyType := Some "Luxury Residence";
     dataPriceRange := Some "10cr";
     dataBhk := Some "4";
     textMuted := Some "Upper East Side, New York";
     dataStatus := Some "ready";
     dataAmenities := Some "" |}.

(** The search form of the listing page before any input: six controls, all
    empty. The budget and amenity controls are [select]s over the codes of the
    script's label tables. *)
Definition blankForm : Form :=
  {| propertyTypeControl := Some (textControl "");
     budgetControl := Some (selectControl ("" :: budgetCodes) "");
     bhkControl := Some (textControl "");
     locationControl := Some (textControl "");
     possessionControl := Some (textControl "");
     amenitiesControl :=
       Some (selectControl [""; "pool"; "gym"; "club"; "security"; "solar"] "") |}.

(** ** Further vocabulary of the script *)

(** The price ranges the [switch] of [checkBudgetMatch] names. *)
Definition priceRanges : list string :=
  ["50l"; "1cr"; "2.5cr"; "5cr"; "10cr"; "on-request"].

(** One line of [applyUrlFilters]: [if (v) document.getElementById(id).value
    = v] for the parameter and the control of a facet. *)
Definition assignLine (params : URLSearchParams.t) (form : Form) (facet : Facet)
    : option (option Control) :=
  ifTruthy (URLSearchParams.get (paramName facet) params)
    (assignValue (control facet form)) (Some (control facet form)).

(** *** The results line under the search form

    The four elements [updateFilterResultsInfo] looks up by id, each [None]
    when the page does not have it: the class list of the results line and of
    the clear button, and the text of the count and of the summary. *)
Record ResultsPanel := {
  resultsInfo : option (gset string);
  resultsCount : option string;
  activeFilters : option string;
  clearFiltersBtn : option (gset string);
}.

(** [classList.remove(token)] and [classList.toggle(token, force)]. *)
Definition classRemove (token : string) (classes : gset string) : gset string :=
  classes ∖ {[token]}.

Definition classToggle (token : string) (force : bool) (classes : gset string)
    : gset string :=
  if force then classes ∪ {[token]} else classes ∖ {[token]}.

(** [updateFilterResultsInfo(visibleCount)], with the filter values its two
    helpers read from the form. *)
Definition updateFilterResultsInfo `{Engine} (visibleCount : nat) (controls : Filters)
    (panel : ResultsPanel) : ResultsPanel :=
  match resultsInfo panel, resultsCount panel with
  | Some info, Some _ =>
      let count := JS.decimal (Z.of_nat visibleCount) in
      let info := classRemove "d-none" info in
      let button :=
        match clearFiltersBtn panel with
        | Some classes =>
            let hasActiveFilters := hasFiltersApplied controls in
            Some (classToggle "d-none" (negb hasActiveFilters) classes)
        | None => None
        end in
      let summary :=
        match activeFilters panel with
        | Some _ =>
            let filters := getActiveFilters controls in
            if (0 <? length filters)%nat
            then Some ("(" ++ JS.join ", " filters ++ ")")
            else Some ""
        | None => None
        end in
      {| resultsInfo := Some info; resultsCount := Some count;
         activeFilters := summary; clearFiltersBtn := button |}
  | _, _ => panel
  end.

(** [filterProperties()] to its end: the loop over the cards, then the
    results line. *)
Definition filterPropertiesAndReport `{Engine} (filters : Filters)
    (propertyCards : list Card) (panel : ResultsPanel)
    : list (Card * string) * ResultsPanel :=
  let '(displayed, visibleCount) := filterProperties filters propertyCards in
  (displayed, updateFilterResultsInfo visibleCount filters panel).

(** A results line as the listing page starts with: hidden, with a hidden
    clear button. *)
Definition hiddenPanel : ResultsPanel :=
  {| resultsInfo := Some {["d-none"]};
     resultsCount := Some "0";
     activeFilters := Some "";
     clearFiltersBtn := Some ({["btn"]} ∪ {["d-none"]}) |}.

(** *** The inputs of the search form

    [clearAllFilters] walks over the inputs and selects of the search form.
    An element of that list is a single [select] (type ["select-one"]), with
    the values of its options and its selected index ([None] for -1), or any
    other input, with what it stores. The six controls the filter reads by
    id are taken to be among these inputs: that is where
    [setupPropertyFiltering] listens for their changes. *)
Inductive FormInput : Type :=
| SelectOne (elementId : string) (options : list string) (selectedIndex : option nat)
| OtherInput (elementId : string) (c : Control).

Definition inputId (input : FormInput) : string :=
  match input with
  | SelectOne elementId _ _ => elementId
  | OtherInput elementId _ => elementId
  end.

(** [input.value]: for a select the value of the selected option, [""] when
    none is selected. *)
Definition inputValue (input : FormInput) : string :=
  match input with
  | SelectOne _ options (Some index) => nth index options ""
  | SelectOne _ _ None => ""
  | OtherInput _ c => value c
  end.

(** [document.getElementById(id)?.value] among the inputs of the form. *)
Definition elementValue (inputs : list FormInput) (elementId : string) : option string :=
  inputValue <$> List.find (fun input => String.eqb (inputId input) elementId) inputs.

Definition formFilters (inputs : list FormInput) : Filters :=
  {| propertyType := elementValue inputs "propertyType";
     budget := elementValue inputs "budget";
     bhk := elementValue inputs "bhk";
     location := elementValue inputs "location";
     possession := elementValue inputs "possession";
     amenities := elementValue inputs "amenities" |}.

(** The body of the loop of [clearAllFilters]: [selectedIndex = 0] on a
    single select (which selects nothing when there is no option), [value =
    ""] on anything else. *)
Definition clearInput (input : FormInput) : FormInput :=
  match input with
  | SelectOne elementId options _ =>
      SelectOne elementId options
        (match options with
         | [] => None
         | _ :: _ => Some 0%nat
         end)
  | OtherInput elementId c => OtherInput elementId (setValue "" c)
  end.

(** [clearAllFilters()]: the inputs after the reset, and the outcome of the
    [filterProperties] call it ends with. *)
Definition clearAllFilters `{Engine} (inputs : list FormInput) (propertyCards : list Card)
    : list FormInput * (list (Card * string) * nat) :=
  let inputs := clearInput <$> inputs in
  (inputs, filterProperties (formFilters inputs) propertyCards).

(** An input that is empty once reset: a select whose first option is the
    empty placeholder (or that has no option), another input that stores the
    empty string as it is. *)
Definition resetsToEmpty (input : FormInput) : Prop :=
  match input with
  | SelectOne _ options _ => hd "" options = ""
  | OtherInput _ c => stores c "" = ""
  end.

(** A search form with a budget select that starts with a placeholder and a
    location box, both filled in. *)
Definition filledInputs : list FormInput :=
  [ SelectOne "budget" ("" :: budgetCodes) (Some 2%nat);
    OtherInput "location" (textControl "Miami") ].

(** ** The carousel of hot projects

    [setupHotProjectsCarousel] keeps three variables, [currentIndex],
    [startX] and [isDragging], and changes them in its event handlers. The
    handlers read the width of the container's parent when they run, so every
    event that needs it carries it. Touch coordinates are doubles; they are
    taken as rationals, and the subtraction [startX - endX] of the touch
    handler is left open as [subtract]. *)

Module Carousel.

Definition cardWidth : Z := 320 + 16.

Record State := {
  currentIndex : Z;
  startX : Q;
  isDragging : bool;
}.

(** [getVisibleCards()] and [getMaxIndex()], from the width of the
    container's parent and [cards.length]. *)
Definition getVisibleCards (containerWidth : Z) (cardCount : nat) : Z :=
  let cardWidthWithGap := 320 + 16 in
  let visibleCards := containerWidth / cardWidthWithGap in
  Z.max 1 (Z.min visibleCards (Z.of_nat cardCount)).

Definition getMaxIndex (containerWidth : Z) (cardCount : nat) : Z :=
  let visibleCards := getVisibleCards containerWidth cardCount in
  Z.max 0 (Z.of_nat cardCount - visibleCards).

(** What [updateCarousel()] writes: the transform of the container and the
    opacity and pointer events of the two buttons. *)
Record View := {
  transform : string;
  prevOpacity : string;
  nextOpacity : string;
  prevPointerEvents : string;
  nextPointerEvents : string;
}.

Definition updateCarousel (containerWidth : Z) (cardCount : nat) (s : State) : View :=
  let translateX := - currentIndex s * cardWidth in
  let maxIndex := getMaxIndex containerWidth cardCount in
  {| transform := "translateX(" ++ JS.decimal translateX ++ "px)";
     prevOpacity := if currentIndex s =? 0 then "0.5" else "1";
     nextOpacity := if maxIndex <=? currentIndex s then "0.5" else "1";
     prevPointerEvents := if currentIndex s =? 0 then "none" else "auto";
     nextPointerEvents := if maxIndex <=? currentIndex s then "none" else "auto" |}.

(** The outcome of the set-up: nothing is installed, or the call throws, or
    the carousel starts in a state. *)
Inductive Setup : Type :=
| NotInstalled
| TypeError
| Started (s : State).

(** [setupHotProjectsCarousel()] up to the installation of the handlers,
    from which elements the page has. The cards are looked up in the
    container before the container is tested, so a carousel without its
    container throws. *)
Definition setupHotProjectsCarousel (carousel container prevBtn nextBtn : bool)
    (cardCount : nat) : Setup :=
  if negb carousel then NotInstalled
  else if negb container then TypeError
  else if negb container || negb prevBtn || negb nextBtn || (cardCount =? 0)%nat
       then NotInstalled
       else Started {| currentIndex := 0; startX := 0%Q; isDragging := false |}.

Inductive Event : Type :=
| PrevClick
| NextClick (containerWidth : Z)
| TouchStart (clientX : Q)
| TouchMove
| TouchEnd (containerWidth : Z) (clientX : Q)
| Resize (containerWidth : Z).

Section Handlers.
Variable subtract : Q -> Q -> Q.
Variable cardCount : nat.

Definition onPrevClick (s : State) : State :=
  if 0 <? currentIndex s
  then {| currentIndex := currentIndex s - 1; startX := startX s;
          isDragging := isDragging s |}
  else s.

Definition onNextClick (containerWidth : Z) (s : State) : State :=
  let maxIndex := getMaxIndex containerWidth cardCount in
  if currentIndex s <? maxIndex
  then {| currentIndex := currentIndex s + 1; startX := startX s;
          isDragging := isDragging s |}
  else s.

Definition onTouchStart (clientX : Q) (s : State) : State :=
  {| currentIndex := currentIndex s; startX := clientX; isDragging := true |}.

Definition onTouchMove (s : State) : State := s.

Definition onTouchEnd (containerWidth : Z) (clientX : Q) (s : State) : State :=
  if negb (isDragging s) then s
  else
    let endX := clientX in
    let diff := subtract (startX s) endX in
    let maxIndex := getMaxIndex containerWidth cardCount in
    let index :=
      if negb (Qle_bool (Qabs diff) 50) then
        if negb (Qle_bool diff 0) && (currentIndex s <? maxIndex)
        then currentIndex s + 1
        else if negb (Qle_bool 0 diff) && (0 <? currentIndex s)
             then currentIndex s - 1
             else currentIndex s
      else currentIndex s in
    {| currentIndex := index; startX := startX s; isDragging := false |}.

(** The resize handler, when its debounce delay has passed. *)
Definition onResize (containerWidth : Z) (s : State) : State :=
  let newMaxIndex := getMaxIndex containerWidth cardCount in
  if newMaxIndex <? currentIndex s
  then {| currentIndex := newMaxIndex; startX := startX s;
          isDragging := isDragging s |}
  else s.

Definition handle (s : State) (e : Event) : State :=
  match e with
  | PrevClick => onPrevClick s
  | NextClick containerWidth => onNextClick containerWidth s
  | TouchStart clientX => onTouchStart clientX s
  | TouchMove => onTouchMove s
  | TouchEnd containerWidth clientX => onTouchEnd containerWidth clientX s
  | Resize containerWidth => onResize containerWidth s
  end.

(** The state after a sequence of events. *)
Definition run (events : list Event) (s : State) : State :=
  fold_left handle events s.

End Handlers.

(** The width an event reads, if it reads one. *)
Definition widthOf (e : Event) : option Z :=
  match e with
  | NextClick containerWidth | TouchEnd containerWidth _ | Resize containerWidth =>
      Some containerWidth
  | _ => None
  end.

End Carousel.

(** The carousel as it starts, and a session on a page of five cards: a
    click on next, a swipe to the left, a resize to a wider window, a click
    on previous. *)
Definition carouselStart : Carousel.State :=
  {| Carousel.currentIndex := 0; Carousel.startX := 0%Q;
     Carousel.isDragging := false |}.

Definition carouselSession : list Carousel.Event :=
  [ Carousel.NextClick 1000; Carousel.TouchStart (300 # 1);
    Carousel.TouchMove; Carousel.TouchEnd 1000 (100 # 1);
    Carousel.Resize 2000; Carousel.PrevClick ].

(** ** Regular expressions and the validation of the contact forms

    The regular expressions of the script test single UTF-16 code units, so
    for them a string is the list of its code units. The expressions have no
    groups to capture and no look-around, and [test] is called on a fresh
    expression without the global flag: an expression anchored at both ends
    accepts a string exactly when the whole string is in its language. *)

Module Regex.

Inductive regex : Type :=
| Never
| Empty
| Unit (class : N -> bool)
| Seq (r1 r2 : regex)
| Alt (r1 r2 : regex)
| Star (r : regex).

(** [r+] and [r{n}]. *)
Definition Plus (r : regex) : regex := Seq r (Star r).

Fixpoint Times (n : nat) (r : regex) : regex :=
  match n with
  | O => Empty
  | S n => Seq r (Times n r)
  end.

(** The language of an expression. *)
Inductive Matches : regex -> list N -> Prop :=
| MEmpty : Matches Empty []
| MUnit (class : N -> bool) (c : N) : class c = true -> Matches (Unit class) [c]
| MSeq (r1 r2 : regex) (s1 s2 : list N) :
    Matches r1 s1 -> Matches r2 s2 -> Matches (Seq r1 r2) (s1 ++ s2)
| MAltL (r1 r2 : regex) (s : list N) : Matches r1 s -> Matches (Alt r1 r2) s
| MAltR (r1 r2 : regex) (s : list N) : Matches r2 s -> Matches (Alt r1 r2) s
| MStarNil (r : regex) : Matches (Star r) []
| MStarApp (r : regex) (s1 s2 : list N) :
    Matches r s1 -> Matches (Star r) s2 -> Matches (Star r) (s1 ++ s2).

(** Matching by derivatives. *)
Fixpoint nullable (r : regex) : bool :=
  match r with
  | Never => false
  | Empty => true
  | Unit _ => false
  | Seq r1 r2 => nullable r1 && nullable r2
  | Alt r1 r2 => nullable r1 || nullable r2
  | Star _ => true
  end.

Fixpoint derive (c : N) (r : regex) : regex :=
  match r with
  | Never => Never
  | Empty => Never
  | Unit class => if class c then Empty else Never
  | Seq r1 r2 =>
      if nullable r1
      then Alt (Seq (derive c r1) r2) (derive c r2)
      else Seq (derive c r1) r2
  | Alt r1 r2 => Alt (derive c r1) (derive c r2)
  | Star r => Seq (derive c r) (Star r)
  end.

(** [/^r$/.test(s)]. *)
Definition test (r : regex) (s : list N) : bool :=
  nullable (fold_left (fun r c => derive c r) s r).

(** The classes [\s], [\d] and a single character. *)
Definition isSpace (c : N) : bool :=
  (((9 <=? c) && (c <=? 13)) || (c =? 32) || (c =? 160) || (c =? 5760) ||
   ((8192 <=? c) && (c <=? 8202)) || (c =? 8232) || (c =? 8233) ||
   (c =? 8239) || (c =? 8287) || (c =? 12288) || (c =? 65279))%N.

Definition isDigit (c : N) : bool := ((48 <=? c) && (c <=? 57))%N.

Definition isChar (a : ascii) (c : N) : bool := (c =? N_of_ascii a)%N.

End Regex.

Module Validation.
Import Regex.

(** The code units of a string of ASCII characters. *)
Definition unitsOf (s : string) : list N :=
  N_of_ascii <$> list_ascii_of_string s.

(** [[^\s@]]. *)
Definition notSpaceNorAt (c : N) : bool := negb (isSpace c || isChar "@" c).

(** [/^[^\s@]+@[^\s@]+\.[^\s@]+$/]. *)
Definition emailRegex : regex :=
  Seq (Plus (Unit notSpaceNorAt))
    (Seq (Unit (isChar "@"))
       (Seq (Plus (Unit notSpaceNorAt))
          (Seq (Unit (isChar ".")) (Plus (Unit notSpaceNorAt))))).

(** [isValidEmail(email)]. *)
Definition isValidEmail (email : list N) : bool :=
  test emailRegex email.

(** The test of the newsletter form: [email && isValidEmail(email)]. *)
Definition newsletterAccepts (email : list N) : bool :=
  match email with
  | [] => false
  | _ :: _ => isValidEmail email
  end.

(** [/^[6-9]\d{9}$/]. *)
Definition phoneRegex : regex :=
  Seq (Unit (fun c => (54 <=? c) && (c <=? 57))%N) (Times 9 (Unit isDigit)).

(** [String.prototype.trim]. *)
Fixpoint trimStart (s : list N) : list N :=
  match s with
  | [] => []
  | c :: rest => if isSpace c then trimStart rest else s
  end.

Definition trim (s : list N) : list N :=
  rev (trimStart (rev (trimStart s))).

(** [s.replace(/\D/g, "")]: every code unit that is not a digit goes. *)
Definition digitsOf (s : list N) : list N := List.filter isDigit s.

(** [s.slice(-10)]: the last ten code units, or all of them. *)
Definition lastTen (s : list N) : list N := skipn (length s - 10) s.

(** The object [validatePropertyForm] is given: the three fields it looks
    at, each [None] when [undefined]. *)
Record FormData := {
  name : option (list N);
  phone : option (list N);
  email : option (list N);
}.

(** [!data[field] || data[field].trim() === ""]. *)
Definition blank (field : option (list N)) : bool :=
  match field with
  | None => true
  | Some [] => true
  | Some s => match trim s with [] => true | _ :: _ => false end
  end.

(** [validatePropertyForm(data)]. *)
Definition validatePropertyForm (data : FormData) : bool :=
  if existsb blank [name data; phone data; email data] then false
  else
    match email data, phone data with
    | Some email, Some phone =>
        if negb (test emailRegex email) then false
        else if negb (test phoneRegex (lastTen (digitsOf phone))) then false
        else true
    | _, _ => false
    end.

End Validation.

(** ** Notifications

    [showNotification] removes every element of class [notification] from
    the page, appends a new one, and starts a timer of five seconds; when
    that timer fires and the notification is still on the page, a second
    timer of 0.3 seconds is started, which removes it. The page is modelled
    by the notifications it shows and the timers that are pending, each timer
    tied to the notification it was started for.

    The message is assigned through [innerHTML], so it is markup: the parser
    builds elements from it, and those of class [notification] are found by
    [querySelectorAll(".notification")] like the notification around them. *)

Module Notifications.

(** A message without [<] opens no tag. *)
Definition plainText (message : string) : bool :=
  forallb (fun c => negb (Ascii.eqb c "<")) (list_ascii_of_string message).

(** The part of the browser that is left open: the number of elements of
    class [notification] that the HTML parser builds from a message put in
    the template of [showNotification] (the close button of the template is
    not one). Text without [<] gives no element. *)
Class HtmlParser := {
  notificationElements : string -> nat;
  plainText_no_elements :
    forall message, plainText message = true -> notificationElements message = 0%nat;
}.

(** A parser that builds no element of class [notification]: right for
    plain text. *)
Definition textParser : HtmlParser :=
  {| notificationElements := fun _ => 0%nat;
     plainText_no_elements := fun _ _ => eq_refl |}.

(** A notification, with the number of elements of class [notification]
    inside it. *)
Record Notification := {
  noteId : nat;
  className : string;
  message : string;
  inner : nat;
}.

Record Page := {
  notifications : list Notification;
  hideTimers : list nat;
  removeTimers : list nat;
  created : nat;
}.

(** What [document.querySelectorAll(".notification")] finds: each
    notification and the elements of that class inside it. *)
Definition notificationCount (page : Page) : nat :=
  list_sum ((fun n => S (inner n)) <$> notifications page).

(** [showNotification(message, type)]; [type] is [None] when the argument
    is left out. Removing an element takes what is inside it along. *)
Definition showNotification `{HtmlParser} (message : string) (type : option string)
    (page : Page) : Page :=
  let type := match type with Some t => t | None => "info" end in
  let notification :=
    {| noteId := created page;
       className :=
         "notification alert alert-"
         ++ (if String.eqb type "error" then "danger" else type)
         ++ " alert-dismissible position-fixed";
       message := message;
       inner := notificationElements message |} in
  {| notifications := [notification];
     hideTimers := (hideTimers page ++ [created page])%list;
     removeTimers := removeTimers page;
     created := S (created page) |}.

Definition attached (id : nat) (page : Page) : bool :=
  existsb (fun n => Nat.eqb (noteId n) id) (notifications page).

(** The callback of the first timer of notification [id]. *)
Definition hideTimerFires (id : nat) (page : Page) : Page :=
  if existsb (Nat.eqb id) (hideTimers page) then
    {| notifications := notifications page;
       hideTimers := List.filter (fun t => negb (Nat.eqb id t)) (hideTimers page);
       removeTimers :=
         if attached id page then (removeTimers page ++ [id])%list
         else removeTimers page;
       created := created page |}
  else page.

(** The callback of the second timer: [notification.remove()]. *)
Definition removeTimerFires (id : nat) (page : Page) : Page :=
  if existsb (Nat.eqb id) (removeTimers page) then
    {| notifications :=
         List.filter (fun n => negb (Nat.eqb (noteId n) id)) (notifications page);
       hideTimers := hideTimers page;
       removeTimers := List.filter (fun t => negb (Nat.eqb id t)) (removeTimers page);
       created := created page |}
  else page.

Inductive Event : Type :=
| Show (message : string) (type : option string)
| HideTimer (id : nat)
| RemoveTimer (id : nat).

Definition handle `{HtmlParser} (page : Page) (e : Event) : Page :=
  match e with
  | Show message type => showNotification message type page
  | HideTimer id => hideTimerFires id page
  | RemoveTimer id => removeTimerFires id page
  end.

Definition run `{HtmlParser} (events : list Event) (page : Page) : Page :=
  fold_left handle events page.

(** An event that is a timer of a notification other than [id]. *)
Definition timerOfAnother (id : nat) (e : Event) : Prop :=
  match e with
  | Show _ _ => False
  | HideTimer other | RemoveTimer other => other <> id
  end.

(** An event that is no call with markup in the message. *)
Definition plainEvent (e : Event) : Prop :=
  match e with
  | Show message _ => plainText message = true
  | HideTimer _ | RemoveTimer _ => True
  end.

End Notifications.

(** ** The WhatsApp link *)

Module WhatsApp.

(** [encodeURIComponent] on the UTF-8 bytes: letters, digits and
    [- _ . ! ~ * ' ( )] stay, every other byte is written as [%XX]. (A
    string with a lone surrogate has no UTF-8 bytes; the built-in throws a
    [URIError] on it, and such strings are outside this model.) *)
Definition isUnreserved (c : ascii) : bool :=
  let n := N_of_ascii c in
  (((48 <=? n) && (n <=? 57)) || ((65 <=? n) && (n <=? 90)) ||
   ((97 <=? n) && (n <=? 122)) ||
   (n =? 45) || (n =? 95) || (n =? 46) || (n =? 33) || (n =? 126) ||
   (n =? 42) || (n =? 39) || (n =? 40) || (n =? 41))%N.

Definition encodeByte (c : ascii) : string :=
  if isUnreserved c then String c EmptyString
  else
    let n := N_of_ascii c in
    String "%" (String (URLSearchParams.hexDigit (n / 16))
                  (String (URLSearchParams.hexDigit (n mod 16)) EmptyString)).

Fixpoint encodeURIComponent (s : string) : string :=
  match s with
  | EmptyString => EmptyString
  | String c rest => encodeByte c ++ encodeURIComponent rest
  end.

(** [openPropertyWhatsApp(message)]: the address that is opened. The
    parameter defaults to [""], and an empty message is replaced. *)
Definition openPropertyWhatsApp (message : option string) : string :=
  let message := match message with Some m => m | None => "" end in
  let defaultMessage :=
    if JS.nonEmpty message then message
    else "Hi, I'm interested in Dasnac project. Please share more details about the LEED Platinum certified sustainable development." in
  let phoneNumber := "919876543210" in
  "https://wa.me/" ++ phoneNumber ++ "?text=" ++ encodeURIComponent defaultMessage.

End WhatsApp.

(** * Properties *)

#[local] Arguments String.append : simpl nomatch.

(** ** Facts about the built-ins *)

Module JSFacts.
Import JS.

Lemma nonEmpty_true (s : string) : nonEmpty s = true <-> s <> "".
Proof. destruct s; simpl; split; congruence. Qed.

Lemma nonEmpty_false (s : string) : nonEmpty s = false <-> s = "".
Proof. destruct s; simpl; split; congruence. Qed.

Lemma truthy_false (v : option string) :
  truthy v = false <-> v = None \/ v = Some "".
Proof.
  destruct v as [s|]; simpl.
  - rewrite nonEmpty_false. split; [intros ->; now right|].
    intros [?|?]; congruence.
  - split; auto.
Qed.

Lemma ifTruthy_truthy {A : Type} (s : string) (k : string -> A) (d : A) :
  s <> "" -> ifTruthy (Some s) k d = k s.
Proof. intros Hs. simpl. apply nonEmpty_true in Hs. now rewrite Hs. Qed.

Lemma ifTruthy_falsy {A : Type} (v : option string) (k : string -> A) (d : A) :
  truthy v = false -> ifTruthy v k d = d.
Proof. destruct v as [s|]; simpl; [intros ->|]; reflexivity. Qed.

Lemma append_nil_r (s : string) : s ++ "" = s.
Proof. induction s as [|c s IH]; simpl; [reflexivity | now rewrite IH]. Qed.

Lemma append_assoc (s t u : string) : (s ++ t) ++ u = s ++ t ++ u.
Proof. induction s as [|c s IH]; simpl; [reflexivity | now rewrite IH]. Qed.

Lemma arrayIncludes_In (l : list string) (x : string) :
  arrayIncludes l x = true <-> In x l.
Proof.
  unfold arrayIncludes. rewrite existsb_exists. split.
  - intros (y & Hy & Heq). apply String.eqb_eq in Heq. now subst.
  - intros Hx. exists x. split; [assumption | apply String.eqb_refl].
Qed.

Lemma prefix_app (t s : string) :
  String.prefix t s = true <-> exists post, s = t ++ post.
Proof.
  revert s. induction t as [|c t IH]; intros s.
  - split; [intros _; now exists s | now destruct s].
  - destruct s as [|d s]; simpl.
    + split; [discriminate | intros (post & Hpost); discriminate].
    + destruct (ascii_dec c d) as [->|Hne].
      * rewrite IH. split; intros (post & Hpost); exists post.
        -- now subst.
        -- now injection Hpost.
      * split; [discriminate|]. intros (post & Hpost). simpl in Hpost. congruence.
Qed.

(** [includes] is the substring relation. *)
Lemma includes_substring (s t : string) :
  includes s t = true <-> exists pre post, s = pre ++ t ++ post.
Proof.
  induction s as [|c s IH].
  - change (includes "" t) with (String.prefix t "" || false).
    rewrite orb_false_r, prefix_app. split.
    + intros (post & Hpost). now exists "", post.
    + intros (pre & post & Heq). destruct pre; [now exists post|discriminate].
  - change (includes (String c s) t)
      with (String.prefix t (String c s) || includes s t).
    rewrite orb_true_iff, IH, prefix_app. split.
    + intros [(post & Hpost) | (pre & post & Heq)].
      * now exists "", post.
      * exists (String c pre), post. simpl. now f_equal.
    + intros (pre & post & Heq). destruct pre as [|d pre].
      * left. now exists post.
      * right. exists pre, post. simpl in Heq. now injection Heq.
Qed.

Lemma split_nonempty (sep : ascii) (s : string) : split sep s <> [].
Proof.
  destruct s as [|c s]; simpl; [discriminate|].
  destruct (Ascii.eqb c sep); [discriminate|].
  destruct (split sep s); discriminate.
Qed.

(** A string without the separator is a single piece. *)
Lemma split_single (sep : ascii) (s : string) :
  ~ In sep (list_ascii_of_string s) -> split sep s = [s].
Proof.
  induction s as [|c s IH]; simpl; intros Hno; [reflexivity|].
  destruct (Ascii.eqb_spec c sep) as [->|Hne]; [tauto|].
  rewrite IH by tauto. reflexivity.
Qed.

Lemma split_app (sep : ascii) (s rest : string) :
  ~ In sep (list_ascii_of_string s) ->
  split sep (s ++ String sep rest) = s :: split sep rest.
Proof.
  induction s as [|c s IH]; simpl; intros Hno.
  - now rewrite Ascii.eqb_refl.
  - destruct (Ascii.eqb_spec c sep) as [->|Hne]; [tauto|].
    rewrite IH by tauto. reflexivity.
Qed.

(** Splitting undoes joining when no piece holds the separator. *)
Lemma split_join (sep : ascii) (l : list string) :
  l <> [] ->
  (forall piece, In piece l -> ~ In sep (list_ascii_of_string piece)) ->
  split sep (join (String sep "") l) = l.
Proof.
  induction l as [|x l IH]; intros Hne Hno; [congruence|].
  destruct l as [|y l].
  - simpl. apply split_single, Hno. now left.
  - change (join (String sep "") (x :: y :: l))
      with (x ++ String sep (join (String sep "") (y :: l))).
    rewrite split_app by (apply Hno; now left).
    rewrite IH; [reflexivity | discriminate |].
    intros piece Hin. apply Hno. now right.
Qed.

End JSFacts.

(** ** The loop of [filterProperties] *)

Section Filtering.
Context `{Engine}.
Import JS JSFacts.

(** Every block of the loop body has one shape: nothing happens unless the
    filter value and the listing's value are both truthy, and then the flag
    is cleared when the facet's test fails. *)
Lemma block_shape (v cv : option string) (test : string -> string -> bool) (b : bool) :
  ifTruthy v (fun v =>
    if b then
      ifTruthy cv (fun cv => if negb (test v cv) then false else b) b
    else b) b
  = b && (negb (truthy v) || negb (truthy cv) ||
          match v, cv with
          | Some v, Some cv => test v cv
          | _, _ => false
          end).
Proof.
  destruct v as [v|], cv as [cv|], b; simpl; try reflexivity;
    destruct (nonEmpty v); simpl; try reflexivity;
    try (destruct (nonEmpty cv); simpl; try reflexivity);
    destruct (test v cv); reflexivity.
Qed.

Lemma filterBy_shape (facet : Facet) (filters : Filters) (card : Card) (b : bool) :
  filterBy facet filters card b
  = b && (negb (truthy (blockValues facet filters card).1) ||
          negb (truthy (blockValues facet filters card).2) ||
          match blockValues facet filters card with
          | (Some v, Some cv) => facetTest facet v cv
          | _ => false
          end).
Proof.
  destruct facet; simpl;
    [ apply (block_shape _ _ (fun v cv => includes cv v))
    | apply (block_shape _ _ checkBudgetMatch)
    | apply (block_shape _ _ (fun v cv => checkBhkMatch v (Some cv)))
    | apply (block_shape _ _ (fun v cv => includes cv v))
    | apply (block_shape _ _ (fun v cv => String.eqb cv v))
    | apply (block_shape _ _ (fun v cv => checkAmenitiesMatch v (Some cv))) ].
Qed.

(** The values a block looks at are the facet's own two values. *)
Lemma blockValues_ext (facet : Facet) (filters filters' : Filters) (card card' : Card) :
  selected facet filters = selected facet filters' ->
  listed facet card = listed facet card' ->
  blockValues facet filters card = blockValues facet filters' card'.
Proof. destruct facet; simpl; intros -> ->; reflexivity. Qed.

(** A block only ever clears the flag, and by its own predicate. *)
Lemma filterBy_and (facet : Facet) (filters : Filters) (card : Card) (b : bool) :
  filterBy facet filters card b = b && matchesFacet filters card facet.
Proof.
  unfold matchesFacet. rewrite (filterBy_shape facet filters card b).
  rewrite (filterBy_shape facet filters card true). reflexivity.
Qed.

Lemma runBlocks_from (order : list Facet) (filters : Filters) (card : Card) (b : bool) :
  fold_left (fun showProperty facet => filterBy facet filters card showProperty) order b
  = b && forallb (matchesFacet filters card) order.
Proof.
  revert b. induction order as [|facet order IH]; intros b; simpl.
  - now rewrite andb_true_r.
  - rewrite IH, filterBy_and. now rewrite andb_assoc.
Qed.

Lemma runBlocks_forallb (order : list Facet) (filters : Filters) (card : Card) :
  runBlocks order filters card = forallb (matchesFacet filters card) order.
Proof. unfold runBlocks. now rewrite runBlocks_from. Qed.

Lemma showProperty_runBlocks (filters : Filters) (card : Card) :
  showProperty filters card = runBlocks facets filters card.
Proof. reflexivity. Qed.


(** The loop written out: each card is paired with its display value, and
    the count is the number of cards shown. *)
Lemma filterProperties_loop (filters : Filters) (cards : list Card)
    (displayed : list (Card * string)) (visibleCount : nat) :
  fold_left
    (fun '(displayed, visibleCount) card =>
       let show := showProperty filters card in
       ((displayed ++ [(card, if show then "block" else "none")])%list,
        if show then S visibleCount else visibleCount))
    cards (displayed, visibleCount)
  = ((displayed ++
      map (fun card => (card, if showProperty filters card then "block" else "none")) cards)%list,
     (visibleCount + length (List.filter (showProperty filters) cards))%nat).
Proof.
  revert displayed visibleCount.
  induction cards as [|card cards IH]; intros displayed visibleCount; simpl.
  - now rewrite app_nil_r, Nat.add_0_r.
  - rewrite IH, <- app_assoc. simpl.
    destruct (showProperty filters card); simpl; f_equal; lia.
Qed.

Lemma filterProperties_map (filters : Filters) (cards : list Card) :
  filterProperties filters cards
  = (map (fun card => (card, if showProperty filters card then "block" else "none")) cards,
     length (List.filter (showProperty filters) cards)).
Proof. unfold filterProperties. now rewrite filterProperties_loop. Qed.

Lemma visibleCards_filter (filters : Filters) (cards : list Card) :
  visibleCards (filterProperties filters cards).1
  = List.filter (showProperty filters) cards.
Proof.
  rewrite filterProperties_map. unfold visibleCards. simpl.
  induction cards as [|card cards IH]; simpl; [reflexivity|].
  destruct (showProperty filters card); simpl; now rewrite <- IH.
Qed.


End Filtering.

(** ** Facets that do not constrain *)

Section Unconstrained.
Context `{Engine}.
Import JS JSFacts.

Lemma truthy_toLowerCase (v : option string) :
  truthy v = false -> truthy (toLowerCase <$> v) = false.
Proof.
  intros [-> | ->]%truthy_false; simpl; [reflexivity|].
  now rewrite toLowerCase_empty.
Qed.

Lemma blockValues_selected (facet : Facet) (filters : Filters) (card : Card) :
  truthy (selected facet filters) = false ->
  truthy (blockValues facet filters card).1 = false.
Proof. destruct facet; simpl; auto using truthy_toLowerCase. Qed.

Lemma blockValues_listed (facet : Facet) (filters : Filters) (card : Card) :
  truthy (listed facet card) = false ->
  truthy (blockValues facet filters card).2 = false.
Proof. destruct facet; simpl; auto using truthy_toLowerCase. Qed.

(** [hasFiltersApplied] is false exactly for the empty selection. *)
Lemma hasFiltersApplied_false (filters : Filters) :
  hasFiltersApplied filters = false
  <-> forall facet, truthy (selected facet filters) = false.
Proof.
  unfold hasFiltersApplied. rewrite !orb_false_iff. split.
  - intros (((((H1 & H2) & H3) & H4) & H5) & H6) []; assumption.
  - intros Hall. repeat split;
      [ apply (Hall PropertyType) | apply (Hall Budget) | apply (Hall Bhk)
      | apply (Hall Location) | apply (Hall Possession) | apply (Hall Amenities) ].
Qed.

(** A facet with no selected value matches every listing. *)
Lemma matchesFacet_unselected (facet : Facet) (filters : Filters) (card : Card) :
  truthy (selected facet filters) = false ->
  matchesFacet filters card facet = true.
Proof.
  intros Hsel. unfold matchesFacet. rewrite filterBy_shape.
  now rewrite (blockValues_selected _ _ card Hsel).
Qed.

(** C7. With the empty selection (each of the six filter values missing or
    the empty string) [filterProperties] shows every card: the visible
    cards are the whole grid in its order, and the count is its length. *)
Theorem empty_selection_shows_all (filters : Filters) (cards : list Card) :
  (forall facet, truthy (selected facet filters) = false) ->
  filterProperties filters cards
    = (map (fun card => (card, "block")) cards, length cards)
  /\ visibleCards (filterProperties filters cards).1 = cards.
Proof.
  intros Hempty.
  assert (Hshow : forall card, showProperty filters card = true).
  { intros card. rewrite showProperty_runBlocks, runBlocks_forallb.
    apply forallb_forall. intros facet _.
    apply matchesFacet_unselected, Hempty. }
  assert (Hall : List.filter (showProperty filters) cards = cards).
  { induction cards as [|card cards IH]; simpl; [reflexivity|].
    now rewrite Hshow, IH. }
  split.
  - rewrite filterProperties_map, Hall. f_equal.
    apply map_ext. intros card. now rewrite Hshow.
  - now rewrite visibleCards_filter.
Qed.

(** C4, as the code has it. When the listing's value for a facet is
    missing or the empty string, that facet's predicate holds whatever
    value is selected: the block is skipped. For the two facets with a
    helper function the helper says the same on its own. *)
Theorem missing_listing_value_matches (facet : Facet) (filters : Filters)
    (card : Card) (selectedValue : string) :
  truthy (listed facet card) = false ->
  matchesFacet filters card facet = true
  /\ (facet = Amenities ->
      checkAmenitiesMatch selectedValue (listed facet card) = true)
  /\ (facet = Bhk ->
      checkBhkMatch selectedValue (listed facet card) = true).
Proof.
  intros Hmissing. split; [|split].
  - unfold matchesFacet. rewrite filterBy_shape.
    rewrite (blockValues_listed _ filters _ Hmissing).
    now rewrite orb_true_r.
  - intros _. unfold checkAmenitiesMatch. now apply ifTruthy_falsy.
  - intros _. unfold checkBhkMatch. now apply ifTruthy_falsy.
Qed.

End Unconstrained.

(** C7 at a grid of two cards with no filter set. *)
Lemma empty_selection_shows_all_witness :
  (forall facet, JS.truthy (selected facet noFilters) = false)
  /\ visibleCards (filterProperties noFilters [listing1; listing1]).1
     = [listing1; listing1].
Proof.
  assert (Hempty : forall facet, JS.truthy (selected facet noFilters) = false)
    by (intros []; reflexivity).
  split; [exact Hempty|].
  exact (proj2 (empty_selection_shows_all noFilters [listing1; listing1] Hempty)).
Defined.

(** C4 at the first listing, whose amenity attribute is empty, with the pool
    amenity selected. *)
Lemma missing_listing_value_matches_witness :
  JS.truthy (listed Amenities listing1) = false
  /\ checkAmenitiesMatch "pool" (dataAmenities listing1) = true.
Proof.
  split; [reflexivity|].
  exact (proj1 (proj2 (missing_listing_value_matches
                         Amenities noFilters listing1 "pool" eq_refl)) eq_refl).
Defined.

(** C4 as stated fails: with the pool amenity selected and an empty (or
    missing) amenity attribute, [checkAmenitiesMatch] answers true, and the
    card stays visible. *)
Lemma empty_amenities_counterexample :
  checkAmenitiesMatch "pool" (Some "") = true
  /\ checkAmenitiesMatch "pool" None = true
  /\ ~ (forall amenity : string,
          amenity <> "" -> checkAmenitiesMatch amenity (Some "") = false).
Proof.
  split; [reflexivity|]. split; [reflexivity|].
  intros Hclaim.
  assert (Hfalse : checkAmenitiesMatch "pool" (Some "") = false)
    by (apply Hclaim; discriminate).
  discriminate Hfalse.
Qed.

(** ** The budget facet *)

Section BudgetFacet.
Import JS JSFacts.

Lemma eqb_false_of_neq (a b : string) : a <> b -> String.eqb a b = false.
Proof. intros Hne. now apply String.eqb_neq. Qed.

(** C2, as the code has it. A selected budget that is none of the five
    codes of the [switch], empty or not, falls to the [default] branch:
    [checkBudgetMatch] answers true for every price range, so the budget
    block hides no card. *)
Theorem unknown_budget_matches_all (budget priceRange : string) (card : Card) :
  ~ In budget budgetCodes ->
  checkBudgetMatch budget priceRange = true
  /\ filterByBudget (Some budget) card true = true.
Proof.
  intros Hunknown.
  assert (Hdefault : forall p, checkBudgetMatch budget p = true).
  { intros p. unfold checkBudgetMatch.
    rewrite !eqb_false_of_neq; [reflexivity|..];
      intros ->; apply Hunknown; simpl; tauto. }
  split; [apply Hdefault|].
  unfold filterByBudget.
  rewrite (block_shape (Some budget) (dataPriceRange card) checkBudgetMatch true).
  destruct (dataPriceRange card) as [p|]; simpl.
  - rewrite Hdefault. now rewrite !orb_true_r.
  - now rewrite orb_true_r.
Qed.

(** C6. With the budget ["1000+"] selected, [checkBudgetMatch] holds for
    the price ranges ["10cr"] and ["on-request"] and for no other, and so
    does the budget block of the loop for every card that has a price range;
    and filtering the single listing of scenario A, whose price range is
    ["10cr"], by that budget alone leaves it visible, with a count of 1. *)
Theorem budget_1000_plus `{Engine} :
  (forall priceRange,
      checkBudgetMatch "1000+" priceRange = true
      <-> priceRange = "10cr" \/ priceRange = "on-request")
  /\ (forall card priceRange,
        dataPriceRange card = Some priceRange -> priceRange <> "" ->
        (filterByBudget (Some "1000+") card true = true
         <-> priceRange = "10cr" \/ priceRange = "on-request"))
  /\ (let filters :=
        {| propertyType := None; budget := Some "1000+"; bhk := None;
           location := None; possession := None; amenities := None |} in
      filterProperties filters [listing1] = ([(listing1, "block")], 1%nat)
      /\ visibleCards (filterProperties filters [listing1]).1 = [listing1]).
Proof.
  assert (Hcheck : forall priceRange,
             checkBudgetMatch "1000+" priceRange = true
             <-> priceRange = "10cr" \/ priceRange = "on-request").
  { intros priceRange. unfold checkBudgetMatch. simpl.
    rewrite orb_true_iff, !String.eqb_eq. tauto. }
  split; [exact Hcheck|]. split.
  - intros card priceRange Hcard Hprice. unfold filterByBudget.
    rewrite (block_shape (Some "1000+") (dataPriceRange card) checkBudgetMatch true).
    rewrite Hcard. cbn [truthy nonEmpty].
    apply nonEmpty_true in Hprice. rewrite Hprice.
    cbn [negb orb andb]. apply Hcheck.
  - split; reflexivity.
Qed.

End BudgetFacet.

(** C2 at an unknown budget code. *)
Lemma unknown_budget_matches_all_witness :
  ~ In "2000" budgetCodes
  /\ checkBudgetMatch "2000" "50l" = true
  /\ filterByBudget (Some "2000") listing1 true = true.
Proof.
  assert (Hunknown : ~ In "2000" budgetCodes).
  { simpl. intros [H|[H|[H|[H|[H|[]]]]]]; discriminate H. }
  split; [exact Hunknown|].
  exact (unknown_budget_matches_all "2000" "50l" listing1 Hunknown).
Defined.

(** C2 as stated fails: the budget ["2000"] is not empty and is none of the
    five codes, and it matches a listing of price range ["50l"]. *)
Lemma unknown_budget_counterexample :
  checkBudgetMatch "2000" "50l" = true
  /\ ~ (forall budget priceRange : string,
          budget <> "" -> ~ In budget budgetCodes ->
          checkBudgetMatch budget priceRange = false).
Proof.
  split; [reflexivity|].
  intros Hclaim.
  assert (Hfalse : checkBudgetMatch "2000" "50l" = false).
  { apply Hclaim; [discriminate|].
    simpl. intros [H|[H|[H|[H|[H|[]]]]]]; discriminate H. }
  discriminate Hfalse.
Qed.

(** ** The property-type facet *)

Section PropertyTypeFacet.
Import JS JSFacts.

(** A piece of a joined list occurs in the joined string. *)
Lemma join_substring (sep : string) (pieces : list string) (piece : string) :
  In piece pieces ->
  exists pre post, join sep pieces = pre ++ piece ++ post.
Proof.
  induction pieces as [|x pieces IH]; intros Hin; [destruct Hin|].
  destruct pieces as [|y pieces].
  - destruct Hin as [->|[]]. exists "", "". simpl.
    now rewrite append_nil_r.
  - change (join sep (x :: y :: pieces))
      with (x ++ sep ++ join sep (y :: pieces)).
    destruct Hin as [->|Hin].
    + now exists "", (sep ++ join sep (y :: pieces)).
    + destruct (IH Hin) as (pre & post & Heq). rewrite Heq.
      exists (x ++ sep ++ pre), post.
      now rewrite !append_assoc.
Qed.

(** C9, as the code has it. The property-type block tests whether the
    selected value occurs somewhere in the card's [data-property-type]
    string: its predicate holds exactly when no value is selected, or the
    card has no (or an empty) attribute, or the selected value is a
    substring of the attribute. Every tag of an attribute that lists tags
    with a separator is such a substring. *)
Theorem propertyType_substring_match (v : option string) (card : Card) :
  (filterByPropertyType v card true = true
   <-> truthy v = false
       \/ truthy (dataPropertyType card) = false
       \/ exists s attribute pre post,
            v = Some s /\ dataPropertyType card = Some attribute
            /\ attribute = pre ++ s ++ post)
  /\ (forall s sep tags,
        v = Some s -> dataPropertyType card = Some (join sep tags) ->
        In s tags -> filterByPropertyType v card true = true).
Proof.
  assert (Hiff : filterByPropertyType v card true = true
            <-> truthy v = false
                \/ truthy (dataPropertyType card) = false
                \/ exists s attribute pre post,
                     v = Some s /\ dataPropertyType card = Some attribute
                     /\ attribute = pre ++ s ++ post).
  { unfold filterByPropertyType.
    rewrite (block_shape v (dataPropertyType card) (fun v cv => includes cv v) true).
    simpl. rewrite !orb_true_iff, !negb_true_iff.
    destruct v as [s|], (dataPropertyType card) as [attribute|]; simpl.
    - rewrite includes_substring. split.
      + intros [[Hv|Hc]|(pre & post & Heq)]; [tauto|tauto|].
        right; right. now exists s, attribute, pre, post.
      + intros [Hv|[Hc|(s' & a' & pre & post & Hs & Ha & Heq)]]; [tauto|tauto|].
        right. injection Hs as <-. injection Ha as <-. now exists pre, post.
    - split; [tauto|]. intros _. tauto.
    - split; [tauto|]. intros _. tauto.
    - split; [tauto|]. intros _. tauto. }
  split; [exact Hiff|].
  intros s sep tags Hv Hattr Hin. apply Hiff. right; right.
  destruct (join_substring sep tags s Hin) as (pre & post & Heq).
  now exists s, (join sep tags), pre, post.
Qed.

End PropertyTypeFacet.

(** C9 as stated fails: a card tagged with the one type ["villa"] passes
    the filter value ["vil"], which is not one of its tags. *)
Lemma propertyType_membership_counterexample :
  let tags := ["villa"] in
  let card :=
    {| dataPropertyType := Some (JS.join "," tags); dataPriceRange := None;
       dataBhk := None; textMuted := None; dataStatus := None;
       dataAmenities := None |} in
  filterByPropertyType (Some "vil") card true = true /\ ~ In "vil" tags.
Proof.
  split; [reflexivity|].
  simpl. intros [H|[]]. discriminate H.
Qed.

(** ** Numbers written in decimal and [parseInt] *)

Module ParseIntFacts.
Import JS JSFacts.

Lemma uint_digits (d : Decimal.uint) (c : ascii) :
  In c (list_ascii_of_string (NilEmpty.string_of_uint d)) -> isDecimalDigit c.
Proof.
  unfold isDecimalDigit.
  induction d as [|d IH|d IH|d IH|d IH|d IH|d IH|d IH|d IH|d IH|d IH];
    simpl; intros Hin; [tauto|..];
    (destruct Hin as [<-|Hin]; [simpl; tauto | exact (IH Hin)]).
Qed.

Lemma to_uint_nonnil (n : nat) : Nat.to_uint n <> Decimal.Nil.
Proof.
  rewrite <- (DecimalNat.Unsigned.of_to n) at 1.
  rewrite DecimalNat.Unsigned.to_of. apply DecimalFacts.unorm_nonnil.
Qed.

Lemma decimal_no_comma (n : Z) :
  ~ In ","%char (list_ascii_of_string (decimal n)).
Proof.
  unfold decimal. destruct (n <? 0); simpl.
  - intros [Hc|Hin]; [discriminate Hc|].
    apply uint_digits in Hin. unfold isDecimalDigit in Hin. simpl in Hin.
    repeat (destruct Hin as [Hin|Hin]; [discriminate Hin|]). exact Hin.
  - intros Hin.
    apply uint_digits in Hin. unfold isDecimalDigit in Hin. simpl in Hin.
    repeat (destruct Hin as [Hin|Hin]; [discriminate Hin|]). exact Hin.
Qed.

(** Reading the digits of a decimal numeral gives its value. *)
Lemma readDigits_uint_acc (d : Decimal.uint) (a : nat) :
  readDigits 10 (NilEmpty.string_of_uint d) (Some (Z.of_nat a))
  = Some (Z.of_nat (Nat.of_uint_acc d a)).
Proof.
  revert a.
  induction d as [|d IH|d IH|d IH|d IH|d IH|d IH|d IH|d IH|d IH|d IH];
    intros a; [reflexivity|..];
    cbn [NilEmpty.string_of_uint readDigits default Nat.of_uint_acc];
    change (digitValue _) with (Some 0) || change (digitValue _) with (Some 1)
    || change (digitValue _) with (Some 2) || change (digitValue _) with (Some 3)
    || change (digitValue _) with (Some 4) || change (digitValue _) with (Some 5)
    || change (digitValue _) with (Some 6) || change (digitValue _) with (Some 7)
    || change (digitValue _) with (Some 8) || change (digitValue _) with (Some 9);
    cbv iota beta;
    match goal with
    | |- context [?k <? 10] => change (k <? 10) with true
    end;
    cbv iota; rewrite <- IH; do 2 f_equal;
    rewrite Nat.tail_mul_spec; unfold id; lia.
Qed.

Lemma readDigits_uint (d : Decimal.uint) :
  d <> Decimal.Nil ->
  readDigits 10 (NilEmpty.string_of_uint d) None = Some (Z.of_nat (Nat.of_uint d)).
Proof.
  intros Hd. unfold Nat.of_uint.
  rewrite <- (readDigits_uint_acc d 0).
  destruct d; [congruence|..]; reflexivity.
Qed.

(** A numeral starts with no white space, no sign and no [0x]. *)
Lemma trimStart_uint (d : Decimal.uint) :
  trimStart (NilEmpty.string_of_uint d) = NilEmpty.string_of_uint d.
Proof.
  destruct d as [|d|d|d|d|d|d|d|d|d|d]; [reflexivity|..];
    cbn [NilEmpty.string_of_uint]; destruct (NilEmpty.string_of_uint d) as [|b [|c r]];
    reflexivity.
Qed.

Lemma stripSign_uint (d : Decimal.uint) :
  stripSign (NilEmpty.string_of_uint d) = (1, NilEmpty.string_of_uint d).
Proof. destruct d; reflexivity. Qed.

Lemma stripRadixPrefix_uint (d : Decimal.uint) :
  stripRadixPrefix (NilEmpty.string_of_uint d) = (10, NilEmpty.string_of_uint d).
Proof. destruct d as [|d|d|d|d|d|d|d|d|d|d]; try reflexivity. destruct d; reflexivity. Qed.

Lemma parseInt_uint (d : Decimal.uint) :
  d <> Decimal.Nil ->
  parseInt (NilEmpty.string_of_uint d) = Some (Z.of_nat (Nat.of_uint d)).
Proof.
  intros Hd. unfold parseInt.
  rewrite trimStart_uint, stripSign_uint, stripRadixPrefix_uint, readDigits_uint by assumption.
  f_equal; lia.
Qed.

Lemma parseInt_minus_uint (d : Decimal.uint) :
  d <> Decimal.Nil ->
  parseInt (String "-" (NilEmpty.string_of_uint d)) = Some (- Z.of_nat (Nat.of_uint d)).
Proof.
  intros Hd. unfold parseInt.
  assert (Htrim : trimStart (String "-" (NilEmpty.string_of_uint d))
                  = String "-" (NilEmpty.string_of_uint d)).
  { destruct (NilEmpty.string_of_uint d) as [|b [|c r]]; reflexivity. }
  rewrite Htrim. change (stripSign (String "-" ?r)) with (-1, r).
  cbv iota beta.
  rewrite stripRadixPrefix_uint, readDigits_uint by assumption.
  f_equal; lia.
Qed.

(** [parseInt] reads back an integer written in decimal. *)
Lemma parseInt_decimal (n : Z) : parseInt (decimal n) = Some n.
Proof.
  unfold decimal. destruct (Z.ltb_spec n 0) as [Hneg|Hpos].
  - change ("-" ++ ?s) with (String "-" s).
    rewrite parseInt_minus_uint by apply to_uint_nonnil.
    rewrite DecimalNat.Unsigned.of_to. f_equal; lia.
  - rewrite parseInt_uint by apply to_uint_nonnil.
    rewrite DecimalNat.Unsigned.of_to. f_equal; lia.
Qed.

End ParseIntFacts.

(** ** The bedrooms facet *)

Section BedroomsFacet.
Import JS JSFacts ParseIntFacts.

Lemma decimal_nonEmpty (n : Z) : nonEmpty (decimal n) = true.
Proof.
  unfold decimal. destruct (n <? 0); [reflexivity|].
  pose proof (to_uint_nonnil (Z.to_nat n)) as Hnil.
  destruct (Nat.to_uint (Z.to_nat n)); [congruence|..]; reflexivity.
Qed.

Lemma bhkAttribute_nonEmpty (options : list Z) :
  options <> [] -> bhkAttribute options <> "".
Proof.
  destruct options as [|n options]; [congruence|]. intros _.
  unfold bhkAttribute, join. rewrite fmap_cons.
  pose proof (decimal_nonEmpty n) as Hn.
  destruct (decimal n) as [|c s]; [discriminate Hn|].
  destruct (decimal <$> options); discriminate.
Qed.

(** The options [checkBhkMatch] splits the attribute into are the bedroom
    counts in decimal. *)
Lemma split_bhkAttribute (options : list Z) :
  options <> [] -> split "," (bhkAttribute options) = decimal <$> options.
Proof.
  intros Hne. unfold bhkAttribute. apply split_join.
  - destruct options; [congruence | discriminate].
  - intros piece Hin. apply in_map_iff in Hin as (n & <- & _).
    apply decimal_no_comma.
Qed.

(** What [checkBhkMatch] computes once the attribute is known not to be
    empty. *)
Lemma checkBhkMatch_options (bhk attribute : string) :
  attribute <> "" ->
  checkBhkMatch bhk (Some attribute)
  = if String.eqb bhk "5+"
    then existsb (fun option =>
                    match parseInt option with
                    | Some num => 5 <=? num
                    | None => false
                    end) (split "," attribute)
    else arrayIncludes (split "," attribute) bhk.
Proof. intros Hne. unfold checkBhkMatch. now rewrite ifTruthy_truthy. Qed.

(** Under ["5+"] an option counts exactly when it parses to an integer
    that is at least 5. *)
Lemma five_plus_exists (pieces : list string) :
  existsb (fun option =>
             match parseInt option with
             | Some num => 5 <=? num
             | None => false
             end) pieces = true
  <-> exists option n, In option pieces /\ parseInt option = Some n /\ 5 <= n.
Proof.
  rewrite existsb_exists. split.
  - intros (option & Hin & Htest).
    destruct (parseInt option) as [n|] eqn:Hparse; [|discriminate].
    exists option, n. apply Z.leb_le in Htest. auto.
  - intros (option & n & Hin & Hparse & Hge).
    exists option. rewrite Hparse. split; [assumption|]. now apply Z.leb_le.
Qed.

(** C5. For a listing that offers the bedroom counts [options] (at least
    one, as every listing does), and a selected value that is not empty:
    under the value ["5+"] the bedrooms predicate holds exactly when one of
    the counts is 5 or more; under any other value it holds exactly when
    the value is, letter for letter, one of the counts. This is so for
    [checkBhkMatch] and for the bedrooms block of the loop. *)
Theorem bedrooms_match (options : list Z) (bhk : string) (card : Card) :
  options <> [] ->
  bhk <> "" ->
  dataBhk card = Some (bhkAttribute options) ->
  let holds :=
    if String.eqb bhk "5+" then exists n, In n options /\ 5 <= n
    else In bhk (decimal <$> options) in
  (checkBhkMatch bhk (Some (bhkAttribute options)) = true <-> holds)
  /\ (filterByBhk (Some bhk) card true = true <-> holds).
Proof.
  intros Hne Hbhk Hcard holds.
  assert (Hcheck : checkBhkMatch bhk (Some (bhkAttribute options)) = true <-> holds).
  { rewrite checkBhkMatch_options by now apply bhkAttribute_nonEmpty.
    rewrite split_bhkAttribute by assumption. subst holds.
    destruct (String.eqb bhk "5+").
    - rewrite five_plus_exists. split.
      + intros (option & n & Hin & Hparse & Hge).
        apply in_map_iff in Hin as (m & <- & Hm).
        rewrite parseInt_decimal in Hparse. injection Hparse as ->.
        now exists n.
      + intros (n & Hin & Hge). exists (decimal n), n.
        split; [now apply in_map | split; [apply parseInt_decimal | assumption]].
    - apply arrayIncludes_In. }
  split; [exact Hcheck|].
  unfold filterByBhk.
  rewrite (block_shape (Some bhk) (dataBhk card) (fun v cv => checkBhkMatch v (Some cv)) true).
  rewrite Hcard. cbn [truthy].
  apply nonEmpty_true in Hbhk. rewrite Hbhk.
  pose proof (bhkAttribute_nonEmpty options Hne) as Hattr.
  apply nonEmpty_true in Hattr. rewrite Hattr. cbn [negb orb andb]. exact Hcheck.
Qed.

(** C10. [checkBhkMatch] gives an answer for every selected value and
    every attribute, missing or not. Under ["5+"], with an attribute that
    is not empty, it holds exactly when some option of the attribute parses
    to an integer that is 5 or more: an option that does not parse
    ([parseInt] is [NaN]) never counts, and when no option parses the
    answer is false. *)
Theorem bedrooms_total_and_guarded (bhk : string) (cardBhk : option string) :
  (checkBhkMatch bhk cardBhk = true \/ checkBhkMatch bhk cardBhk = false)
  /\ (checkBhkMatch "5+" cardBhk = true
      <-> truthy cardBhk = false
          \/ exists attribute option n,
               cardBhk = Some attribute /\ In option (split "," attribute)
               /\ parseInt option = Some n /\ 5 <= n)
  /\ (forall attribute,
        cardBhk = Some attribute -> attribute <> "" ->
        (forall option, In option (split "," attribute) -> parseInt option = None) ->
        checkBhkMatch "5+" cardBhk = false).
Proof.
  assert (Hiff : checkBhkMatch "5+" cardBhk = true
            <-> truthy cardBhk = false
                \/ exists attribute option n,
                     cardBhk = Some attribute /\ In option (split "," attribute)
                     /\ parseInt option = Some n /\ 5 <= n).
  { destruct cardBhk as [attribute|]; [|simpl; tauto].
    destruct (nonEmpty attribute) eqn:Hattr.
    - rewrite checkBhkMatch_options by now apply nonEmpty_true.
      simpl. rewrite Hattr, five_plus_exists. split.
      + intros (option & n & Hrest). right. now exists attribute, option, n.
      + intros [Hfalse|(a & option & n & Ha & Hrest)]; [discriminate|].
        injection Ha as <-. now exists option, n.
    - unfold checkBhkMatch. simpl. rewrite Hattr. tauto. }
  split; [destruct (checkBhkMatch bhk cardBhk); tauto|].
  split; [exact Hiff|].
  intros attribute -> Hattr Hnone.
  apply not_true_is_false. intros Hcheck.
  apply Hiff in Hcheck as [Hfalsy|(a & option & n & Ha & Hin & Hparse & _)].
  - simpl in Hfalsy. apply nonEmpty_false in Hfalsy. contradiction.
  - injection Ha as <-. rewrite (Hnone option Hin) in Hparse. discriminate.
Qed.

End BedroomsFacet.

(** C5 at the two listings of the specification: bedroom counts 5 and 6
    match ["5+"], the single count 4 does not. *)
Lemma bedrooms_match_witness :
  checkBhkMatch "5+" (Some "5,6") = true /\ checkBhkMatch "5+" (Some "4") = false.
Proof.
  pose (card := fun options =>
    {| dataPropertyType := None; dataPriceRange := None;
       dataBhk := Some (bhkAttribute options); textMuted := None;
       dataStatus := None; dataAmenities := None |}).
  split.
  - apply (proj1 (bedrooms_match [5; 6] "5+" (card [5; 6])
                    ltac:(discriminate) ltac:(discriminate) eq_refl)).
    exists 5. simpl. split; [tauto | lia].
  - destruct (checkBhkMatch "5+" (Some "4")) eqn:Hcheck; [|reflexivity].
    apply (proj1 (bedrooms_match [4] "5+" (card [4])
                    ltac:(discriminate) ltac:(discriminate) eq_refl)) in Hcheck.
    destruct Hcheck as (n & [<-|[]] & Hge). lia.
Defined.

(** Options that do not parse are passed over. *)
Example bedrooms_malformed_options :
  checkBhkMatch "5+" (Some "studio,7") = true
  /\ checkBhkMatch "5+" (Some "studio,4") = false
  /\ checkBhkMatch "5+" (Some "studio") = false.
Proof. repeat split; reflexivity. Qed.

(** ** The active-filter summary *)

Section Summary.
Context `{Engine}.
Import JS JSFacts.

Lemma omap_cons_app {A B : Type} (f : A -> option B) (x : A) (l : list A) :
  omap f (x :: l) = (option_list (f x) ++ omap f l)%list.
Proof. simpl. now destruct (f x). Qed.

(** One [if (v) filters.push(...)] line of [getActiveFilters]. *)
Lemma push_line (v : option string) (text : string -> string) (filters : list string) :
  ifTruthy v (fun s => push filters (text s)) filters
  = (filters ++
     option_list (match v with
                  | Some s => if nonEmpty s then Some (text s) else None
                  | None => None
                  end))%list.
Proof.
  destruct v as [s|]; simpl; [destruct (nonEmpty s)|]; simpl;
    now rewrite ?app_nil_r.
Qed.

(** Every label of the two tables is a non-empty string, so [||] keeps it. *)
Lemma budgetLabels_nonEmpty (code label : string) :
  budgetLabels !! code = Some label -> nonEmpty label = true.
Proof.
  intros Hlookup. apply elem_of_list_to_map_2 in Hlookup.
  repeat (apply elem_of_cons in Hlookup as [Heq|Hlookup];
          [injection Heq as _ ->; reflexivity|]).
  now apply elem_of_nil in Hlookup.
Qed.

Lemma amenityLabels_nonEmpty (code label : string) :
  amenityLabels !! code = Some label -> nonEmpty label = true.
Proof.
  intros Hlookup. apply elem_of_list_to_map_2 in Hlookup.
  repeat (apply elem_of_cons in Hlookup as [Heq|Hlookup];
          [injection Heq as _ ->; reflexivity|]).
  now apply elem_of_nil in Hlookup.
Qed.

Lemma getPropertyOr_nonEmpty (table : gmap string string) (v : string) :
  (forall label, table !! v = Some label -> nonEmpty label = true) ->
  toText (getPropertyOr table v v)
  = match getProperty table v with
    | Some entry => toText entry
    | None => v
    end.
Proof.
  intros Hlabels. unfold getPropertyOr, getProperty in *.
  destruct (table !! v) as [label|].
  - now rewrite (Hlabels label eq_refl).
  - now destruct (arrayIncludes objectPrototypeMembers v).
Qed.

(** A key the literal does not define and [Object.prototype] does not
    have is not found. *)
Lemma getProperty_unknown (table : gmap string string) (v : string) :
  table !! v = None -> ~ In v objectPrototypeMembers ->
  getProperty table v = None.
Proof.
  intros Hown Hproto. unfold getProperty. rewrite Hown.
  destruct (arrayIncludes objectPrototypeMembers v) eqn:Hin; [|reflexivity].
  apply arrayIncludes_In in Hin. contradiction.
Qed.

(** Away from the inherited names, the property read with its fallback is
    the lookup in the table. *)
Lemma getPropertyOr_plain (table : gmap string string) (v : string) :
  (forall label, table !! v = Some label -> nonEmpty label = true) ->
  ~ In v objectPrototypeMembers ->
  toText (getPropertyOr table v v)
  = match table !! v with
    | Some label => label
    | None => v
    end.
Proof.
  intros Hlabels Hplain. rewrite getPropertyOr_nonEmpty by exact Hlabels.
  destruct (table !! v) as [label|] eqn:Hown.
  - unfold getProperty. now rewrite Hown.
  - now rewrite getProperty_unknown.
Qed.

Lemma getBudgetLabel_rendered (v : string) :
  ~ In v objectPrototypeMembers ->
  toText (getBudgetLabel v) = rendered Budget v.
Proof. apply getPropertyOr_plain, budgetLabels_nonEmpty. Qed.

Lemma getAmenityLabel_rendered (v : string) :
  ~ In v objectPrototypeMembers ->
  toText (getAmenityLabel v) = rendered Amenities v.
Proof. apply getPropertyOr_plain, amenityLabels_nonEmpty. Qed.

(** A line of [getActiveFilters] whose text is the label and the rendered
    value is the description of its facet. *)
Lemma facet_line (facet : Facet) (filters : Filters) (text : string -> string) :
  (forall s, selected facet filters = Some s ->
             text s = facetLabel facet ++ ": " ++ rendered facet s) ->
  match selected facet filters with
  | Some s => if nonEmpty s then Some (text s) else None
  | None => None
  end = describeFacet filters facet.
Proof.
  intros Htext. unfold describeFacet.
  destruct (selected facet filters) as [s|]; [|reflexivity].
  now rewrite (Htext s eq_refl).
Qed.

(** Where the code gives the summary of the specification: at every
    selection whose budget and amenity are not named like a member that
    objects inherit. *)
Lemma getActiveFilters_plain (filters : Filters) :
  (forall facet v table,
      selected facet filters = Some v -> labelTable facet = Some table ->
      ~ In v objectPrototypeMembers) ->
  getActiveFilters filters = describeActiveFilters filters.
Proof.
  intros Hplain.
  unfold getActiveFilters, describeActiveFilters, facets.
  rewrite !push_line, !omap_cons_app.
  rewrite <- (facet_line PropertyType filters (fun s => "Type: " ++ s))
    by reflexivity.
  rewrite <- (facet_line Budget filters
                (fun s => "Budget: " ++ toText (getBudgetLabel s)))
    by (intros s Hs; rewrite getBudgetLabel_rendered;
        [reflexivity | exact (Hplain Budget s budgetLabels Hs eq_refl)]).
  rewrite <- (facet_line Bhk filters (fun s => "BHK: " ++ s)) by reflexivity.
  rewrite <- (facet_line Location filters (fun s => "Location: " ++ s))
    by reflexivity.
  rewrite <- (facet_line Possession filters (fun s => "Status: " ++ s))
    by reflexivity.
  rewrite <- (facet_line Amenities filters
                (fun s => "Amenities: " ++ toText (getAmenityLabel s)))
    by (intros s Hs; rewrite getAmenityLabel_rendered;
        [reflexivity | exact (Hplain Amenities s amenityLabels Hs eq_refl)]).
  change (omap (describeFacet filters) []) with (@nil string).
  rewrite <- !app_assoc, app_nil_r. reflexivity.
Qed.

(** C8. The summary of the code against the summary the specification
    describes, at the selection whose only value is the budget
    ["constructor"]. The budget table has no entry for it, so the
    specification shows the raw value, ["Budget: constructor"]. In
    [getBudgetLabel] the property read [budgetLabels[budgetValue]] finds the
    member every object inherits under that name, the fallback
    [|| budgetValue] is not taken, and the summary shows the text of a
    function. With the budget ["__proto__"] it shows ["[object Object]"],
    which no engine prints differently. Everywhere else the fallback does what
    the specification says: for a selection whose budget and amenity are not
    among the twelve inherited names, the code gives the summary of the
    specification, and type villa with amenity pool is summarised as
    ["Type: villa"; "Amenities: Swimming Pool"]. *)
Theorem active_filters_summary_diverges :
  (budgetLabels !! "constructor" = None
   /\ describeActiveFilters (budgetOnly "constructor") = ["Budget: constructor"]
   /\ getActiveFilters (budgetOnly "constructor")
      = ["Budget: " ++ functionText "constructor"])
  /\ (budgetLabels !! "__proto__" = None
      /\ describeActiveFilters (budgetOnly "__proto__") = ["Budget: __proto__"]
      /\ getActiveFilters (budgetOnly "__proto__") = ["Budget: [object Object]"]
      /\ getActiveFilters (budgetOnly "__proto__")
         <> describeActiveFilters (budgetOnly "__proto__"))
  /\ (forall filters,
        (forall facet v table,
            selected facet filters = Some v -> labelTable facet = Some table ->
            ~ In v objectPrototypeMembers) ->
        getActiveFilters filters = describeActiveFilters filters)
  /\ getActiveFilters villaWithPool = ["Type: villa"; "Amenities: Swimming Pool"].
Proof.
  split; [|split; [|split]].
  - repeat split; vm_compute; reflexivity.
  - repeat split; try (vm_compute; reflexivity).
    vm_compute. discriminate.
  - exact getActiveFilters_plain.
  - vm_compute. reflexivity.
Qed.

End Summary.

(** The budget ["constructor"] in an engine that prints built-in functions
    the way V8 does. *)
Example constructor_budget_summary :
  @getActiveFilters asciiEngine (budgetOnly "constructor")
  = ["Budget: function Object() { [native code] }"]
  /\ describeActiveFilters (budgetOnly "constructor") = ["Budget: constructor"].
Proof. split; vm_compute; reflexivity. Qed.

(** ** The query string: parsing undoes serializing *)

Module URLFacts.
Import JS JSFacts URLSearchParams.

Lemma chars_app (s t : string) :
  list_ascii_of_string (s ++ t)
  = (list_ascii_of_string s ++ list_ascii_of_string t)%list.
Proof. induction s as [|c s IH]; simpl; [reflexivity | now rewrite IH]. Qed.

(** The serializer writes only letters, digits and [* - . _ + %]: none of
    the characters that structure a query. *)
Lemma percentEncodeByte_plain (b : ascii) :
  forallb (fun c => negb (isDelimiter c))
          (list_ascii_of_string (percentEncodeByte b)) = true.
Proof.
  destruct b as [b0 b1 b2 b3 b4 b5 b6 b7].
  destruct b0, b1, b2, b3, b4, b5, b6, b7; reflexivity.
Qed.

Lemma percentEncode_plain (s : string) (c : ascii) :
  In c (list_ascii_of_string (percentEncode s)) -> isDelimiter c = false.
Proof.
  induction s as [|b s IH]; simpl; [tauto|].
  rewrite chars_app, in_app_iff. intros [Hin|Hin]; [|now apply IH].
  pose proof (percentEncodeByte_plain b) as Hplain.
  rewrite forallb_forall in Hplain. apply negb_true_iff. now apply Hplain.
Qed.

Lemma plusToSpace_app (s t : string) :
  plusToSpace (s ++ t) = plusToSpace s ++ plusToSpace t.
Proof. induction s as [|c s IH]; simpl; [reflexivity | now rewrite IH]. Qed.

(** Decoding the encoding of one byte gives the byte back, whatever
    follows. *)
Lemma percentDecode_byte (b : ascii) (rest : string) :
  percentDecode (plusToSpace (percentEncodeByte b) ++ rest)
  = String b (percentDecode rest).
Proof.
  destruct b as [b0 b1 b2 b3 b4 b5 b6 b7].
  destruct b0, b1, b2, b3, b4, b5, b6, b7; reflexivity.
Qed.

Lemma percentDecode_percentEncode (s : string) :
  percentDecode (plusToSpace (percentEncode s)) = s.
Proof.
  induction s as [|b s IH]; [reflexivity|].
  simpl percentEncode. rewrite plusToSpace_app, percentDecode_byte.
  now rewrite IH.
Qed.

Lemma splitAtEquals_app (name value : string) :
  ~ In "="%char (list_ascii_of_string name) ->
  splitAtEquals (name ++ String "=" value) = (name, value).
Proof.
  induction name as [|c name IH]; simpl; intros Hno; [reflexivity|].
  destruct (Ascii.eqb_spec c "=") as [->|Hne]; [tauto|].
  rewrite IH by tauto. reflexivity.
Qed.

Lemma not_delimiter (s : string) (d : ascii) :
  isDelimiter d = true ->
  ~ In d (list_ascii_of_string (percentEncode s)).
Proof. intros Hd Hin. apply percentEncode_plain in Hin. congruence. Qed.

Lemma parsePair_serializePair (entry : string * string) :
  parsePair (serializePair entry) = entry.
Proof.
  destruct entry as [name value]. unfold parsePair, serializePair. simpl.
  rewrite splitAtEquals_app by now apply not_delimiter.
  now rewrite !percentDecode_percentEncode.
Qed.

Lemma serializePair_nonEmpty (entry : string * string) :
  nonEmpty (serializePair entry) = true.
Proof.
  unfold serializePair. destruct (percentEncode (fst entry)); reflexivity.
Qed.

Lemma serializePair_chars (entry : string * string) (c : ascii) :
  In c (list_ascii_of_string (serializePair entry)) ->
  c = "="%char \/ isDelimiter c = false.
Proof.
  unfold serializePair. rewrite chars_app, in_app_iff. simpl.
  intros [Hin|[Heq|Hin]]; [right| now left |right];
    now apply percentEncode_plain in Hin.
Qed.

Lemma toString_chars (params : t) (c : ascii) :
  In c (list_ascii_of_string (toString params)) ->
  c = "="%char \/ c = "&"%char \/ isDelimiter c = false.
Proof.
  unfold toString, join.
  induction params as [|entry params IH]; simpl; [tauto|].
  destruct params as [|entry' params].
  - simpl. intros Hin. apply serializePair_chars in Hin. tauto.
  - change (map serializePair (entry' :: params))
      with (serializePair entry' :: map serializePair params).
    cbv iota. rewrite chars_app, in_app_iff. simpl.
    intros [Hin|[Heq|Hin]].
    + apply serializePair_chars in Hin. tauto.
    + auto.
    + now apply IH.
Qed.

(** [new URLSearchParams(params.toString())] has the pairs of [params]. *)
Lemma parse_toString (params : t) : parse (toString params) = params.
Proof.
  unfold parse, toString.
  destruct params as [|entry params]; [reflexivity|].
  rewrite (split_join "&" (map serializePair (entry :: params))).
  - induction (entry :: params) as [|e l IH]; [reflexivity|].
    simpl. rewrite serializePair_nonEmpty. simpl.
    now rewrite parsePair_serializePair, IH.
  - discriminate.
  - intros piece Hin Hamp. apply in_map_iff in Hin as (e & <- & _).
    apply serializePair_chars in Hamp as [Heq|Hplain]; discriminate.
Qed.

Lemma toString_nonEmpty (params : t) :
  params <> [] -> nonEmpty (toString params) = true.
Proof.
  destruct params as [|entry params]; [congruence|]. intros _.
  unfold toString, join. simpl.
  pose proof (serializePair_nonEmpty entry) as Hentry.
  destruct (serializePair entry); [discriminate|].
  destruct (map serializePair params); reflexivity.
Qed.

Lemma upTo_absent (c : ascii) (s : string) :
  ~ In c (list_ascii_of_string s) -> Location.upTo c s = s.
Proof.
  induction s as [|a s IH]; simpl; intros Hno; [reflexivity|].
  destruct (Ascii.eqb_spec a c) as [->|Hne]; [tauto|].
  now rewrite IH by tauto.
Qed.

(** The page reached through the href built from [params] sees the query
    of [params], and reads the pairs of [params] from it. *)
Lemma ofString_search (params : t) :
  ofString (Location.search ("properties.html?" ++ toString params)) = params.
Proof.
  assert (Hhash : ~ In "#"%char (list_ascii_of_string (toString params))).
  { intros Hin. apply toString_chars in Hin as [H|[H|H]]; discriminate. }
  unfold Location.search.
  assert (Hup : Location.upTo "#" ("properties.html?" ++ toString params)
                = "properties.html?" ++ toString params).
  { apply upTo_absent. rewrite chars_app, in_app_iff. intros [Hin|Hin]; [|tauto].
    simpl in Hin.
    repeat (destruct Hin as [Hin|Hin]; [discriminate Hin|]). exact Hin. }
  rewrite Hup.
  change (Location.after "?" ("properties.html?" ++ toString params))
    with (Some (toString params)).
  destruct params as [|entry params]; [reflexivity|].
  rewrite toString_nonEmpty by discriminate.
  apply parse_toString.
Qed.

End URLFacts.

(** ** The selection through the query string and back *)

Section RoundTrip.
Import JS JSFacts URLSearchParams URLFacts.

(** One [if (v) params.append(name, v)] line of
    [redirectToFilteredProperties]. *)
Lemma append_line (v : option string) (name : string) (params : t) :
  ifTruthy v (fun s => append name s params) params
  = (params ++
     option_list (match v with
                  | Some s => if nonEmpty s then Some (name, s) else None
                  | None => None
                  end))%list.
Proof.
  destruct v as [s|]; simpl; [destruct (nonEmpty s)|]; simpl;
    now rewrite ?app_nil_r.
Qed.

(** The parameters [redirectToFilteredProperties] builds: one entry for
    each non-empty facet, in the order of the facets. *)
Lemma redirect_params (filters : Filters) :
  redirectToFilteredProperties filters
  = "properties.html?" ++ toString (omap (queryEntry filters) facets).
Proof.
  unfold redirectToFilteredProperties, facets.
  rewrite !append_line, !omap_cons_app. unfold queryEntry, empty.
  change (omap _ []) with (@nil (string * string)).
  do 2 f_equal. rewrite <- !app_assoc, app_nil_r. reflexivity.
Qed.

(** What [get] finds among the entries of the facets from [rest] on. *)
Lemma get_omap_cons (filters : Filters) (name : string) (facet : Facet)
    (rest : list Facet) :
  get name (omap (queryEntry filters) (facet :: rest))
  = if truthy (selected facet filters) && String.eqb (paramName facet) name
    then selected facet filters
    else get name (omap (queryEntry filters) rest).
Proof.
  rewrite omap_cons_app. unfold queryEntry at 1.
  destruct (selected facet filters) as [v|]; simpl; [|reflexivity].
  destruct (nonEmpty v); simpl; [|reflexivity].
  unfold get. simpl. now destruct (String.eqb (paramName facet) name).
Qed.

(** The parameter of a facet holds the facet's value when that is not
    empty and is missing otherwise. *)
Lemma get_paramName (filters : Filters) (facet : Facet) :
  get (paramName facet) (omap (queryEntry filters) facets)
  = if truthy (selected facet filters) then selected facet filters else None.
Proof.
  unfold facets. rewrite !get_omap_cons.
  change (get _ (omap _ [])) with (@None string).
  destruct facet; simpl;
    repeat match goal with
           | |- context [truthy ?v] => destruct (truthy v)
           end; reflexivity.
Qed.

(** One [if (v) document.getElementById(id).value = v] line of
    [applyUrlFilters], under the parameter of its facet. *)
Lemma assign_line (filters : Filters) (form : Form) (facet : Facet) (c : Control) :
  control facet form = Some c ->
  ifTruthy (get (paramName facet) (omap (queryEntry filters) facets))
    (assignValue (control facet form)) (Some (control facet form))
  = Some (Some (match selected facet filters with
                | Some v => if nonEmpty v then setValue v c else c
                | None => c
                end)).
Proof.
  intros Hc. rewrite get_paramName, Hc.
  destruct (selected facet filters) as [v|]; simpl; [|reflexivity].
  destruct (nonEmpty v) eqn:Hv; simpl; [|reflexivity].
  now rewrite Hv.
Qed.

(** [applyUrlFilters] is six such lines, one for each facet. *)
Lemma applyUrlFilters_lines (search : string) (form : Form) :
  applyUrlFilters search form
  = (c1 ← ifTruthy (get (paramName PropertyType) (ofString search))
            (assignValue (control PropertyType form))
            (Some (control PropertyType form));
     c2 ← ifTruthy (get (paramName Budget) (ofString search))
            (assignValue (control Budget form)) (Some (control Budget form));
     c3 ← ifTruthy (get (paramName Bhk) (ofString search))
            (assignValue (control Bhk form)) (Some (control Bhk form));
     c4 ← ifTruthy (get (paramName Location) (ofString search))
            (assignValue (control Location form)) (Some (control Location form));
     c5 ← ifTruthy (get (paramName Possession) (ofString search))
            (assignValue (control Possession form))
            (Some (control Possession form));
     c6 ← ifTruthy (get (paramName Amenities) (ofString search))
            (assignValue (control Amenities form))
            (Some (control Amenities form));
     Some {| propertyTypeControl := c1; budgetControl := c2; bhkControl := c3;
             locationControl := c4; possessionControl := c5;
             amenitiesControl := c6 |}).
Proof. reflexivity. Qed.

(** The value read from a control after its line of [applyUrlFilters]. *)
Lemma assigned_value (filters : Filters) (form : Form) (facet : Facet)
    (c : Control) (v : string) :
  recognizes form filters ->
  control facet form = Some c -> value c = "" ->
  selected facet filters = Some v ->
  value (if nonEmpty v then setValue v c else c) = v.
Proof.
  intros Hknown Hc Hblank Hv.
  destruct (nonEmpty v) eqn:Hne.
  - simpl. apply (Hknown facet v c Hv); [now apply nonEmpty_true | assumption].
  - apply nonEmpty_false in Hne. congruence.
Qed.

(** C3. A selection whose six values are all there, decoded on a freshly
    loaded page whose controls know its values, comes back as it was:
    [decodeFromQuery form (encodeToQuery filters) = Some filters]. The
    query the page receives holds one entry for each non-empty facet, under
    the names type, budget, bhk, location, status, amenities, and nothing
    else; a facet without an entry is left as the page has it, empty. *)
Theorem query_round_trip (filters : Filters) (form : Form) :
  (forall facet, is_Some (selected facet filters)) ->
  freshForm form ->
  recognizes form filters ->
  decodeFromQuery form (encodeToQuery filters) = Some filters
  /\ ofString (encodeToQuery filters) = omap (queryEntry filters) facets.
Proof.
  intros Hsome Hfresh Hknown.
  assert (Hquery : ofString (encodeToQuery filters)
                   = omap (queryEntry filters) facets).
  { unfold encodeToQuery. rewrite redirect_params. apply ofString_search. }
  split; [|exact Hquery].
  unfold decodeFromQuery. rewrite applyUrlFilters_lines, Hquery.
  destruct (Hfresh PropertyType) as (c1 & Hc1 & Hv1).
  destruct (Hfresh Budget) as (c2 & Hc2 & Hv2).
  destruct (Hfresh Bhk) as (c3 & Hc3 & Hv3).
  destruct (Hfresh Location) as (c4 & Hc4 & Hv4).
  destruct (Hfresh Possession) as (c5 & Hc5 & Hv5).
  destruct (Hfresh Amenities) as (c6 & Hc6 & Hv6).
  rewrite (assign_line filters form PropertyType c1 Hc1).
  rewrite (assign_line filters form Budget c2 Hc2).
  rewrite (assign_line filters form Bhk c3 Hc3).
  rewrite (assign_line filters form Location c4 Hc4).
  rewrite (assign_line filters form Possession c5 Hc5).
  rewrite (assign_line filters form Amenities c6 Hc6).
  destruct (Hsome PropertyType) as (v1 & Hs1).
  destruct (Hsome Budget) as (v2 & Hs2).
  destruct (Hsome Bhk) as (v3 & Hs3).
  destruct (Hsome Location) as (v4 & Hs4).
  destruct (Hsome Possession) as (v5 & Hs5).
  destruct (Hsome Amenities) as (v6 & Hs6).
  rewrite Hs1, Hs2, Hs3, Hs4, Hs5, Hs6.
  cbn [mbind option_bind fmap option_fmap option_map].
  unfold readFilters.
  cbn [fmap option_fmap option_map
       propertyTypeControl budgetControl bhkControl locationControl
       possessionControl amenitiesControl].
  rewrite (assigned_value filters form PropertyType c1 v1) by assumption.
  rewrite (assigned_value filters form Budget c2 v2) by assumption.
  rewrite (assigned_value filters form Bhk c3 v3) by assumption.
  rewrite (assigned_value filters form Location c4 v4) by assumption.
  rewrite (assigned_value filters form Possession c5 v5) by assumption.
  rewrite (assigned_value filters form Amenities c6 v6) by assumption.
  destruct filters; simpl in *. congruence.
Qed.

End RoundTrip.

(** C3 at the selection of scenario D, decoded on the blank listing page:
    the query holds the type and the amenity, and the selection comes back. *)
Lemma query_round_trip_witness :
  freshForm blankForm
  /\ recognizes blankForm villaWithPool
  /\ decodeFromQuery blankForm (encodeToQuery villaWithPool) = Some villaWithPool
  /\ URLSearchParams.ofString (encodeToQuery villaWithPool)
     = [("type", "villa"); ("amenities", "pool")].
Proof.
  assert (Hsome : forall facet, is_Some (selected facet villaWithPool)).
  { intros []; eexists; reflexivity. }
  assert (Hfresh : freshForm blankForm).
  { intros []; eexists; split; reflexivity. }
  assert (Hknown : recognizes blankForm villaWithPool).
  { intros facet v c Hsel Hne Hc.
    destruct facet; simpl in Hsel, Hc;
      injection Hsel as <-; injection Hc as <-;
      solve [reflexivity | congruence]. }
  split; [exact Hfresh|]. split; [exact Hknown|].
  exact (query_round_trip villaWithPool blankForm Hsome Hfresh Hknown).
Defined.

(** A value the budget [select] of the page has no option for does not come
    back: the assignment leaves the control empty. *)
Example unknown_budget_is_not_restored :
  decodeFromQuery blankForm
    (encodeToQuery
       {| propertyType := Some ""; budget := Some "2000"; bhk := Some "";
          location := Some ""; possession := Some ""; amenities := Some "" |})
  = Some noFilters.
Proof. reflexivity. Qed.

(** Characters with a meaning in a query are escaped on the way out and
    restored on the way in. *)
Example query_escapes :
  redirectToFilteredProperties
    {| propertyType := Some ""; budget := Some "1000+"; bhk := Some "5+";
       location := Some "New York & co"; possession := None; amenities := None |}
  = "properties.html?budget=1000%2B&bhk=5%2B&location=New+York+%26+co".
Proof. reflexivity. Qed.

(** ** The remaining scenarios, evaluated *)

(** Scenario B: the first listing offers 4 bedrooms and is hidden under
    ["5+"]. *)
Example five_plus_hides_four_bedrooms :
  filterProperties
    {| propertyType := Some ""; budget := Some ""; bhk := Some "5+";
       location := Some ""; possession := Some ""; amenities := Some "" |}
    [listing1]
  = ([(listing1, "none")], 0%nat).
Proof. reflexivity. Qed.

(** Scenario C: the location is compared without regard to case, as a
    substring. *)
Example location_ignores_case :
  let miami :=
    {| dataPropertyType := Some "Waterfront Residence"; dataPriceRange := Some "5cr";
       dataBhk := Some "3"; textMuted := Some "South Beach, Miami";
       dataStatus := Some "ready"; dataAmenities := Some "pool" |} in
  visibleCards
    (filterProperties
       {| propertyType := Some ""; budget := Some ""; bhk := Some "";
          location := Some "miami"; possession := Some ""; amenities := Some "" |}
       [listing1; miami]).1
  = [miami].
Proof. reflexivity. Qed.

(** * Further properties of the filter *)

Section FilterResults.
Context `{Engine}.
Import JS JSFacts.

Lemma filter_sublist {A : Type} (f : A -> bool) (l : list A) :
  sublist (List.filter f l) l.
Proof.
  induction l as [|x l IH]; simpl; [constructor|].
  destruct (f x); [now apply sublist_skip | now apply sublist_cons].
Qed.

Lemma filter_sublist_implied {A : Type} (f g : A -> bool) (l : list A) :
  (forall x, f x = true -> g x = true) ->
  sublist (List.filter f l) (List.filter g l).
Proof.
  intros Himp. induction l as [|x l IH]; simpl; [constructor|].
  destruct (f x) eqn:Hf.
  - rewrite (Himp x Hf). now apply sublist_skip.
  - destruct (g x); [now apply sublist_cons | assumption].
Qed.

(** X1. The outcome of [filterProperties]: every card of the grid gets a display
    value, in the order of the grid, and that value is ["block"] or
    ["none"]; the cards shown are a subsequence of the grid; and
    [visibleCount] is their number. *)
Theorem filterProperties_outcome (filters : Filters) (cards : list Card) :
  fst <$> (filterProperties filters cards).1 = cards
  /\ (forall card display,
        In (card, display) (filterProperties filters cards).1 ->
        display = "block" \/ display = "none")
  /\ sublist (visibleCards (filterProperties filters cards).1) cards
  /\ (filterProperties filters cards).2
     = length (visibleCards (filterProperties filters cards).1).
Proof.
  rewrite visibleCards_filter, filterProperties_map. cbn [fst snd].
  split; [|split; [|split]].
  - induction cards as [|card cards IH]; simpl; [reflexivity|].
    f_equal. exact IH.
  - intros card display Hin. apply in_map_iff in Hin as (c & Heq & _).
    injection Heq as _ <-. destruct (showProperty filters c); auto.
  - apply filter_sublist.
  - reflexivity.
Qed.

(** A facet whose selected value is kept stays as strict as it was. *)
Lemma matchesFacet_kept (facet : Facet) (filters filters' : Filters) (card : Card) :
  selected facet filters' = selected facet filters ->
  matchesFacet filters' card facet = matchesFacet filters card facet.
Proof.
  intros Hsame. unfold matchesFacet. rewrite !filterBy_shape.
  now rewrite (blockValues_ext facet filters' filters card card).
Qed.

(** X2. Narrowing a selection: when [filters'] keeps every value that is set in
    [filters] (and may set facets that [filters] leaves empty), it shows no
    card that [filters] hides. The cards it shows are a subsequence of those
    shown before, and the count does not grow. *)
Theorem narrowing_only_hides (filters filters' : Filters) (cards : list Card) :
  (forall facet,
      truthy (selected facet filters) = true ->
      selected facet filters' = selected facet filters) ->
  sublist (visibleCards (filterProperties filters' cards).1)
          (visibleCards (filterProperties filters cards).1)
  /\ ((filterProperties filters' cards).2 <= (filterProperties filters cards).2)%nat.
Proof.
  intros Hkeeps.
  assert (Himp : forall card,
             showProperty filters' card = true -> showProperty filters card = true).
  { intros card. rewrite !showProperty_runBlocks, !runBlocks_forallb, !forallb_forall.
    intros Hall facet Hin.
    destruct (truthy (selected facet filters)) eqn:Hset.
    - rewrite <- (matchesFacet_kept facet filters filters' card) by auto.
      now apply Hall.
    - now apply matchesFacet_unselected. }
  assert (Hsub : sublist (List.filter (showProperty filters') cards)
                         (List.filter (showProperty filters) cards))
    by now apply filter_sublist_implied.
  rewrite !visibleCards_filter. split; [exact Hsub|].
  rewrite !filterProperties_map. cbn [snd]. now apply sublist_length.
Qed.

(** X3. The location block compares the two texts in lower case and asks for a
    substring; the possession block asks for the same string. Either block
    is passed when its filter value or the card's value is missing or
    empty. *)
Theorem location_and_possession_match (filters : Filters) (card : Card) :
  (matchesFacet filters card Location = true
   <-> truthy (toLowerCase <$> location filters) = false
       \/ truthy (toLowerCase <$> textMuted card) = false
       \/ exists v text pre post,
            location filters = Some v /\ textMuted card = Some text
            /\ toLowerCase text = pre ++ toLowerCase v ++ post)
  /\ (matchesFacet filters card Possession = true
      <-> truthy (possession filters) = false
          \/ truthy (dataStatus card) = false
          \/ exists status,
               possession filters = Some status /\ dataStatus card = Some status).
Proof.
  unfold matchesFacet. rewrite !filterBy_shape. cbn [blockValues selected listed fst snd facetTest andb].
  rewrite !orb_true_iff, !negb_true_iff. split.
  - destruct (location filters) as [v|], (textMuted card) as [text|];
      cbn [fmap option_fmap option_map].
    + rewrite includes_substring. split.
      * intros [[Hv|Ht]|(pre & post & Heq)]; [tauto|tauto|].
        right; right. now exists v, text, pre, post.
      * intros [Hv|[Ht|(v' & text' & pre & post & Hv & Ht & Heq)]]; [tauto|tauto|].
        right. injection Hv as <-. injection Ht as <-. now exists pre, post.
    + split; [tauto|]. intros _. left; right. reflexivity.
    + split; [tauto|]. intros _. left; left. reflexivity.
    + split; [tauto|]. intros _. left; left. reflexivity.
  - destruct (possession filters) as [v|], (dataStatus card) as [status|].
    + rewrite String.eqb_eq. split.
      * intros [[Hv|Ht]|Heq]; [tauto|tauto|]. right; right. exists v. now subst.
      * intros [Hv|[Ht|(s & Hv & Ht)]]; [tauto|tauto|]. right. congruence.
    + split; [tauto|]. intros _. left; right. reflexivity.
    + split; [tauto|]. intros _. left; left. reflexivity.
    + split; [tauto|]. intros _. left; left. reflexivity.
Qed.

End FilterResults.

(** X2 at an instance. Narrowing at the first listing: adding the budget ["50-100"] to a
    selection that only asks for ready listings hides it. *)
Lemma narrowing_only_hides_witness :
  let ready :=
    {| propertyType := Some ""; budget := Some ""; bhk := Some "";
       location := Some ""; possession := Some "ready"; amenities := Some "" |} in
  let readyAndCheap :=
    {| propertyType := Some ""; budget := Some "50-100"; bhk := Some "";
       location := Some ""; possession := Some "ready"; amenities := Some "" |} in
  (forall facet,
      JS.truthy (selected facet ready) = true ->
      selected facet readyAndCheap = selected facet ready)
  /\ ((filterProperties readyAndCheap [listing1]).2
      <= (filterProperties ready [listing1]).2)%nat.
Proof.
  intros ready readyAndCheap.
  assert (Hkeeps : forall facet,
             JS.truthy (selected facet ready) = true ->
             selected facet readyAndCheap = selected facet ready).
  { intros [] Hset; solve [reflexivity | discriminate Hset]. }
  split; [exact Hkeeps|].
  exact (proj2 (narrowing_only_hides ready readyAndCheap [listing1] Hkeeps)).
Defined.

(** ** The helpers of the facets, beyond the claims *)

Section FacetHelpers.
Import JS JSFacts.
Context `{Engine}.

(** [amenityMap] sends each of its keys to itself, and none of its keys is a
    member of [Object.prototype]. *)
Lemma amenityMap_identity (amenity mapped : string) :
  amenityMap !! amenity = Some mapped ->
  mapped = amenity /\ nonEmpty mapped = true
  /\ arrayIncludes objectPrototypeMembers amenity = false.
Proof.
  intros Hlookup. apply elem_of_list_to_map_2 in Hlookup.
  repeat (apply elem_of_cons in Hlookup as [Heq|Hlookup];
          [injection Heq as -> ->; repeat split; reflexivity|]).
  now apply elem_of_nil in Hlookup.
Qed.

(** What [amenityMap[amenity] || amenity] evaluates to. *)
Lemma mappedAmenity (amenity : string) :
  getPropertyOr amenityMap amenity amenity
  = if arrayIncludes objectPrototypeMembers amenity
    then VInherited amenity else VString amenity.
Proof.
  unfold getPropertyOr, getProperty.
  destruct (amenityMap !! amenity) as [mapped|] eqn:Hlookup.
  - apply amenityMap_identity in Hlookup as (-> & Hne & Hproto).
    now rewrite Hne, Hproto.
  - now destruct (arrayIncludes objectPrototypeMembers amenity).
Qed.

(** X4. [checkAmenitiesMatch] on a card with a non-empty amenity attribute: the
    alias table changes nothing, so the selected amenity matches exactly when
    it is one of the comma-separated entries of the attribute. The one
    exception is a selected value that names a member every object inherits
    ([constructor], [toString], ...): the table lookup then yields that
    member, not a string, and nothing matches. *)
Theorem amenities_match_listed_entries (amenity attribute : string) :
  attribute <> "" ->
  (~ In amenity objectPrototypeMembers ->
   (checkAmenitiesMatch amenity (Some attribute) = true
    <-> In amenity (split "," attribute)))
  /\ (In amenity objectPrototypeMembers ->
      checkAmenitiesMatch amenity (Some attribute) = false).
Proof.
  intros Hattr. unfold checkAmenitiesMatch.
  rewrite ifTruthy_truthy by assumption. cbv zeta. rewrite mappedAmenity.
  split.
  - intros Hplain.
    destruct (arrayIncludes objectPrototypeMembers amenity) eqn:Hproto.
    + apply arrayIncludes_In in Hproto. contradiction.
    + apply arrayIncludes_In.
  - intros Hproto. apply arrayIncludes_In in Hproto. now rewrite Hproto.
Qed.

(** The ranges the [switch] of [checkBudgetMatch] names are the ranges that
    some budget code matches. *)
Lemma matched_price_ranges (priceRange : string) :
  In priceRange priceRanges
  <-> exists budget, In budget budgetCodes /\ checkBudgetMatch budget priceRange = true.
Proof.
  split.
  - intros Hin. simpl in Hin.
    destruct Hin as [<-|[<-|[<-|[<-|[<-|[<-|[]]]]]]];
      [ exists "50-100" | exists "50-100" | exists "100-250"
      | exists "250-500" | exists "500-1000" | exists "1000+" ];
      (split; [simpl; tauto | reflexivity]).
  - intros (budget & Hcode & Hmatch). simpl in Hcode.
    destruct Hcode as [<-|[<-|[<-|[<-|[<-|[]]]]]];
      unfold checkBudgetMatch in Hmatch; simpl in Hmatch;
      apply orb_true_iff in Hmatch as [Heq|Heq];
      apply String.eqb_eq in Heq; subst; simpl; tauto.
Qed.

Lemma budgetCodes_nonEmpty (budget : string) :
  In budget budgetCodes -> nonEmpty budget = true.
Proof.
  simpl. intros [<-|[<-|[<-|[<-|[<-|[]]]]]]; reflexivity.
Qed.

(** With a budget as the only filter, the loop body comes down to the
    budget block. *)
Lemma showProperty_budgetOnly (budget : string) (card : Card) :
  showProperty (budgetOnly budget) card
  = negb (nonEmpty budget) || negb (truthy (dataPriceRange card))
    || match dataPriceRange card with
       | Some priceRange => checkBudgetMatch budget priceRange
       | None => false
       end.
Proof.
  rewrite showProperty_runBlocks, runBlocks_forallb. unfold facets, forallb.
  rewrite (matchesFacet_unselected PropertyType), (matchesFacet_unselected Bhk),
    (matchesFacet_unselected Location), (matchesFacet_unselected Possession),
    (matchesFacet_unselected Amenities) by reflexivity.
  rewrite !andb_true_r. unfold matchesFacet. rewrite filterBy_shape.
  reflexivity.
Qed.

Lemma visible_single (filters : Filters) (card : Card) :
  visibleCards (filterProperties filters [card]).1
  = if showProperty filters card then [card] else [].
Proof. rewrite visibleCards_filter. reflexivity. Qed.

(** X5. The budget codes and the price ranges of the cards. A price range is
    matched by some budget code of the [switch] exactly when it is one of the
    six ranges the [switch] names. In the grid, with a budget as the only
    filter: a card is hidden under every one of the five budget codes
    exactly when it has a price range, not empty, that is none of the six (a
    misspelt one, say); a card whose price range is missing or empty is
    shown under every budget, because the loop then skips the test. *)
Theorem budget_codes_cover_price_ranges (card : Card) :
  (forall priceRange,
      In priceRange priceRanges
      <-> exists budget,
            In budget budgetCodes /\ checkBudgetMatch budget priceRange = true)
  /\ ((forall budget, In budget budgetCodes ->
         visibleCards (filterProperties (budgetOnly budget) [card]).1 = [])
      <-> exists priceRange,
            dataPriceRange card = Some priceRange /\ priceRange <> ""
            /\ ~ In priceRange priceRanges)
  /\ (truthy (dataPriceRange card) = false ->
      forall budget,
        visibleCards (filterProperties (budgetOnly budget) [card]).1 = [card]).
Proof.
  split; [exact matched_price_ranges|]. split; [split|].
  - intros Hhidden.
    assert (Hfirst : showProperty (budgetOnly "50-100") card = false).
    { specialize (Hhidden "50-100" ltac:(simpl; tauto)).
      rewrite visible_single in Hhidden.
      now destruct (showProperty (budgetOnly "50-100") card). }
    rewrite showProperty_budgetOnly in Hfirst.
    destruct (dataPriceRange card) as [priceRange|] eqn:Hrange;
      [|discriminate Hfirst].
    exists priceRange. split; [reflexivity|].
    assert (Hne : nonEmpty priceRange = true).
    { simpl in Hfirst. now destruct (nonEmpty priceRange). }
    split; [now apply nonEmpty_true|].
    intros Hin. apply matched_price_ranges in Hin as (budget & Hcode & Hmatch).
    specialize (Hhidden budget Hcode). rewrite visible_single in Hhidden.
    rewrite showProperty_budgetOnly, Hrange, Hmatch, orb_true_r in Hhidden.
    discriminate Hhidden.
  - intros (priceRange & Hrange & Hne & Hout) budget Hcode.
    rewrite visible_single, showProperty_budgetOnly, Hrange.
    rewrite (budgetCodes_nonEmpty budget Hcode).
    apply nonEmpty_true in Hne. simpl. rewrite Hne. simpl.
    destruct (checkBudgetMatch budget priceRange) eqn:Hmatch; [|reflexivity].
    exfalso. apply Hout, matched_price_ranges. now exists budget.
  - intros Hmissing budget.
    rewrite visible_single, showProperty_budgetOnly, Hmissing.
    now rewrite orb_true_r.
Qed.

End FacetHelpers.

(** X4 at an instance. The amenity match at an attribute that lists the searched entry and at
    one that lists only a longer entry. *)
Lemma amenities_match_listed_entries_witness :
  checkAmenitiesMatch "pool" (Some "gym,pool") = true
  /\ checkAmenitiesMatch "constructor" (Some "constructor,pool") = false.
Proof.
  assert (Hplain : ~ In "pool" JS.objectPrototypeMembers).
  { simpl. intros Hin.
    repeat (destruct Hin as [Hin|Hin]; [discriminate Hin|]). exact Hin. }
  split.
  - apply (proj1 (amenities_match_listed_entries "pool" "gym,pool" ltac:(discriminate))
             Hplain).
    simpl. tauto.
  - apply (proj2 (amenities_match_listed_entries "constructor" "constructor,pool"
                    ltac:(discriminate))).
    simpl. tauto.
Defined.

(** ** The results line *)

Section ResultsLine.
Context `{Engine}.
Import JS JSFacts.

Lemma length_line (v : option string) (text : string -> string) :
  length (option_list (match v with
                       | Some s => if nonEmpty s then Some (text s) else None
                       | None => None
                       end))
  = if truthy v then 1%nat else 0%nat.
Proof. destruct v as [s|]; simpl; [destruct (nonEmpty s)|]; reflexivity. Qed.

(** X6. [getActiveFilters] has one entry for each facet that is set, and so it
    is empty exactly when [hasFiltersApplied] is false: the summary and the
    clear button never disagree about whether a filter is active. *)
Theorem active_filters_count (filters : Filters) :
  length (getActiveFilters filters)
  = length (List.filter (fun facet => truthy (selected facet filters)) facets)
  /\ (length (getActiveFilters filters) <= 6)%nat
  /\ (getActiveFilters filters = [] <-> hasFiltersApplied filters = false).
Proof.
  assert (Hlength : length (getActiveFilters filters)
            = length (List.filter (fun facet => truthy (selected facet filters)) facets)).
  { unfold getActiveFilters. rewrite !push_line, !length_app, !length_line.
    cbn [List.filter facets selected length].
    destruct (truthy (propertyType filters)), (truthy (budget filters)),
      (truthy (bhk filters)), (truthy (location filters)),
      (truthy (possession filters)), (truthy (amenities filters)); reflexivity. }
  split; [exact Hlength|]. split.
  - rewrite Hlength.
    etransitivity; [apply sublist_length, filter_sublist | reflexivity].
  - rewrite hasFiltersApplied_false. split.
    + intros Hnil facet.
      rewrite Hnil in Hlength. cbn [length] in Hlength.
      destruct (truthy (selected facet filters)) eqn:Hset; [|reflexivity].
      assert (Hin : In facet (List.filter
                 (fun facet => truthy (selected facet filters)) facets)).
      { apply filter_In. split; [destruct facet; simpl; tauto | exact Hset]. }
      destruct (List.filter (fun facet => truthy (selected facet filters)) facets);
        [destruct Hin | discriminate Hlength].
    + intros Hnone. apply length_zero_iff_nil. rewrite Hlength.
      cbn [List.filter facets].
      now rewrite !Hnone.
Qed.

(** The summary is empty exactly when no filter is set. *)
Lemma active_filters_nil (filters : Filters) :
  (getActiveFilters filters = [] -> hasFiltersApplied filters = false)
  /\ (hasFiltersApplied filters = false -> getActiveFilters filters = []).
Proof.
  split.
  - intros Hnil. destruct (hasFiltersApplied filters) eqn:Hhas; [|reflexivity].
    exfalso. revert Hnil. unfold getActiveFilters, hasFiltersApplied in *.
    rewrite !push_line.
    destruct (propertyType filters) as [[|? ?]|], (budget filters) as [[|? ?]|],
      (bhk filters) as [[|? ?]|], (location filters) as [[|? ?]|],
      (possession filters) as [[|? ?]|], (amenities filters) as [[|? ?]|];
      simpl in *; congruence.
  - intros Hfalse.
    pose proof (proj1 (hasFiltersApplied_false filters) Hfalse) as Hnone.
    unfold getActiveFilters. rewrite !push_line.
    pose proof (Hnone PropertyType) as H1. pose proof (Hnone Budget) as H2.
    pose proof (Hnone Bhk) as H3. pose proof (Hnone Location) as H4.
    pose proof (Hnone Possession) as H5. pose proof (Hnone Amenities) as H6.
    cbn [selected] in *.
    apply truthy_false in H1, H2, H3, H4, H5, H6.
    destruct H1 as [-> | ->], H2 as [-> | ->], H3 as [-> | ->],
      H4 as [-> | ->], H5 as [-> | ->], H6 as [-> | ->]; reflexivity.
Qed.

(** X7. What [updateFilterResultsInfo] writes when the page has the results line
    and the count: the count is the number in decimal; the results line is
    no longer hidden; the clear button is hidden exactly when no filter is
    set; and the summary is empty exactly then, so the button shows exactly
    when the summary has text. *)
Theorem results_line_is_consistent (visibleCount : nat) (filters : Filters)
    (panel : ResultsPanel) (info : gset string) (count : string) :
  resultsInfo panel = Some info ->
  resultsCount panel = Some count ->
  let panel' := updateFilterResultsInfo visibleCount filters panel in
  resultsCount panel' = Some (decimal (Z.of_nat visibleCount))
  /\ (exists info', resultsInfo panel' = Some info' /\ ("d-none" ∉ info')
       /\ forall token, token <> "d-none" -> (token ∈ info' <-> token ∈ info))
  /\ (forall button, clearFiltersBtn panel = Some button ->
        exists button', clearFiltersBtn panel' = Some button'
          /\ ("d-none" ∈ button' <-> hasFiltersApplied filters = false)
          /\ forall token, token <> "d-none" -> (token ∈ button' <-> token ∈ button))
  /\ (forall summary, activeFilters panel = Some summary ->
        exists summary', activeFilters panel' = Some summary'
          /\ (summary' = "" <-> hasFiltersApplied filters = false)).
Proof.
  intros Hinfo Hcount panel'. subst panel'. unfold updateFilterResultsInfo.
  rewrite Hinfo, Hcount. cbn [resultsInfo resultsCount activeFilters clearFiltersBtn].
  split; [reflexivity|]. split; [|split].
  - exists (classRemove "d-none" info). unfold classRemove.
    split; [reflexivity|]. split.
    + rewrite elem_of_difference, elem_of_singleton. tauto.
    + intros token Hne. rewrite elem_of_difference, elem_of_singleton. tauto.
  - intros button ->. unfold classToggle.
    destruct (hasFiltersApplied filters); cbn [negb].
    + exists (button ∖ {["d-none"]}). split; [reflexivity|]. split.
      * rewrite elem_of_difference, elem_of_singleton.
        split; [tauto | discriminate].
      * intros token Hne. rewrite elem_of_difference, elem_of_singleton. tauto.
    + exists (button ∪ {["d-none"]}). split; [reflexivity|]. split.
      * rewrite elem_of_union, elem_of_singleton. tauto.
      * intros token Hne. rewrite elem_of_union, elem_of_singleton. tauto.
  - intros summary ->.
    destruct (active_filters_nil filters) as [Hnil Hcons].
    destruct (getActiveFilters filters) as [|entry entries] eqn:Hfilters.
    + exists "". split; [reflexivity|]. split; [intros _; now apply Hnil | reflexivity].
    + exists ("(" ++ join ", " (entry :: entries) ++ ")").
      split; [reflexivity|]. split; [discriminate|].
      intros Hnone. now apply Hcons in Hnone.
Qed.

(** X8. [filterProperties] to its end: the number written next to the grid is
    the number of cards that were given the display ["block"]. *)
Theorem reported_count_is_visible_count (filters : Filters) (cards : list Card)
    (panel : ResultsPanel) (info : gset string) (count : string) :
  resultsInfo panel = Some info ->
  resultsCount panel = Some count ->
  let '(displayed, panel') := filterPropertiesAndReport filters cards panel in
  resultsCount panel'
  = Some (decimal (Z.of_nat (length (List.filter
                                       (fun entry => String.eqb (snd entry) "block")
                                       displayed)))).
Proof.
  intros Hinfo Hcount. unfold filterPropertiesAndReport.
  rewrite filterProperties_map. unfold updateFilterResultsInfo.
  rewrite Hinfo, Hcount. cbn [resultsCount]. do 3 f_equal.
  induction cards as [|card cards IH]; simpl; [reflexivity|].
  destruct (showProperty filters card); simpl; now rewrite IH.
Qed.

End ResultsLine.

(** X7 at an instance. The results line after a search for villas with a pool that leaves two
    cards. *)
Lemma results_line_is_consistent_witness :
  resultsCount (updateFilterResultsInfo 2 villaWithPool hiddenPanel) = Some "2"
  /\ exists summary,
       activeFilters (updateFilterResultsInfo 2 villaWithPool hiddenPanel)
       = Some summary
       /\ (summary = "" <-> hasFiltersApplied villaWithPool = false).
Proof.
  pose proof (results_line_is_consistent 2 villaWithPool hiddenPanel
                {["d-none"]} "0" eq_refl eq_refl) as (Hcount & _ & _ & Hsummary).
  split; [exact Hcount|].
  exact (Hsummary "" eq_refl).
Defined.

(** X8 at an instance. The count written for the first listing under the budget ["1000+"]. *)
Lemma reported_count_is_visible_count_witness :
  resultsCount
    (filterPropertiesAndReport
       {| propertyType := None; budget := Some "1000+"; bhk := None;
          location := None; possession := None; amenities := None |}
       [listing1] hiddenPanel).2
  = Some "1".
Proof.
  exact (reported_count_is_visible_count
           {| propertyType := None; budget := Some "1000+"; bhk := None;
              location := None; possession := None; amenities := None |}
           [listing1] hiddenPanel {["d-none"]} "0" eq_refl eq_refl).
Defined.

(** ** [applyUrlFilters] on any query and any form *)

Section ApplyUrlFilters.
Import JS JSFacts URLSearchParams URLFacts.

Lemma applyUrlFilters_assignLines (search : string) (form : Form) :
  applyUrlFilters search form
  = (c1 ← assignLine (ofString search) form PropertyType;
     c2 ← assignLine (ofString search) form Budget;
     c3 ← assignLine (ofString search) form Bhk;
     c4 ← assignLine (ofString search) form Location;
     c5 ← assignLine (ofString search) form Possession;
     c6 ← assignLine (ofString search) form Amenities;
     Some {| propertyTypeControl := c1; budgetControl := c2; bhkControl := c3;
             locationControl := c4; possessionControl := c5;
             amenitiesControl := c6 |}).
Proof. reflexivity. Qed.

(** A line fails exactly when it has a value to assign and no control. *)
Lemma assignLine_None (params : t) (form : Form) (facet : Facet) :
  assignLine params form facet = None
  <-> truthy (get (paramName facet) params) = true /\ control facet form = None.
Proof.
  unfold assignLine.
  destruct (get (paramName facet) params) as [v|]; simpl.
  - destruct (nonEmpty v); simpl.
    + destruct (control facet form); simpl; split;
        [discriminate | intros [_ ?]; discriminate | auto | reflexivity].
    + split; [discriminate | intros [? _]; discriminate].
  - split; [discriminate | intros [? _]; discriminate].
Qed.

(** A line that succeeds leaves the control with the value stored, or as it
    was when there is nothing to assign. *)
Lemma assignLine_Some (params : t) (form : Form) (facet : Facet) (c : option Control) :
  assignLine params form facet = Some c ->
  c = match get (paramName facet) params with
      | Some v => if nonEmpty v then setValue v <$> control facet form
                  else control facet form
      | None => control facet form
      end.
Proof.
  unfold assignLine.
  destruct (get (paramName facet) params) as [v|]; simpl; [|congruence].
  destruct (nonEmpty v); simpl; [|congruence].
  destruct (control facet form); simpl; congruence.
Qed.

(** X9. [applyUrlFilters], facet by facet, for every query and every form. It
    throws exactly when the query has a non-empty value for a facet whose
    control the page lacks. Otherwise each control whose parameter is
    present and non-empty gets that value assigned (the first one, when the
    name is repeated), and every other control is left as it was: a missing
    or empty parameter never clears a control. *)
Theorem applyUrlFilters_by_facet (search : string) (form : Form) :
  (applyUrlFilters search form = None
   <-> exists facet,
         truthy (get (paramName facet) (ofString search)) = true
         /\ control facet form = None)
  /\ (forall form' facet,
        applyUrlFilters search form = Some form' ->
        control facet form'
        = match get (paramName facet) (ofString search) with
          | Some v => if nonEmpty v then setValue v <$> control facet form
                      else control facet form
          | None => control facet form
          end).
Proof.
  rewrite applyUrlFilters_assignLines.
  pose proof (assignLine_None (ofString search) form) as Hnone.
  pose proof (assignLine_Some (ofString search) form) as Hsome.
  destruct (assignLine (ofString search) form PropertyType) as [c1|] eqn:H1;
    [|split; [split; [intros _; exists PropertyType; now apply Hnone | reflexivity]
             | discriminate]].
  destruct (assignLine (ofString search) form Budget) as [c2|] eqn:H2;
    [|split; [split; [intros _; exists Budget; now apply Hnone | reflexivity]
             | discriminate]].
  destruct (assignLine (ofString search) form Bhk) as [c3|] eqn:H3;
    [|split; [split; [intros _; exists Bhk; now apply Hnone | reflexivity]
             | discriminate]].
  destruct (assignLine (ofString search) form Location) as [c4|] eqn:H4;
    [|split; [split; [intros _; exists Location; now apply Hnone | reflexivity]
             | discriminate]].
  destruct (assignLine (ofString search) form Possession) as [c5|] eqn:H5;
    [|split; [split; [intros _; exists Possession; now apply Hnone | reflexivity]
             | discriminate]].
  destruct (assignLine (ofString search) form Amenities) as [c6|] eqn:H6;
    [|split; [split; [intros _; exists Amenities; now apply Hnone | reflexivity]
             | discriminate]].
  cbn [mbind option_bind]. split.
  - split; [discriminate|].
    intros (facet & Hfacet). apply Hnone in Hfacet. destruct facet; congruence.
  - intros form' facet Hform'. injection Hform' as <-.
    destruct facet; cbn [control propertyTypeControl budgetControl bhkControl
                         locationControl possessionControl amenitiesControl];
      now apply Hsome.
Qed.

Lemma get_app_other (name other value : string) (before after : t) :
  other <> name ->
  get name (before ++ (other, value) :: after)%list = get name (before ++ after)%list.
Proof.
  intros Hne. unfold get. f_equal.
  induction before as [|entry before IH]; simpl.
  - apply String.eqb_neq in Hne. now rewrite Hne.
  - destruct (String.eqb (fst entry) name); [reflexivity | exact IH].
Qed.

(** X10. A parameter under a name the page does not know is ignored, wherever it
    stands in the query: with or without it, [applyUrlFilters] does the
    same. *)
Theorem applyUrlFilters_ignores_unknown (name value : string) (before after : t)
    (form : Form) :
  ~ In name (paramName <$> facets) ->
  applyUrlFilters (String "?" (toString (before ++ (name, value) :: after)%list)) form
  = applyUrlFilters (String "?" (toString (before ++ after)%list)) form.
Proof.
  intros Hunknown. rewrite !applyUrlFilters_assignLines.
  change (ofString (String "?" ?query)) with (parse query).
  rewrite !parse_toString.
  assert (Hline : forall facet,
             assignLine (before ++ (name, value) :: after)%list form facet
             = assignLine (before ++ after)%list form facet).
  { intros facet. unfold assignLine. rewrite get_app_other; [reflexivity|].
    intros ->. apply Hunknown. destruct facet; simpl; tauto. }
  now rewrite !Hline.
Qed.

(** X11. The redirect carries a query exactly when a filter is set. With no
    filter set the address ends in a bare [?], the next page sees an empty
    query, and [applyUrlFilters] leaves any form as it is, whether or not it
    has the controls. *)
Theorem empty_selection_redirect (filters : Filters) :
  (redirectToFilteredProperties filters = "properties.html?"
   <-> hasFiltersApplied filters = false)
  /\ (hasFiltersApplied filters = false ->
      encodeToQuery filters = ""
      /\ forall form, applyUrlFilters (encodeToQuery filters) form = Some form).
Proof.
  assert (Hentries : omap (queryEntry filters) facets = []
                     <-> hasFiltersApplied filters = false).
  { rewrite hasFiltersApplied_false. unfold facets. split.
    - intros Hnil facet. rewrite !omap_cons_app in Hnil.
      repeat (apply app_eq_nil in Hnil as [?Hentry Hnil]).
      unfold queryEntry in *.
      destruct facet;
        match goal with
        | Hentry : option_list (match selected ?f filters with _ => _ end) = []
          |- truthy (selected ?f filters) = false =>
            destruct (selected f filters) as [v|]; [|reflexivity];
            simpl in *; destruct (nonEmpty v); [discriminate Hentry | reflexivity]
        end.
    - intros Hnone. rewrite !omap_cons_app. unfold queryEntry.
      pose proof (Hnone PropertyType) as H1. pose proof (Hnone Budget) as H2.
      pose proof (Hnone Bhk) as H3. pose proof (Hnone Location) as H4.
      pose proof (Hnone Possession) as H5. pose proof (Hnone Amenities) as H6.
      apply truthy_false in H1, H2, H3, H4, H5, H6.
      destruct H1 as [-> | ->], H2 as [-> | ->], H3 as [-> | ->],
        H4 as [-> | ->], H5 as [-> | ->], H6 as [-> | ->]; reflexivity. }
  assert (Hhref : redirectToFilteredProperties filters = "properties.html?"
                  <-> hasFiltersApplied filters = false).
  { rewrite redirect_params, <- Hentries. split.
    - intros Hhref.
      destruct (omap (queryEntry filters) facets) as [|entry entries] eqn:Hq;
        [reflexivity|].
      pose proof (toString_nonEmpty (entry :: entries) ltac:(discriminate)) as Hne.
      destruct (toString (entry :: entries)); [discriminate Hne | discriminate Hhref].
    - now intros ->. }
  split; [exact Hhref|].
  intros Hnone. apply Hhref in Hnone. unfold encodeToQuery. rewrite Hnone.
  split; [reflexivity|]. intros form. destruct form; reflexivity.
Qed.

End ApplyUrlFilters.

(** X10 at an instance. The unknown parameter [utm] between the type and the amenity. *)
Lemma applyUrlFilters_ignores_unknown_witness :
  ~ In "utm" (paramName <$> facets)
  /\ applyUrlFilters "?type=villa&utm=mail&amenities=pool" blankForm
     = applyUrlFilters "?type=villa&amenities=pool" blankForm.
Proof.
  assert (Hunknown : ~ In "utm" (paramName <$> facets)).
  { simpl. intros Hin.
    repeat (destruct Hin as [Hin|Hin]; [discriminate Hin|]). exact Hin. }
  split; [exact Hunknown|].
  exact (applyUrlFilters_ignores_unknown "utm" "mail"
           [("type", "villa")] [("amenities", "pool")] blankForm Hunknown).
Defined.

(** ** Clearing the filters *)

Section ClearFilters.
Context `{Engine}.
Import JS JSFacts.

(** The value of an input once it is reset. *)
Lemma clearInput_value (input : FormInput) :
  inputValue (clearInput input)
  = match input with
    | SelectOne _ options _ => hd "" options
    | OtherInput _ c => stores c ""
    end.
Proof. destruct input as [elementId [|o options] index|elementId c]; reflexivity. Qed.

Lemma clearInput_id (input : FormInput) : inputId (clearInput input) = inputId input.
Proof. now destruct input. Qed.

(** After the reset an element found by id reads as empty, when every input
    resets to empty. *)
Lemma elementValue_cleared (inputs : list FormInput) (elementId : string) :
  Forall resetsToEmpty inputs ->
  truthy (elementValue (clearInput <$> inputs) elementId) = false.
Proof.
  intros Hreset. unfold elementValue.
  induction Hreset as [|input inputs Hinput _ IH]; [reflexivity|].
  rewrite fmap_cons. cbn [List.find]. rewrite clearInput_id.
  destruct (String.eqb (inputId input) elementId); [|exact IH].
  cbn [fmap option_fmap option_map truthy]. rewrite clearInput_value.
  destruct input; simpl in Hinput; now rewrite Hinput.
Qed.

(** X12. [clearAllFilters] resets every single select to its first option and
    empties every other input, keeping the elements and their order. When
    each input resets to empty (the selects start with an empty placeholder
    option), no filter is applied afterwards and the [filterProperties] call
    it ends with shows the whole grid. *)
Theorem clearAllFilters_shows_all (inputs : list FormInput) (cards : list Card) :
  Forall resetsToEmpty inputs ->
  let '(inputs', (displayed, visibleCount)) := clearAllFilters inputs cards in
  inputId <$> inputs' = inputId <$> inputs
  /\ hasFiltersApplied (formFilters inputs') = false
  /\ visibleCards displayed = cards
  /\ visibleCount = length cards.
Proof.
  intros Hreset. unfold clearAllFilters.
  set (inputs' := clearInput <$> inputs).
  assert (Hempty : forall facet, truthy (selected facet (formFilters inputs')) = false).
  { intros []; apply elementValue_cleared; assumption. }
  assert (Hshow : forall card, showProperty (formFilters inputs') card = true).
  { intros card. rewrite showProperty_runBlocks, runBlocks_forallb.
    apply forallb_forall. intros facet _.
    apply matchesFacet_unselected, Hempty. }
  assert (Hall : List.filter (showProperty (formFilters inputs')) cards = cards).
  { induction cards as [|card cards IH]; simpl; [reflexivity|].
    now rewrite Hshow, IH. }
  rewrite filterProperties_map.
  split; [|split; [|split]].
  - subst inputs'. rewrite <- list_fmap_compose.
    apply list_fmap_ext. intros ? input _. apply clearInput_id.
  - now apply hasFiltersApplied_false.
  - pose proof (visibleCards_filter (formFilters inputs') cards) as Hvisible.
    rewrite filterProperties_map in Hvisible. cbn [fst] in Hvisible.
    now rewrite Hvisible.
  - now rewrite Hall.
Qed.

(** Resetting is idempotent: a second [clearAllFilters] changes no input. *)
Lemma clearInput_idempotent (input : FormInput) :
  inputValue (clearInput (clearInput input)) = inputValue (clearInput input).
Proof.
  destruct input as [elementId [|o options] index|elementId c]; reflexivity.
Qed.

End ClearFilters.

(** X12 at an instance. Clearing a form whose budget and location are filled in. *)
Lemma clearAllFilters_shows_all_witness :
  Forall resetsToEmpty filledInputs
  /\ hasFiltersApplied (formFilters filledInputs) = true
  /\ hasFiltersApplied (formFilters (clearAllFilters filledInputs [listing1]).1) = false
  /\ visibleCards (clearAllFilters filledInputs [listing1]).2.1 = [listing1].
Proof.
  assert (Hreset : Forall resetsToEmpty filledInputs).
  { repeat constructor. }
  split; [exact Hreset|]. split; [reflexivity|].
  pose proof (clearAllFilters_shows_all filledInputs [listing1] Hreset) as Hclear.
  destruct (clearAllFilters filledInputs [listing1]) as [inputs' [displayed count]].
  destruct Hclear as (_ & Hnone & Hvisible & _).
  split; [exact Hnone | exact Hvisible].
Defined.

(** A select without a placeholder keeps filtering after the reset: its
    first option is selected, and that is a budget. *)
Example clear_without_placeholder :
  hasFiltersApplied
    (formFilters (clearAllFilters [SelectOne "budget" budgetCodes (Some 3%nat)] []).1)
  = true.
Proof. reflexivity. Qed.

(** * The carousel of hot projects *)

Module CarouselFacts.
Import Carousel.

(** X13. However wide the container is, between one card and all the cards
    count as visible, and the largest index is between 0 and the last card.
    A wider container never shows fewer cards nor allows a larger index, and
    when at least one card fits, the cards counted as visible fit in the
    container side by side. *)
Theorem visible_cards_bounds (containerWidth : Z) (cardCount : nat) :
  (1 <= cardCount)%nat ->
  1 <= getVisibleCards containerWidth cardCount <= Z.of_nat cardCount
  /\ 0 <= getMaxIndex containerWidth cardCount <= Z.of_nat cardCount - 1
  /\ (forall wider, containerWidth <= wider ->
        getVisibleCards containerWidth cardCount <= getVisibleCards wider cardCount
        /\ getMaxIndex wider cardCount <= getMaxIndex containerWidth cardCount)
  /\ (cardWidth <= containerWidth ->
      getVisibleCards containerWidth cardCount * cardWidth <= containerWidth).
Proof.
  intros Hcards. unfold getMaxIndex, getVisibleCards, cardWidth.
  change (320 + 16) with 336. cbv zeta.
  pose proof (Z.mul_div_le containerWidth 336 ltac:(lia)) as Hfloor.
  split; [lia|]. split; [lia|]. split.
  - intros wider Hwider.
    pose proof (Z.div_le_mono containerWidth wider 336 ltac:(lia) Hwider) as Hmono.
    lia.
  - intros Hfits.
    pose proof (Z.div_le_mono 336 containerWidth 336 ltac:(lia) Hfits) as Hone.
    change (336 / 336) with 1 in Hone. lia.
Qed.

Lemma getMaxIndex_range (containerWidth : Z) (cardCount : nat) :
  (1 <= cardCount)%nat ->
  0 <= getMaxIndex containerWidth cardCount <= Z.of_nat cardCount - 1.
Proof.
  intros Hcards. unfold getMaxIndex, getVisibleCards. cbv zeta. lia.
Qed.

Section Handlers.
Variable subtract : Q -> Q -> Q.
Variable cardCount : nat.

#[local] Abbreviation handle := (handle subtract cardCount).
#[local] Abbreviation run := (run subtract cardCount).

(** The index a handler leaves is the old one, one less, one more, or the
    largest index of the width it read. *)
Lemma handle_index (s : State) (e : Event) :
  (1 <= cardCount)%nat ->
  0 <= currentIndex s <= Z.of_nat cardCount - 1 ->
  0 <= currentIndex (handle s e) <= Z.of_nat cardCount - 1.
Proof.
  intros some_card Hrange.
  destruct e as [|w|x| |w x|w]; cbn [handle Carousel.handle].
  - unfold onPrevClick. destruct (Z.ltb_spec 0 (currentIndex s)); cbn; lia.
  - unfold onNextClick. cbv zeta.
    pose proof (getMaxIndex_range w cardCount some_card).
    destruct (Z.ltb_spec (currentIndex s) (getMaxIndex w cardCount)); cbn; lia.
  - cbn. lia.
  - exact Hrange.
  - unfold onTouchEnd. cbv zeta.
    pose proof (getMaxIndex_range w cardCount some_card).
    destruct (isDragging s); cbn [negb]; [|exact Hrange].
    cbn [currentIndex].
    destruct (Qle_bool (Qabs (subtract (startX s) x)) 50); cbn [negb]; [lia|].
    destruct (Qle_bool (subtract (startX s) x) 0); cbn [negb andb].
    + destruct (Qle_bool 0 (subtract (startX s) x)); cbn [negb andb]; [lia|].
      destruct (Z.ltb_spec 0 (currentIndex s)); lia.
    + destruct (Z.ltb_spec (currentIndex s) (getMaxIndex w cardCount)); [lia|].
      destruct (Qle_bool 0 (subtract (startX s) x)); cbn [negb andb]; [lia|].
      destruct (Z.ltb_spec 0 (currentIndex s)); lia.
  - unfold onResize. cbv zeta.
    pose proof (getMaxIndex_range w cardCount some_card).
    destruct (Z.ltb_spec (getMaxIndex w cardCount) (currentIndex s)); cbn; lia.
Qed.

Lemma run_index (events : list Event) (s : State) :
  (1 <= cardCount)%nat ->
  0 <= currentIndex s <= Z.of_nat cardCount - 1 ->
  0 <= currentIndex (run events s) <= Z.of_nat cardCount - 1.
Proof.
  intros some_card. revert s. unfold run, Carousel.run.
  induction events as [|e events IH]; intros s Hrange; [exact Hrange|].
  cbn [fold_left]. apply IH. now apply handle_index.
Qed.

(** X14. Whatever the user does, and however the window is resized in
    between, the carousel stays on a card: after any sequence of clicks,
    touches and resizes the index is between 0 and the last card, so the
    strip is never shifted to the right nor past its last card. *)
Theorem index_stays_on_a_card (events : list Event) (s : State) :
  (1 <= cardCount)%nat ->
  0 <= currentIndex s <= Z.of_nat cardCount - 1 ->
  0 <= currentIndex (run events s) <= Z.of_nat cardCount - 1
  /\ - (Z.of_nat cardCount - 1) * cardWidth
     <= - currentIndex (run events s) * cardWidth <= 0.
Proof.
  intros some_card Hrange.
  pose proof (run_index events s some_card Hrange) as Hrun.
  split; [exact Hrun|]. unfold cardWidth. lia.
Qed.

(** A handler that reads the width [w] keeps the index within the largest
    index of [w]. *)
Lemma handle_within (w : Z) (s : State) (e : Event) :
  (forall w', widthOf e = Some w' -> w' = w) ->
  0 <= currentIndex s <= getMaxIndex w cardCount ->
  0 <= currentIndex (handle s e) <= getMaxIndex w cardCount.
Proof.
  intros Hwidth Hrange.
  destruct e as [|w'|x| |w' x|w']; cbn [handle Carousel.handle];
    try (rewrite (Hwidth w' eq_refl)).
  - unfold onPrevClick. destruct (Z.ltb_spec 0 (currentIndex s)); cbn; lia.
  - unfold onNextClick. cbv zeta.
    destruct (Z.ltb_spec (currentIndex s) (getMaxIndex w cardCount)); cbn; lia.
  - cbn. lia.
  - exact Hrange.
  - unfold onTouchEnd. cbv zeta.
    destruct (isDragging s); cbn [negb]; [|exact Hrange].
    cbn [currentIndex].
    destruct (Qle_bool (Qabs (subtract (startX s) x)) 50); cbn [negb]; [lia|].
    destruct (Qle_bool (subtract (startX s) x) 0); cbn [negb andb].
    + destruct (Qle_bool 0 (subtract (startX s) x)); cbn [negb andb]; [lia|].
      destruct (Z.ltb_spec 0 (currentIndex s)); lia.
    + destruct (Z.ltb_spec (currentIndex s) (getMaxIndex w cardCount)); [lia|].
      destruct (Qle_bool 0 (subtract (startX s) x)); cbn [negb andb]; [lia|].
      destruct (Z.ltb_spec 0 (currentIndex s)); lia.
  - unfold onResize. cbv zeta.
    destruct (Z.ltb_spec (getMaxIndex w cardCount) (currentIndex s)); cbn; lia.
Qed.

(** X15. While the container keeps its width, the index never passes the
    largest index of that width: the last visible card is never scrolled
    out leaving empty room. *)
Theorem index_within_max_at_fixed_width (w : Z) (events : list Event) (s : State) :
  Forall (fun e => forall w', widthOf e = Some w' -> w' = w) events ->
  0 <= currentIndex s <= getMaxIndex w cardCount ->
  0 <= currentIndex (run events s) <= getMaxIndex w cardCount.
Proof.
  intros Hwidths. revert s. unfold run, Carousel.run.
  induction Hwidths as [|e events He _ IH]; intros s Hrange; [exact Hrange|].
  cbn [fold_left]. apply IH. now apply handle_within.
Qed.

(** The resize handler pulls the index back to the largest index of the
    new width and never moves it forward: the index becomes the smaller of
    the two, whatever it was. *)
Theorem resize_clamps_index (w : Z) (s : State) :
  currentIndex (onResize cardCount w s)
  = Z.min (currentIndex s) (getMaxIndex w cardCount)
  /\ startX (onResize cardCount w s) = startX s
  /\ isDragging (onResize cardCount w s) = isDragging s.
Proof.
  unfold onResize. cbv zeta.
  destruct (Z.ltb_spec (getMaxIndex w cardCount) (currentIndex s)); cbn;
    repeat split; lia.
Qed.

(** X16. A button that [updateCarousel] has switched off is a button whose
    click would do nothing, and the other way round: the previous button has
    pointer events ["none"] exactly when the click handler leaves the state
    as it is, and so has the next button. *)
Theorem disabled_buttons_do_nothing (w : Z) (s : State) :
  0 <= currentIndex s ->
  (prevPointerEvents (updateCarousel w cardCount s) = "none"
   <-> onPrevClick s = s)
  /\ (nextPointerEvents (updateCarousel w cardCount s) = "none"
      <-> onNextClick cardCount w s = s)
  /\ (prevOpacity (updateCarousel w cardCount s) = "0.5"
      <-> prevPointerEvents (updateCarousel w cardCount s) = "none")
  /\ (nextOpacity (updateCarousel w cardCount s) = "0.5"
      <-> nextPointerEvents (updateCarousel w cardCount s) = "none").
Proof.
  intros Hindex. unfold updateCarousel, onPrevClick, onNextClick.
  cbv zeta. cbn [prevPointerEvents nextPointerEvents prevOpacity nextOpacity].
  assert (Hmoved : forall i, i <> currentIndex s ->
             {| currentIndex := i; startX := startX s; isDragging := isDragging s |}
             <> s).
  { intros i Hi Heq. apply Hi. now rewrite <- Heq. }
  repeat split.
  - destruct (Z.eqb_spec (currentIndex s) 0) as [Hzero|Hpos]; [|discriminate].
    intros _. destruct (Z.ltb_spec 0 (currentIndex s)); [lia | reflexivity].
  - destruct (Z.eqb_spec (currentIndex s) 0) as [Hzero|Hpos]; [reflexivity|].
    destruct (Z.ltb_spec 0 (currentIndex s)); [|lia].
    intros Heq. exfalso. revert Heq. apply Hmoved. lia.
  - destruct (Z.leb_spec (getMaxIndex w cardCount) (currentIndex s)); [|discriminate].
    intros _.
    destruct (Z.ltb_spec (currentIndex s) (getMaxIndex w cardCount));
      [lia | reflexivity].
  - destruct (Z.leb_spec (getMaxIndex w cardCount) (currentIndex s)); [reflexivity|].
    destruct (Z.ltb_spec (currentIndex s) (getMaxIndex w cardCount)); [|lia].
    intros Heq. exfalso. revert Heq. apply Hmoved. lia.
  - destruct (currentIndex s =? 0); [reflexivity | discriminate].
  - destruct (currentIndex s =? 0); [reflexivity | discriminate].
  - destruct (getMaxIndex w cardCount <=? currentIndex s); [reflexivity | discriminate].
  - destruct (getMaxIndex w cardCount <=? currentIndex s); [reflexivity | discriminate].
Qed.

Lemma next_clicks_from (w : Z) (k : nat) (s : State) :
  currentIndex s <= getMaxIndex w cardCount ->
  currentIndex (run (repeat (NextClick w) k) s)
  = Z.min (currentIndex s + Z.of_nat k) (getMaxIndex w cardCount).
Proof.
  revert s. unfold run, Carousel.run.
  induction k as [|k IH]; intros s Hrange; cbn [repeat fold_left]; [lia|].
  rewrite IH.
  - cbn [Carousel.handle]. unfold onNextClick. cbv zeta.
    destruct (Z.ltb_spec (currentIndex s) (getMaxIndex w cardCount)); cbn; lia.
  - cbn [Carousel.handle]. unfold onNextClick. cbv zeta.
    destruct (Z.ltb_spec (currentIndex s) (getMaxIndex w cardCount)); cbn; lia.
Qed.

(** X17. Pressing next [k] times from the start moves [k] cards on and stops
    at the largest index; pressing previous afterwards as often undoes it, so
    the carousel is back at the first card. *)
Theorem next_clicks_stop_at_max (w : Z) (k : nat) (s : State) :
  (1 <= cardCount)%nat ->
  currentIndex s = 0 ->
  currentIndex (run (repeat (NextClick w) k) s)
  = Z.min (Z.of_nat k) (getMaxIndex w cardCount)
  /\ currentIndex (run (repeat (NextClick w) k ++ repeat PrevClick k)%list s) = 0.
Proof.
  intros some_card Hstart.
  pose proof (getMaxIndex_range w cardCount some_card) as Hmax.
  assert (Hnext : currentIndex (run (repeat (NextClick w) k) s)
                  = Z.min (Z.of_nat k) (getMaxIndex w cardCount)).
  { rewrite next_clicks_from by lia. now rewrite Hstart. }
  split; [exact Hnext|].
  unfold run, Carousel.run in *. rewrite fold_left_app.
  assert (Hprev : forall j t,
             0 <= currentIndex t <= Z.of_nat j ->
             currentIndex (fold_left handle (repeat PrevClick j) t) = 0).
  { induction j as [|j IH]; intros t Ht; cbn [repeat fold_left]; [lia|].
    apply IH. cbn [Carousel.handle]. unfold onPrevClick.
    destruct (Z.ltb_spec 0 (currentIndex t)); cbn; lia. }
  apply Hprev. rewrite Hnext. lia.
Qed.

(** X18. A touch that ends without having started is ignored. A touch that
    ends after it started always ends the drag; it leaves the index alone
    when the finger moved 50 pixels or less, acts as a click on next when it
    moved more than 50 to the left, and as a click on previous when it moved
    more than 50 to the right. *)
Theorem swipe_is_a_click (w : Z) (clientX : Q) (s : State) :
  (isDragging s = false -> onTouchEnd subtract cardCount w clientX s = s)
  /\ (isDragging s = true ->
      let diff := subtract (startX s) clientX in
      let s' := onTouchEnd subtract cardCount w clientX s in
      isDragging s' = false /\ startX s' = startX s
      /\ (Qabs diff <= 50 -> currentIndex s' = currentIndex s)%Q
      /\ (50 < diff -> currentIndex s' = currentIndex (onNextClick cardCount w s))%Q
      /\ (diff < -50 -> currentIndex s' = currentIndex (onPrevClick s))%Q).
Proof.
  unfold onTouchEnd. cbv zeta. split; [intros ->; reflexivity|].
  intros ->. cbn [negb isDragging startX currentIndex].
  split; [reflexivity|]. split; [reflexivity|].
  set (diff := subtract (startX s) clientX).
  split; [|split].
  - intros Hsmall. apply Qle_bool_iff in Hsmall. now rewrite Hsmall.
  - intros Hleft.
    assert (Habs : Qle_bool (Qabs diff) 50 = false).
    { apply not_true_is_false. intros Hle. apply Qle_bool_iff in Hle.
      pose proof (Qle_Qabs diff) as Hdiff.
      apply (Qlt_irrefl 50). eapply Qlt_le_trans; [exact Hleft|].
      eapply Qle_trans; [exact Hdiff | exact Hle]. }
    assert (Hpos : Qle_bool diff 0 = false).
    { apply not_true_is_false. intros Hle. apply Qle_bool_iff in Hle.
      apply (Qlt_irrefl 50). eapply Qlt_le_trans; [exact Hleft|].
      eapply Qle_trans; [exact Hle | discriminate]. }
    rewrite Habs, Hpos. cbn [negb andb]. unfold onNextClick. cbv zeta.
    destruct (Z.ltb_spec (currentIndex s) (getMaxIndex w cardCount)); cbn; [reflexivity|].
    assert (Hnonneg : Qle_bool 0 diff = true).
    { apply Qle_bool_iff. apply Qlt_le_weak. eapply Qlt_trans; [|exact Hleft].
      reflexivity. }
    now rewrite Hnonneg.
  - intros Hright.
    assert (Habs : Qle_bool (Qabs diff) 50 = false).
    { apply not_true_is_false. intros Hle. apply Qle_bool_iff in Hle.
      apply Qabs_Qle_condition in Hle as [Hlow _].
      apply (Qlt_irrefl diff). eapply Qlt_le_trans; [exact Hright | exact Hlow]. }
    assert (Hneg : Qle_bool diff 0 = true).
    { apply Qle_bool_iff. apply Qlt_le_weak. eapply Qlt_trans; [exact Hright|].
      reflexivity. }
    assert (Hnonneg : Qle_bool 0 diff = false).
    { apply not_true_is_false. intros Hle. apply Qle_bool_iff in Hle.
      apply (Qlt_irrefl diff). eapply Qlt_le_trans; [exact Hright|].
      eapply Qle_trans; [|exact Hle]. discriminate. }
    rewrite Habs, Hneg, Hnonneg. cbn [negb andb]. unfold onPrevClick.
    destruct (Z.ltb_spec 0 (currentIndex s)); reflexivity.
Qed.

End Handlers.

End CarouselFacts.

Section CarouselSetup.
Import Carousel CarouselFacts.

(** X19. The set-up of the carousel. It throws exactly when the page has the
    carousel but not its container, because the cards are looked up in the
    container before the container is tested. It installs the handlers
    exactly when the carousel, the container and both buttons are there and
    there is at least one card; the carousel then starts at the first card,
    not dragging, and from there every sequence of events keeps the index on
    a card. *)
Theorem carousel_setup_outcome (carousel container prevBtn nextBtn : bool)
    (cardCount : nat) :
  (setupHotProjectsCarousel carousel container prevBtn nextBtn cardCount = TypeError
   <-> carousel = true /\ container = false)
  /\ ((exists s,
         setupHotProjectsCarousel carousel container prevBtn nextBtn cardCount
         = Started s)
      <-> carousel = true /\ container = true /\ prevBtn = true /\ nextBtn = true
          /\ (1 <= cardCount)%nat)
  /\ (forall s,
        setupHotProjectsCarousel carousel container prevBtn nextBtn cardCount
        = Started s ->
        currentIndex s = 0 /\ isDragging s = false
        /\ forall subtract events,
             0 <= currentIndex (run subtract cardCount events s)
               <= Z.of_nat cardCount - 1).
Proof.
  unfold setupHotProjectsCarousel. split; [|split].
  - destruct carousel, container; cbn [negb orb];
      try (split; [discriminate | intros [? ?]; discriminate]);
      try (split; [auto | reflexivity]).
    destruct (negb prevBtn || negb nextBtn || (cardCount =? 0)%nat);
      (split; [discriminate | intros [? ?]; discriminate]).
  - destruct carousel, container, prevBtn, nextBtn; cbn [negb orb];
      try (split; [intros [s Hs]; discriminate Hs
                  | intros (? & ? & ? & ? & ?); discriminate]).
    destruct (Nat.eqb_spec cardCount 0) as [->|Hcards].
    + split; [intros [s Hs]; discriminate Hs | intros (_ & _ & _ & _ & ?); lia].
    + split; [intros _; repeat split; lia | intros _; eexists; reflexivity].
  - intros s Hs.
    destruct carousel, container, prevBtn, nextBtn; cbn [negb orb] in Hs;
      try discriminate Hs.
    destruct (Nat.eqb_spec cardCount 0) as [->|Hcards]; [discriminate Hs|].
    injection Hs as <-. cbn [currentIndex isDragging].
    split; [reflexivity|]. split; [reflexivity|].
    intros subtract events. apply run_index; [lia | cbn; lia].
Qed.

End CarouselSetup.

(** X13 at an instance. The carousel of five cards in a container of 1000 pixels: two cards are
    visible and the largest index is 3. *)
Lemma visible_cards_bounds_witness :
  (1 <= 5)%nat
  /\ 1 <= Carousel.getVisibleCards 1000 5 <= 5
  /\ 0 <= Carousel.getMaxIndex 1000 5 <= 4.
Proof.
  split; [lia|].
  pose proof (CarouselFacts.visible_cards_bounds 1000 5 ltac:(lia))
    as (Hvisible & Hmax & _).
  split; [exact Hvisible | exact Hmax].
Defined.

(** X14 at an instance. The session on five cards: the index stays between
    0 and 4 (the wider window takes it back to the first card). *)
Lemma index_stays_on_a_card_witness :
  0 <= Carousel.currentIndex (Carousel.run Qminus 5 carouselSession carouselStart) <= 4.
Proof.
  exact (proj1 (CarouselFacts.index_stays_on_a_card Qminus 5 carouselSession
                  carouselStart ltac:(lia) ltac:(cbn; lia))).
Defined.

(** X15 at an instance. Clicks and a swipe in a container that stays 1000 pixels wide. *)
Lemma index_within_max_at_fixed_width_witness :
  0 <= Carousel.currentIndex
         (Carousel.run Qminus 5
            [ Carousel.NextClick 1000; Carousel.NextClick 1000;
              Carousel.TouchStart (300 # 1); Carousel.TouchEnd 1000 (100 # 1);
              Carousel.NextClick 1000 ] carouselStart)
    <= Carousel.getMaxIndex 1000 5.
Proof.
  apply (CarouselFacts.index_within_max_at_fixed_width Qminus 5 1000).
  - repeat constructor; cbn; intros w' Hw'; congruence.
  - change (Carousel.getMaxIndex 1000 5) with 3. cbn. lia.
Defined.

(** X16 at an instance. At the first card the previous button is off and a click on it changes
    nothing. *)
Lemma disabled_buttons_do_nothing_witness :
  Carousel.prevPointerEvents (Carousel.updateCarousel 1000 5 carouselStart) = "none"
  /\ Carousel.onPrevClick carouselStart = carouselStart.
Proof.
  pose proof (CarouselFacts.disabled_buttons_do_nothing 5 1000 carouselStart
                ltac:(cbn; lia)) as (Hprev & _).
  split; [reflexivity|]. apply Hprev. reflexivity.
Defined.

(** X17 at an instance. Ten clicks on next with five cards, two of them visible, stop at
    index 3. *)
Lemma next_clicks_stop_at_max_witness :
  Carousel.currentIndex
    (Carousel.run Qminus 5 (repeat (Carousel.NextClick 1000) 10) carouselStart)
  = 3.
Proof.
  exact (proj1 (CarouselFacts.next_clicks_stop_at_max Qminus 5 1000 10 carouselStart
                  ltac:(lia) eq_refl)).
Defined.

(** * Regular expressions *)

Module RegexFacts.
Import Regex.

Lemma Matches_Never (s : list N) : ~ Matches Never s.
Proof. intros Hm. inversion Hm. Qed.

Lemma Matches_Empty (s : list N) : Matches Empty s <-> s = [].
Proof. split; [intros Hm; now inversion Hm | intros ->; constructor]. Qed.

Lemma Matches_Unit (class : N -> bool) (s : list N) :
  Matches (Unit class) s <-> exists c, s = [c] /\ class c = true.
Proof.
  split.
  - intros Hm. inversion Hm; subst. now exists c.
  - intros (c & -> & Hc). now constructor.
Qed.

Lemma Matches_Seq (r1 r2 : regex) (s : list N) :
  Matches (Seq r1 r2) s
  <-> exists s1 s2, s = (s1 ++ s2)%list /\ Matches r1 s1 /\ Matches r2 s2.
Proof.
  split.
  - intros Hm. inversion Hm; subst. now exists s1, s2.
  - intros (s1 & s2 & -> & H1 & H2). now constructor.
Qed.

Lemma Matches_Alt (r1 r2 : regex) (s : list N) :
  Matches (Alt r1 r2) s <-> Matches r1 s \/ Matches r2 s.
Proof.
  split.
  - intros Hm. inversion Hm; subst; auto.
  - intros [Hm|Hm]; [now apply MAltL | now apply MAltR].
Qed.

(** A non-empty match of a star starts with a non-empty match of its
    body. *)
Lemma Matches_Star_cons (r : regex) (c : N) (s : list N) :
  Matches (Star r) (c :: s) ->
  exists s1 s2, s = (s1 ++ s2)%list /\ Matches r (c :: s1) /\ Matches (Star r) s2.
Proof.
  intros Hm. remember (Star r) as star eqn:Hstar. remember (c :: s) as cs eqn:Hcs.
  revert c s Hcs.
  induction Hm as [| | | | | |r' s1 s2 Hbody _ Hrest IH]; try discriminate Hstar.
  - discriminate.
  - injection Hstar as ->. intros c s Hcs.
    destruct s1 as [|c1 s1].
    + simpl in Hcs. now apply IH.
    + simpl in Hcs. injection Hcs as Hc Hs. subst c s. now exists s1, s2.
Qed.

Lemma nullable_Matches (r : regex) : nullable r = true <-> Matches r [].
Proof.
  induction r as [| |class|r1 IH1 r2 IH2|r1 IH1 r2 IH2|r IH]; simpl.
  - split; [discriminate | intros Hm; inversion Hm].
  - split; [constructor | reflexivity].
  - split; [discriminate | intros Hm; inversion Hm].
  - rewrite andb_true_iff, IH1, IH2, Matches_Seq. split.
    + intros [H1 H2]. now exists [], [].
    + intros (s1 & s2 & Heq & H1 & H2). symmetry in Heq.
      apply app_eq_nil in Heq as [-> ->]. auto.
  - rewrite orb_true_iff, IH1, IH2, Matches_Alt. reflexivity.
  - split; [constructor | reflexivity].
Qed.

Lemma derive_Matches (c : N) (r : regex) (s : list N) :
  Matches (derive c r) s <-> Matches r (c :: s).
Proof.
  revert s.
  induction r as [| |class|r1 IH1 r2 IH2|r1 IH1 r2 IH2|r IH]; intros s; simpl.
  - split; intros Hm; inversion Hm.
  - split; intros Hm; inversion Hm.
  - rewrite Matches_Unit. destruct (class c) eqn:Hc.
    + rewrite Matches_Empty. split.
      * intros ->. now exists c.
      * intros (c' & Heq & _). now injection Heq.
    + split; [intros Hm; inversion Hm|].
      intros (c' & Heq & Hc'). injection Heq as <- _. congruence.
  - assert (Hseq : Matches (Seq (derive c r1) r2) s
                   <-> exists s1 s2, s = (s1 ++ s2)%list
                         /\ Matches r1 (c :: s1) /\ Matches r2 s2).
    { rewrite Matches_Seq. split; intros (s1 & s2 & Heq & H1 & H2);
        exists s1, s2; (split; [assumption|]); (split; [now apply IH1 | assumption]). }
    rewrite (Matches_Seq r1 r2 (c :: s)).
    destruct (nullable r1) eqn:Hnull.
    + rewrite Matches_Alt, Hseq, IH2. split.
      * intros [(s1 & s2 & -> & H1 & H2) | H2].
        -- now exists (c :: s1), s2.
        -- exists [], (c :: s). split; [reflexivity|].
           split; [now apply nullable_Matches | assumption].
      * intros (s1 & s2 & Heq & H1 & H2). destruct s1 as [|c1 s1].
        -- simpl in Heq. subst s2. now right.
        -- injection Heq as <- ->. left. now exists s1, s2.
    + rewrite Hseq. split.
      * intros (s1 & s2 & -> & H1 & H2). now exists (c :: s1), s2.
      * intros (s1 & s2 & Heq & H1 & H2). destruct s1 as [|c1 s1].
        -- apply nullable_Matches in H1. congruence.
        -- injection Heq as <- ->. now exists s1, s2.
  - rewrite !Matches_Alt, IH1, IH2. reflexivity.
  - rewrite Matches_Seq. split.
    + intros (s1 & s2 & -> & H1 & H2). apply IH in H1.
      now apply (MStarApp r (c :: s1) s2).
    + intros Hm. apply Matches_Star_cons in Hm as (s1 & s2 & -> & H1 & H2).
      exists s1, s2. split; [reflexivity|]. split; [now apply IH | assumption].
Qed.

(** The matcher decides the language. *)
Lemma test_Matches (r : regex) (s : list N) : test r s = true <-> Matches r s.
Proof.
  unfold test. revert r. induction s as [|c s IH]; intros r; simpl.
  - apply nullable_Matches.
  - rewrite IH. apply derive_Matches.
Qed.

Lemma Matches_Star_Unit (class : N -> bool) (s : list N) :
  Matches (Star (Unit class)) s <-> Forall (fun c => class c = true) s.
Proof.
  split.
  - induction s as [|c s IH]; intros Hm; [constructor|].
    apply Matches_Star_cons in Hm as (s1 & s2 & -> & H1 & H2).
    apply Matches_Unit in H1 as (c' & Heq & Hc).
    injection Heq as <- ->. constructor; [assumption | now apply IH].
  - induction 1 as [|c s Hc _ IH]; [constructor|].
    apply (MStarApp (Unit class) [c] s); [now constructor | assumption].
Qed.

(** [[class]+] accepts the non-empty strings of the class. *)
Lemma Matches_Plus_Unit (class : N -> bool) (s : list N) :
  Matches (Plus (Unit class)) s <-> s <> [] /\ Forall (fun c => class c = true) s.
Proof.
  unfold Plus. rewrite Matches_Seq. split.
  - intros (s1 & s2 & -> & H1 & H2).
    apply Matches_Unit in H1 as (c & -> & Hc). apply Matches_Star_Unit in H2.
    split; [discriminate | now constructor].
  - intros [Hne Hall]. destruct Hall as [|c s Hc Hall]; [congruence|].
    exists [c], s. split; [reflexivity|].
    split; [now constructor | now apply Matches_Star_Unit].
Qed.

(** [[class]{n}] accepts the strings of the class of length [n]. *)
Lemma Matches_Times_Unit (class : N -> bool) (n : nat) (s : list N) :
  Matches (Times n (Unit class)) s
  <-> length s = n /\ Forall (fun c => class c = true) s.
Proof.
  revert s. induction n as [|n IH]; intros s; simpl.
  - rewrite Matches_Empty. split.
    + intros ->. split; [reflexivity | constructor].
    + intros [Hlen _]. now destruct s.
  - rewrite Matches_Seq. split.
    + intros (s1 & s2 & -> & H1 & H2).
      apply Matches_Unit in H1 as (c & -> & Hc). apply IH in H2 as [Hlen Hall].
      split; [simpl; now rewrite Hlen | now constructor].
    + intros [Hlen Hall]. destruct Hall as [|c s Hc Hall]; [discriminate|].
      exists [c], s. split; [reflexivity|].
      split; [now constructor|]. apply IH. split; [now injection Hlen | assumption].
Qed.

End RegexFacts.

(** * The validation of the contact forms *)

Module ValidationFacts.
Import Regex RegexFacts Validation.

Lemma isChar_eq (a : ascii) (c : N) : isChar a c = true <-> c = N_of_ascii a.
Proof. unfold isChar. apply N.eqb_eq. Qed.

Lemma plain_not_at (c : N) : notSpaceNorAt c = true -> isChar "@" c = false.
Proof.
  unfold notSpaceNorAt. rewrite negb_true_iff, orb_false_iff. tauto.
Qed.

Lemma plain_not_space (c : N) : notSpaceNorAt c = true -> isSpace c = false.
Proof.
  unfold notSpaceNorAt. rewrite negb_true_iff, orb_false_iff. tauto.
Qed.

(** The language of the e-mail expression. *)
Lemma emailRegex_Matches (e : list N) :
  Matches emailRegex e
  <-> exists mailbox domain ending,
        e = (mailbox ++ unitsOf "@" ++ domain ++ unitsOf "." ++ ending)%list
        /\ mailbox <> [] /\ domain <> [] /\ ending <> []
        /\ Forall (fun c => notSpaceNorAt c = true) mailbox
        /\ Forall (fun c => notSpaceNorAt c = true) domain
        /\ Forall (fun c => notSpaceNorAt c = true) ending.
Proof.
  unfold emailRegex. split.
  - intros Hm.
    apply Matches_Seq in Hm as (mailbox & r1 & -> & Hmailbox & Hm).
    apply Matches_Seq in Hm as (at1 & r2 & -> & Hat & Hm).
    apply Matches_Seq in Hm as (domain & r3 & -> & Hdomain & Hm).
    apply Matches_Seq in Hm as (dot & ending & -> & Hdot & Hending).
    apply Matches_Plus_Unit in Hmailbox as [? ?].
    apply Matches_Plus_Unit in Hdomain as [? ?].
    apply Matches_Plus_Unit in Hending as [? ?].
    apply Matches_Unit in Hat as (c1 & -> & ->%isChar_eq).
    apply Matches_Unit in Hdot as (c2 & -> & ->%isChar_eq).
    exists mailbox, domain, ending. repeat split; assumption.
  - intros (mailbox & domain & ending & -> & ? & ? & ? & ? & ? & ?).
    apply MSeq; [now apply Matches_Plus_Unit|].
    apply MSeq; [apply Matches_Unit; now exists 64%N|].
    apply MSeq; [now apply Matches_Plus_Unit|].
    apply MSeq; [apply Matches_Unit; now exists 46%N|].
    now apply Matches_Plus_Unit.
Qed.

(** X20. [isValidEmail] accepts exactly the addresses made of a mailbox, an
    [@], a domain, a dot and an ending, where the three parts are not empty
    and hold neither white space nor [@] (they may hold dots). The test of
    the newsletter form for an empty address, made before the call, changes
    nothing. *)
Theorem valid_email_shape (e : list N) :
  (isValidEmail e = true
   <-> exists mailbox domain ending,
         e = (mailbox ++ unitsOf "@" ++ domain ++ unitsOf "." ++ ending)%list
         /\ mailbox <> [] /\ domain <> [] /\ ending <> []
         /\ Forall (fun c => notSpaceNorAt c = true) (mailbox ++ domain ++ ending))
  /\ newsletterAccepts e = isValidEmail e.
Proof.
  split.
  - unfold isValidEmail. rewrite test_Matches, emailRegex_Matches.
    split.
    + intros (mailbox & domain & ending & He & ? & ? & ? & ? & ? & ?).
      exists mailbox, domain, ending. repeat split; try assumption.
      rewrite !Forall_app. auto.
    + intros (mailbox & domain & ending & He & ? & ? & ? & Hall).
      rewrite !Forall_app in Hall. destruct Hall as (? & ? & ?).
      exists mailbox, domain, ending. repeat split; assumption.
  - destruct e; reflexivity.
Qed.

Lemma filter_plain (s : list N) :
  Forall (fun c => notSpaceNorAt c = true) s -> List.filter (isChar "@") s = [].
Proof.
  induction 1 as [|c s Hc _ IH]; simpl; [reflexivity|].
  now rewrite (plain_not_at c Hc).
Qed.

Lemma Forall_plain (s : list N) :
  Forall (fun c => notSpaceNorAt c = true) s -> Forall (fun c => isSpace c = false) s.
Proof.
  induction 1 as [|c s Hc _ IH]; constructor; [now apply plain_not_space | exact IH].
Qed.

(** X21. What [isValidEmail] never accepts: an address with white space in it,
    an address without an [@] or with more than one, or an address of fewer
    than five code units. *)
Theorem valid_email_never (e : list N) :
  isValidEmail e = true ->
  Forall (fun c => isSpace c = false) e
  /\ length (List.filter (isChar "@") e) = 1%nat
  /\ (5 <= length e)%nat.
Proof.
  unfold isValidEmail. rewrite test_Matches, emailRegex_Matches.
  intros (mailbox & domain & ending & -> & Hm & Hd & He & Hmailbox & Hdomain & Hending).
  split; [|split].
  - rewrite !Forall_app.
    repeat split; try (now apply Forall_plain); repeat constructor.
  - rewrite !List.filter_app.
    rewrite (filter_plain mailbox), (filter_plain domain), (filter_plain ending)
      by assumption.
    reflexivity.
  - rewrite !length_app.
    destruct mailbox; [congruence|]. destruct domain; [congruence|].
    destruct ending; [congruence|]. simpl. lia.
Qed.

(** The language of the phone expression. *)
Lemma phoneRegex_Matches (t : list N) :
  Matches phoneRegex t
  <-> exists d rest, t = d :: rest /\ (54 <= d <= 57)%N /\ length rest = 9%nat
        /\ Forall (fun c => isDigit c = true) rest.
Proof.
  unfold phoneRegex. rewrite Matches_Seq. split.
  - intros (s1 & rest & -> & H1 & H2).
    apply Matches_Unit in H1 as (d & -> & Hd).
    apply Matches_Times_Unit in H2 as [Hlen Hall].
    apply andb_true_iff in Hd as [Hlow Hhigh].
    apply N.leb_le in Hlow, Hhigh.
    now exists d, rest.
  - intros (d & rest & -> & [Hlow Hhigh] & Hlen & Hall).
    exists [d], rest. split; [reflexivity|]. split.
    + apply Matches_Unit. exists d. split; [reflexivity|].
      apply andb_true_iff. split; now apply N.leb_le.
    + now apply Matches_Times_Unit.
Qed.

Lemma skipn_cons_nth_error {A : Type} (k : nat) (l rest : list A) (x : A) :
  skipn k l = x :: rest <-> nth_error l k = Some x /\ rest = skipn (S k) l.
Proof.
  revert l. induction k as [|k IH]; intros [|y l]; simpl.
  - split; [discriminate | intros [? _]; discriminate].
  - split; [intros Heq; injection Heq as -> ->; auto
           | intros [Heq ->]; now injection Heq as ->].
  - split; [discriminate | intros [? _]; discriminate].
  - apply IH.
Qed.

Lemma digitsOf_digits (p : list N) : Forall (fun c => isDigit c = true) (digitsOf p).
Proof.
  unfold digitsOf. induction p as [|c p IH]; simpl; [constructor|].
  destruct (isDigit c) eqn:Hc; [now constructor | exact IH].
Qed.

Lemma Forall_skipn {A : Type} (P : A -> Prop) (k : nat) (l : list A) :
  Forall P l -> Forall P (skipn k l).
Proof.
  intros Hall. rewrite <- (firstn_skipn k l) in Hall.
  now apply Forall_app in Hall.
Qed.

(** X22. The phone test of [validatePropertyForm] looks at digits only: a phone
    number passes exactly when it has at least ten digits and the tenth
    digit from the end is 6, 7, 8 or 9. Spaces, dashes, brackets and a
    country code in front make no difference. *)
Theorem phone_test_on_digits (p : list N) :
  let digits := digitsOf p in
  test phoneRegex (lastTen digits) = true
  <-> (10 <= length digits)%nat
      /\ exists d, nth_error digits (length digits - 10) = Some d
                   /\ (54 <= d <= 57)%N.
Proof.
  intros digits. rewrite test_Matches, phoneRegex_Matches. unfold lastTen.
  pose proof (digitsOf_digits p) as Hdigits. fold digits in Hdigits.
  split.
  - intros (d & rest & Hskip & Hd & Hlen & _).
    assert (Hten : length (skipn (length digits - 10) digits) = 10%nat)
      by (rewrite Hskip; simpl; now rewrite Hlen).
    rewrite length_skipn in Hten.
    apply skipn_cons_nth_error in Hskip as [Hnth _].
    split; [lia|]. now exists d.
  - intros (Hlong & d & Hnth & Hd).
    exists d, (skipn (S (length digits - 10)) digits).
    split; [now apply skipn_cons_nth_error|]. split; [exact Hd|]. split.
    + rewrite length_skipn. lia.
    + now apply Forall_skipn.
Qed.

Lemma trimStart_nil (s : list N) :
  trimStart s = [] <-> Forall (fun c => isSpace c = true) s.
Proof.
  induction s as [|c s IH]; simpl; [split; [constructor | reflexivity]|].
  destruct (isSpace c) eqn:Hc.
  - rewrite IH. split; [now constructor | intros Hall; now inversion Hall].
  - split; [discriminate | intros Hall; inversion Hall; congruence].
Qed.

Lemma trimStart_spaces (s : list N) :
  Forall (fun c => isSpace c = true) (trimStart s)
  <-> Forall (fun c => isSpace c = true) s.
Proof.
  induction s as [|c s IH]; simpl; [reflexivity|].
  destruct (isSpace c) eqn:Hc; [|reflexivity].
  rewrite IH. split; [now constructor | intros Hall; now inversion Hall].
Qed.

Lemma rev_spaces (s : list N) :
  Forall (fun c => isSpace c = true) (rev s)
  <-> Forall (fun c => isSpace c = true) s.
Proof.
  split; intros Hall.
  - rewrite <- (rev_involutive s). now apply List.Forall_rev.
  - now apply List.Forall_rev.
Qed.

(** A string trims to nothing exactly when it is all white space. *)
Lemma trim_nil (s : list N) :
  trim s = [] <-> Forall (fun c => isSpace c = true) s.
Proof.
  unfold trim. rewrite <- trimStart_spaces, <- rev_spaces, <- trimStart_nil.
  split.
  - intros Hnil. apply (f_equal (@rev N)) in Hnil.
    now rewrite rev_involutive in Hnil.
  - now intros ->.
Qed.

End ValidationFacts.

Module FormValidation.
Import Regex RegexFacts Validation ValidationFacts.

Lemma not_all_spaces (s : list N) :
  ~ Forall (fun c => isSpace c = true) s <-> exists c, In c s /\ isSpace c = false.
Proof.
  induction s as [|c s IH].
  - split; [intros Hn; exfalso; apply Hn; constructor | intros (c & [] & _)].
  - split.
    + intros Hn. destruct (isSpace c) eqn:Hc.
      * destruct (proj1 IH) as (c' & Hin & Hc').
        { intros Hall. apply Hn. now constructor. }
        exists c'. split; [now right | assumption].
      * exists c. split; [now left | assumption].
    + intros (c' & [<-|Hin] & Hc') Hall; inversion Hall; subst; [congruence|].
      apply (proj2 IH); [now exists c' | assumption].
Qed.

(** A field passes the required-field test exactly when it is there and
    holds something other than white space. *)
Lemma blank_false (field : option (list N)) :
  blank field = false
  <-> exists s, field = Some s /\ exists c, In c s /\ isSpace c = false.
Proof.
  destruct field as [s|]; simpl.
  - assert (Htrim : match trim s with [] => true | _ :: _ => false end = false
                    <-> exists c, In c s /\ isSpace c = false).
    { rewrite <- not_all_spaces, <- trim_nil.
      destruct (trim s); split; congruence. }
    destruct s as [|c0 s0].
    + split; [discriminate | intros (s & Hs & c & Hin & _)].
      injection Hs as <-. destruct Hin.
    + rewrite Htrim. split.
      * intros Hex. now exists (c0 :: s0).
      * intros (s & Hs & Hex). now injection Hs as <-.
  - split; [discriminate | intros (s & Hs & _); discriminate].
Qed.

Lemma digit_not_space (c : N) : isDigit c = true -> isSpace c = false.
Proof.
  unfold isDigit, isSpace. rewrite andb_true_iff, !N.leb_le. intros [Hlow Hhigh].
  apply not_true_is_false.
  rewrite !orb_true_iff, !andb_true_iff, !N.leb_le, !N.eqb_eq. lia.
Qed.

Lemma valid_email_not_blank (e : list N) :
  test emailRegex e = true -> blank (Some e) = false.
Proof.
  rewrite test_Matches, emailRegex_Matches.
  intros (mailbox & domain & ending & -> & _).
  apply blank_false. eexists. split; [reflexivity|].
  exists 64%N. split; [|reflexivity].
  apply in_or_app. right. now left.
Qed.

Lemma valid_phone_not_blank (p : list N) :
  test phoneRegex (lastTen (digitsOf p)) = true -> blank (Some p) = false.
Proof.
  rewrite test_Matches, phoneRegex_Matches.
  intros (d & rest & Hlast & _).
  assert (Hin : In d (digitsOf p)).
  { unfold lastTen in Hlast.
    rewrite <- (firstn_skipn (length (digitsOf p) - 10) (digitsOf p)), Hlast.
    apply in_or_app. right. now left. }
  unfold digitsOf in Hin. apply filter_In in Hin as [Hin Hd].
  apply blank_false. exists p. split; [reflexivity|].
  exists d. split; [assumption | now apply digit_not_space].
Qed.

(** X23. [validatePropertyForm] accepts exactly the forms with a name that is
    there and not blank, an e-mail address that [isValidEmail] accepts, and
    a phone number that passes the phone test. The required-field tests on
    the e-mail address and the phone number add nothing to the two
    expressions; a form with a missing field is rejected, never an error. *)
Theorem validatePropertyForm_accepts (data : FormData) :
  validatePropertyForm data = true
  <-> (exists n, name data = Some n /\ exists c, In c n /\ isSpace c = false)
      /\ (exists e, email data = Some e /\ isValidEmail e = true)
      /\ (exists p, phone data = Some p
                    /\ test phoneRegex (lastTen (digitsOf p)) = true).
Proof.
  unfold validatePropertyForm, isValidEmail. cbn [existsb].
  rewrite <- blank_false. split.
  - destruct (blank (name data)) eqn:Hname; [discriminate|].
    destruct (blank (phone data)) eqn:Hphone; [discriminate|].
    destruct (blank (email data)) eqn:Hemail; [discriminate|].
    cbn [orb].
    destruct (email data) as [e|]; [|discriminate].
    destruct (phone data) as [p|]; [|discriminate].
    destruct (test emailRegex e) eqn:Hvalid; [|discriminate].
    destruct (test phoneRegex (lastTen (digitsOf p))) eqn:Hdigits; [|discriminate].
    intros _. split; [reflexivity|]. split; [now exists e | now exists p].
  - intros (Hname & (e & He & Hvalid) & (p & Hp & Hphone)).
    rewrite Hname, He, Hp.
    rewrite (valid_email_not_blank e Hvalid), (valid_phone_not_blank p Hphone).
    cbn [orb]. now rewrite Hvalid, Hphone.
Qed.

End FormValidation.

(** X21 at an instance. An address that is accepted, with its one [@]. *)
Lemma valid_email_never_witness :
  Validation.isValidEmail (Validation.unitsOf "ann@example.com") = true
  /\ length (List.filter (Regex.isChar "@") (Validation.unitsOf "ann@example.com"))
     = 1%nat.
Proof.
  split; [reflexivity|].
  exact (proj1 (proj2 (ValidationFacts.valid_email_never
                         (Validation.unitsOf "ann@example.com") eq_refl))).
Defined.

(** Forms the validation accepts and rejects. *)
Example validatePropertyForm_examples :
  let form name phone email :=
    {| Validation.name := Some (Validation.unitsOf name);
       Validation.phone := Some (Validation.unitsOf phone);
       Validation.email := Some (Validation.unitsOf email) |} in
  Validation.validatePropertyForm (form "Ann" "+91 98765-43210" "ann@x.in") = true
  /\ Validation.validatePropertyForm (form "   " "9876543210" "ann@x.in") = false
  /\ Validation.validatePropertyForm (form "Ann" "5876543210" "ann@x.in") = false
  /\ Validation.validatePropertyForm (form "Ann" "987654321" "ann@x.in") = false
  /\ Validation.validatePropertyForm (form "Ann" "9876543210" "ann@x") = false
  /\ Validation.validatePropertyForm
       {| Validation.name := Some (Validation.unitsOf "Ann");
          Validation.phone := None;
          Validation.email := Some (Validation.unitsOf "ann@x.in") |} = false.
Proof. repeat split; reflexivity. Qed.

(** * Notifications *)

Module NotificationFacts.
Import Notifications.

Section Parser.
Context `{HtmlParser}.

Lemma list_sum_filter {A : Type} (f : A -> nat) (keep : A -> bool) (l : list A) :
  (list_sum (f <$> List.filter keep l) <= list_sum (f <$> l))%nat.
Proof.
  induction l as [|x l IH]; [reflexivity|].
  rewrite fmap_cons. simpl List.filter.
  destruct (keep x); [rewrite fmap_cons|]; simpl list_sum; lia.
Qed.

Lemma handle_alone (page : Page) (e : Event) :
  plainEvent e ->
  (notificationCount page <= 1)%nat ->
  (notificationCount (handle page e) <= 1)%nat.
Proof.
  intros Hplain Halone. destruct e as [message type|id|id]; cbn [handle].
  - cbn [plainEvent] in Hplain. unfold notificationCount. cbn.
    rewrite (plainText_no_elements message Hplain). lia.
  - unfold hideTimerFires.
    destruct (existsb (Nat.eqb id) (hideTimers page)); exact Halone.
  - unfold removeTimerFires.
    destruct (existsb (Nat.eqb id) (removeTimers page)); [|exact Halone].
    unfold notificationCount in *. cbn [notifications].
    etransitivity; [apply list_sum_filter | exact Halone].
Qed.

(** X24. What [showNotification] leaves on the page. After the call, the
    page holds exactly the new notification, of class [alert-danger] for the
    type ["error"] and [alert-] and the type otherwise ([alert-info] when no
    type is given), and [querySelectorAll(".notification")] finds it and
    every element of that class the message's markup has built inside it.
    When the messages are plain text (no [<], as the messages of the script
    are when the values put in them are), the page never has more than one
    element of class [notification], whatever it showed before and whichever
    calls and timers follow. *)
Theorem one_notification_at_most (events : list Event) (message : string)
    (type : option string) (page : Page) :
  (notificationCount (showNotification message type page)
   = S (notificationElements message)
   /\ exists n,
        notifications (showNotification message type page) = [n]
        /\ Notifications.message n = message
        /\ className n
           = "notification alert alert-"
             ++ match type with
                | Some "error" => "danger"
                | Some t => t
                | None => "info"
                end
             ++ " alert-dismissible position-fixed")
  /\ (plainText message = true -> Forall plainEvent events ->
      notificationCount (showNotification message type page) = 1%nat
      /\ (notificationCount (run events (showNotification message type page)) <= 1)%nat).
Proof.
  split; [split|].
  - unfold notificationCount. cbn. lia.
  - eexists. split; [reflexivity|]. split; [reflexivity|].
    cbn [className]. destruct type as [t|]; [|reflexivity].
    destruct (String.eqb_spec t "error") as [->|Hne]; [reflexivity|].
    destruct t as [|c0 t0]; [reflexivity|].
    f_equal.
    repeat match goal with
           | |- context [match ?x with _ => _ end] =>
               destruct x; try reflexivity; try congruence
           end.
  - intros Hplain Hevents.
    assert (Hstart : notificationCount (showNotification message type page) = 1%nat).
    { unfold notificationCount. cbn.
      rewrite (plainText_no_elements message Hplain). lia. }
    split; [exact Hstart|].
    assert (Hle : (notificationCount (showNotification message type page) <= 1)%nat)
      by lia.
    clear Hstart. revert Hle.
    generalize (showNotification message type page) as start.
    unfold run. induction Hevents as [|e events He _ IH]; intros start Hle;
      [exact Hle|].
    cbn [fold_left]. apply IH. now apply handle_alone.
Qed.

Lemma handle_spares (id : nat) (n : Notification) (page : Page) (e : Event) :
  timerOfAnother id e ->
  noteId n = id ->
  notifications page = [n] ->
  notifications (handle page e) = [n].
Proof.
  intros Hother Hid Hcurrent.
  destruct e as [message type|other|other]; cbn [handle timerOfAnother] in *.
  - destruct Hother.
  - unfold hideTimerFires.
    destruct (existsb (Nat.eqb other) (hideTimers page)); cbn; exact Hcurrent.
  - unfold removeTimerFires.
    destruct (existsb (Nat.eqb other) (removeTimers page)); cbn [notifications];
      [|exact Hcurrent].
    rewrite Hcurrent. cbn. rewrite Hid.
    destruct (Nat.eqb_spec id other) as [->|_]; [congruence | reflexivity].
Qed.

(** X25. The timers of earlier notifications cannot take the current one away:
    as long as only timers of other notifications fire, the notification that
    was shown last stays on the page. *)
Theorem stale_timers_spare_current (events : list Event) (message : string)
    (type : option string) (page : Page) :
  Forall (timerOfAnother (created page)) events ->
  notifications (run events (showNotification message type page))
  = notifications (showNotification message type page).
Proof.
  intros Hothers.
  set (start := showNotification message type page).
  assert (Hstart : exists n, noteId n = created page /\ notifications start = [n])
    by (eexists; split; [|reflexivity]; reflexivity).
  destruct Hstart as (n & Hid & Hcurrent). rewrite Hcurrent.
  clearbody start. revert start Hcurrent. unfold run.
  induction Hothers as [|e events He _ IH]; intros start Hcurrent;
    [exact Hcurrent|].
  cbn [fold_left]. apply IH. now apply (handle_spares (created page)).
Qed.

End Parser.

End NotificationFacts.

(** X24 at an instance. Three plain messages in a row, with the timers of
    the first firing in between: one notification is left. *)
Lemma one_notification_at_most_witness :
  let page :=
    {| Notifications.notifications := []; Notifications.hideTimers := [];
       Notifications.removeTimers := []; Notifications.created := 0 |} in
  let events :=
    [ Notifications.Show "Saved" (Some "success"); Notifications.HideTimer 0;
      Notifications.RemoveTimer 0; Notifications.Show "Failed" (Some "error") ] in
  Notifications.notificationCount
    (@Notifications.showNotification Notifications.textParser
       "Please wait" None page) = 1%nat
  /\ (Notifications.notificationCount
        (@Notifications.run Notifications.textParser events
           (@Notifications.showNotification Notifications.textParser
              "Please wait" None page)) <= 1)%nat.
Proof.
  intros page events.
  apply (proj2 (@NotificationFacts.one_notification_at_most
                  Notifications.textParser events "Please wait" None page)).
  - reflexivity.
  - repeat constructor.
Defined.

(** X25 at an instance. A second notification is shown while the timers of the first are still
    pending; they fire, and the second stays. *)
Lemma stale_timers_spare_current_witness :
  let page :=
    @Notifications.showNotification Notifications.textParser "Saved" (Some "success")
      {| Notifications.notifications := []; Notifications.hideTimers := [];
         Notifications.removeTimers := []; Notifications.created := 0 |} in
  Notifications.message <$>
    Notifications.notifications
      (@Notifications.run Notifications.textParser
         [Notifications.HideTimer 0; Notifications.RemoveTimer 0]
         (@Notifications.showNotification Notifications.textParser
            "Failed" (Some "error") page))
  = ["Failed"].
Proof.
  intros page.
  rewrite (@NotificationFacts.stale_timers_spare_current Notifications.textParser
             [Notifications.HideTimer 0; Notifications.RemoveTimer 0]
             "Failed" (Some "error") page).
  - reflexivity.
  - repeat constructor; cbn; lia.
Defined.

(** * The WhatsApp link *)

Module WhatsAppFacts.
Import WhatsApp.

Lemma encodeByte_plain (b : ascii) :
  forallb (fun c => negb (URLSearchParams.isDelimiter c) && negb (Ascii.eqb c " "))
          (list_ascii_of_string (encodeByte b)) = true.
Proof.
  destruct b as [b0 b1 b2 b3 b4 b5 b6 b7].
  destruct b0, b1, b2, b3, b4, b5, b6, b7; reflexivity.
Qed.

Lemma percentDecode_encodeByte (b : ascii) (rest : string) :
  URLSearchParams.percentDecode (encodeByte b ++ rest)
  = String b (URLSearchParams.percentDecode rest).
Proof.
  destruct b as [b0 b1 b2 b3 b4 b5 b6 b7].
  destruct b0, b1, b2, b3, b4, b5, b6, b7; reflexivity.
Qed.

Lemma encodeURIComponent_plain (s : string) (c : ascii) :
  In c (list_ascii_of_string (encodeURIComponent s)) ->
  URLSearchParams.isDelimiter c = false /\ c <> " "%char.
Proof.
  induction s as [|b s IH]; simpl; [tauto|].
  rewrite URLFacts.chars_app, in_app_iff. intros [Hin|Hin]; [|now apply IH].
  pose proof (encodeByte_plain b) as Hplain.
  rewrite forallb_forall in Hplain. specialize (Hplain c Hin).
  apply andb_true_iff in Hplain as [Hdelim Hspace].
  apply negb_true_iff in Hdelim, Hspace.
  split; [assumption|]. now apply Ascii.eqb_neq.
Qed.

Lemma percentDecode_encodeURIComponent (s : string) :
  URLSearchParams.percentDecode (encodeURIComponent s) = s.
Proof.
  induction s as [|b s IH]; [reflexivity|].
  simpl encodeURIComponent. rewrite percentDecode_encodeByte. now rewrite IH.
Qed.

(** X26. The address [openPropertyWhatsApp] opens has one query parameter,
    [text], whatever the message holds: the encoded message has no [&], [=],
    [#], [?] nor space, and percent-decoding it gives the message back. A
    missing or empty message is replaced by the standard one. *)
Theorem whatsapp_link_carries_message (message : option string) :
  exists text,
    openPropertyWhatsApp message = "https://wa.me/919876543210?text=" ++ text
    /\ (forall c, In c (list_ascii_of_string text) ->
          URLSearchParams.isDelimiter c = false /\ c <> " "%char)
    /\ (forall m, message = Some m -> m <> "" ->
          URLSearchParams.percentDecode text = m)
    /\ (JS.truthy message = false ->
        URLSearchParams.percentDecode text
        = "Hi, I'm interested in Dasnac project. Please share more details about the LEED Platinum certified sustainable development.").
Proof.
  unfold openPropertyWhatsApp. cbv zeta.
  eexists. split; [reflexivity|]. split; [apply encodeURIComponent_plain|].
  rewrite percentDecode_encodeURIComponent. split.
  - intros m -> Hm. apply JSFacts.nonEmpty_true in Hm. now rewrite Hm.
  - intros Hfalsy. apply JSFacts.truthy_false in Hfalsy as [-> | ->]; reflexivity.
Qed.

End WhatsAppFacts.
